(** * go-mrcp media processing framework: context topology and DTMF detector

    A shallow embedding of [mpf/mpf_context.go] (the association matrix of a
    media context, its factory and the topology derived from the matrix) and
    of [mpf/mpf_dtmf_detector.go] (the digit buffer and the Goertzel bank of
    the DTMF detector), with the properties of the design document checked
    against them.

    Conventions of the embedding:
    - Go integers are [Z]; the fixed-width arithmetic the code relies on is
      written out ([wrap8], [wrap16], [wrap64]).
    - [float64] is Rocq's primitive binary64 [float].
    - Go slices and arrays are lists read with [!!] and written with
      [<[ _ := _ ]>]; an index outside the slice is a run-time panic in Go
      and is the outcome [Panic] here.
    - Pointers are addresses ([addr]); two pointers are equal when their
      addresses are. *)

From Stdlib Require Import ZArith Floats Strings.String Strings.Byte Bool Lia.
From stdpp Require Import base option list.

Local Open Scope Z_scope.

(** ** Outcomes of Go code: a result, or a run-time panic *)

Inductive outcome (A : Type) : Type :=
| Ok (a : A)
| Panic (why : string).
Arguments Ok {A} a.
Arguments Panic {A} why.

#[export] Instance outcome_bind : MBind outcome :=
  fun A B k m =>
    match m with
    | Ok a => k a
    | Panic why => Panic why
    end.

#[export] Instance outcome_ret : MRet outcome := fun A a => Ok a.

Definition index_out_of_range : string := "index out of range".
Definition nil_dereference : string := "nil pointer dereference".

(** [s[i]] for a slice [s] and an [int64] index [i]. *)
Definition index {A : Type} (s : list A) (i : Z) : outcome A :=
  if (i <? 0) || (Z.of_nat (length s) <=? i) then Panic index_out_of_range
  else match s !! Z.to_nat i with
       | Some a => Ok a
       | None => Panic index_out_of_range
       end.

(** [s[i] = a]. *)
Definition store {A : Type} (s : list A) (i : Z) (a : A) : outcome (list A) :=
  if (i <? 0) || (Z.of_nat (length s) <=? i) then Panic index_out_of_range
  else Ok (<[Z.to_nat i := a]> s).

(** Go's built-in [copy(dst, src)]: the first [min(len dst, len src)]
    elements of [dst] are overwritten. *)
Definition go_copy {A : Type} (dst src : list A) : list A :=
  take (length dst) src ++ drop (length src) dst.

(** ** Fixed-width integers *)

Definition wrap8 (z : Z) : Z := z mod 256.
Definition wrap16 (z : Z) : Z := (z + 32768) mod 65536 - 32768.
Definition wrap64 (z : Z) : Z := (z + 2 ^ 63) mod 2 ^ 64 - 2 ^ 63.
Definition max_int64 : Z := 2 ^ 63 - 1.

(** [float64(z)] for an integer whose magnitude is below [2^53] (every value
    converted in this file is), where the conversion is exact. *)
Definition float64_of_int (z : Z) : float :=
  if z <? 0 then PrimFloat.opp (PrimFloat.of_uint63 (Uint63.of_Z (- z)))
  else PrimFloat.of_uint63 (Uint63.of_Z z).


(** * Part I: the DTMF detector ([mpf/mpf_dtmf_detector.go]) *)

Definition error : Type := string.
Definition addr : Type := nat.

(** The parts of the stream types the two source files read. The types are
    declared elsewhere in the package; only the fields used are kept. *)
Record CodecDescriptor : Type := { SamplingRate : Z }.

Record AudioStream : Type := {
  direction : Z;
  TXDescriptor : option CodecDescriptor;
  TXEventDescriptor : option CodecDescriptor
}.

Record Frame : Type := {
  FrameType : Z;
  Marker : Z;
  EventFrame : Z;
  CodecFrame : list byte
}.

Definition MPF_DTMF_DETECTOR_INBAND : Z := 1.
Definition MPF_DTMF_DETECTOR_OUTBAND : Z := 2.
Definition MPF_DTMF_DETECTOR_BOTH : Z :=
  Z.lor MPF_DTMF_DETECTOR_INBAND MPF_DTMF_DETECTOR_OUTBAND.

Definition MPF_DTMFDET_BUFFER_LEN : Z := 32.
Definition DTMF_FREQUENCIES : nat := 8.
Definition GOERTZEL_SAMPLES_8K : Z := 102.
Definition DTMF_EVENT_ID_MAX : Z := 15.

Record GoertzelState : Type := {
  Coef : float;
  S1 : float;
  S2 : float
}.

(** The mutex of the Go struct is left out: every method below runs from
    [Lock] to [Unlock] without interruption, which is what a sequential
    function is. *)
Record DtmfDetector : Type := {
  Band : Z;
  buf : list byte;
  Digits : Z;
  LostDigits : Z;
  energies : list GoertzelState;
  TotalEnergy : float;
  WSamples : Z;
  NSamples : Z;
  last1 : byte;
  last2 : byte;
  curr : byte
}.

Definition DtmfFreqs : list float :=
  [697; 770; 852; 941; 1209; 1336; 1477; 1633]%float.

Definition freq2Digits : list (list byte) :=
  [ ["1"; "2"; "3"; "A"];
    ["4"; "5"; "6"; "B"];
    ["7"; "8"; "9"; "C"];
    ["*"; "0"; "#"; "D"] ]%byte.

(** [math.Cos] of the Go standard library. *)
Class GoMath : Type := { math_Cos : float -> float }.

(** The constant [2*math.Pi], rounded to [float64] as the Go compiler does. *)
Definition two_pi : float := 0x1.921fb54442d18p+2%float.

(** [new(DtmfDetector)]: every field holds its zero value. *)
Definition new_DtmfDetector : DtmfDetector :=
  {| Band := 0;
     buf := replicate (Z.to_nat (MPF_DTMFDET_BUFFER_LEN + 1)) "000"%byte;
     Digits := 0;
     LostDigits := 0;
     energies := replicate DTMF_FREQUENCIES {| Coef := 0; S1 := 0; S2 := 0 |};
     TotalEnergy := 0;
     WSamples := 0;
     NSamples := 0;
     last1 := "000"%byte;
     last2 := "000"%byte;
     curr := "000"%byte |}.

(** [stream] is a pointer: the first statement reads [stream.TXDescriptor],
    which dereferences it. *)
Definition DtmfDetectorCreateEx `{GoMath} (stream : option AudioStream) (band : Z)
  : outcome (option DtmfDetector) :=
  match stream with
  | None => Panic nil_dereference
  | Some stream =>
    let flgBand :=
      match TXDescriptor stream with
      | None => Z.land band (Z.lnot MPF_DTMF_DETECTOR_INBAND)
      | Some _ => band
      end in
    if flgBand <=? 0 then Ok None
    else
      let det := new_DtmfDetector in
      if 0 <? Z.land flgBand MPF_DTMF_DETECTOR_INBAND then
        match TXDescriptor stream with
        | None => Panic nil_dereference
        | Some descriptor =>
          let rate := SamplingRate descriptor in
          let init (es : list GoertzelState) (i : nat) :=
            <[i := {| Coef := 2 * math_Cos (two_pi * default 0%float (DtmfFreqs !! i)
                                            / float64_of_int rate);
                      S1 := 0; S2 := 0 |}]> es in
          Ok (Some
            {| Band := flgBand;
               buf := buf det;
               Digits := Digits det;
               LostDigits := LostDigits det;
               energies := foldl init (energies det) (seq 0 DTMF_FREQUENCIES);
               TotalEnergy := TotalEnergy det;
               WSamples := wrap64 (GOERTZEL_SAMPLES_8K * Z.quot rate 8000);
               NSamples := 0;
               last1 := "000"%byte;
               last2 := "000"%byte;
               curr := "000"%byte |})
        end
      else
        Ok (Some
          {| Band := flgBand;
             buf := buf det;
             Digits := Digits det;
             LostDigits := LostDigits det;
             energies := energies det;
             TotalEnergy := TotalEnergy det;
             WSamples := WSamples det;
             NSamples := NSamples det;
             last1 := last1 det;
             last2 := last2 det;
             curr := curr det |})
  end.

(** [stream] is a pointer here too: [stream.TXEventDescriptor] is read
    before [DtmfDetectorCreateEx] is called. *)
Definition DtmfDetectorCreate `{GoMath} (stream : option AudioStream)
  : outcome (option DtmfDetector) :=
  match stream with
  | None => Panic nil_dereference
  | Some s =>
    let band :=
      match TXEventDescriptor s with
      | Some _ => MPF_DTMF_DETECTOR_BOTH
      | None => MPF_DTMF_DETECTOR_INBAND
      end in
    DtmfDetectorCreateEx stream band
  end.

Definition with_buffer (detector : DtmfDetector) (b : list byte) (n lost : Z)
  : DtmfDetector :=
  {| Band := Band detector;
     buf := b;
     Digits := n;
     LostDigits := lost;
     energies := energies detector;
     TotalEnergy := TotalEnergy detector;
     WSamples := WSamples detector;
     NSamples := NSamples detector;
     last1 := last1 detector;
     last2 := last2 detector;
     curr := curr detector |}.

(** The digit buffer is the fixed array [[MPF_DTMFDET_BUFFER_LEN + 1]byte];
    [buf[0]] always exists. *)
Definition DtmfDetectorDigitGet (detector : DtmfDetector) : byte * DtmfDetector :=
  let digit := default "000"%byte (buf detector !! 0%nat) in
  if (0 <? Byte.to_N digit)%N then
    (digit,
     with_buffer detector
       (go_copy (buf detector) (drop 1 (buf detector)))
       (wrap64 (Digits detector - 1))
       (LostDigits detector))
  else (digit, detector).

Definition DtmfDetectorDigitsLost (detector : DtmfDetector) : Z :=
  LostDigits detector.

Definition DtmfDetectorReset (detector : DtmfDetector) : DtmfDetector :=
  {| Band := Band detector;
     buf := <[0%nat := "000"%byte]> (buf detector);
     Digits := 0;
     LostDigits := 0;
     energies := energies detector;
     TotalEnergy := 0;
     WSamples := WSamples detector;
     NSamples := 0;
     last1 := "000"%byte;
     last2 := "000"%byte;
     curr := "000"%byte |}.

Definition DtmfDetectorAddDigit (detector : DtmfDetector) (digit : byte)
  : outcome DtmfDetector :=
  if (Byte.to_N digit <=? 0)%N then Ok detector
  else if Digits detector <? MPF_DTMFDET_BUFFER_LEN then
    b1 ← store (buf detector) (Digits detector) digit;
    let n := wrap64 (Digits detector + 1) in
    b2 ← store b1 n "000"%byte;
    Ok (with_buffer detector b2 n (LostDigits detector))
  else
    Ok (with_buffer detector (buf detector) (Digits detector)
          (wrap64 (LostDigits detector + 1))).

(** One pass of the loop body of [GoertzelSample] on resonator [i]. The
    product and the sum are rounded one after the other, as on amd64; Go
    may fuse them into one rounding on other targets. *)
Definition goertzel_step (sample : Z) (e : GoertzelState) : GoertzelState :=
  let s := S1 e in
  let s1 := S2 e in
  {| Coef := Coef e;
     S1 := s1;
     S2 := (float64_of_int sample + Coef e * s1 - s)%float |}.

(** [sample] is an [int16]; the product [sample * sample] is an [int16]
    product in Go and wraps before it is converted to [float64]. *)
Definition GoertzelSample (detector : DtmfDetector) (sample : Z) : DtmfDetector :=
  {| Band := Band detector;
     buf := buf detector;
     Digits := Digits detector;
     LostDigits := LostDigits detector;
     energies :=
       foldl (fun es i => alter (goertzel_step sample) i es)
             (energies detector) (seq 0 DTMF_FREQUENCIES);
     TotalEnergy :=
       (TotalEnergy detector + float64_of_int (wrap16 (sample * sample)))%float;
     WSamples := WSamples detector;
     NSamples := NSamples detector;
     last1 := last1 detector;
     last2 := last2 detector;
     curr := curr detector |}.

(** The body of [GoertzelEnergiesDigit] is empty in the source. *)
Definition GoertzelEnergiesDigit (detector : DtmfDetector) : DtmfDetector :=
  detector.

(** The body of [DtmfDetectorGetFrame] is empty in the source. *)
Definition DtmfDetectorGetFrame (detector : DtmfDetector) (frame : Frame)
  : DtmfDetector :=
  detector.

(** * Part II: media contexts ([mpf/mpf_context.go]) *)

(** ** The collaborators of a context *)

(** A termination, as far as [mpf_context.go] reads and writes it. *)
Record Termination : Type := {
  slot : Z;
  audioStream : option AudioStream;
  codecManager : addr
}.

(** Go's [container/list]: the elements from front to back, each with its
    identity (the [*list.Element]) and the context pointer it carries. *)
Record List : Type := {
  elements : list (nat * addr);
  next_element : nat
}.

Definition list_New : List := {| elements := []; next_element := 0 |}.

Definition PushBack (l : List) (v : addr) : nat * List :=
  (next_element l,
   {| elements := elements l ++ [(next_element l, v)];
      next_element := S (next_element l) |}).

(** [l.Remove(e)] unlinks [e] when [e] is an element of [l] and does nothing
    when it is not (or not any more); a nil [e] is dereferenced. *)
Definition Remove (l : List) (e : option nat) : outcome List :=
  match e with
  | None => Panic nil_dereference
  | Some e =>
    Ok {| elements := filter (fun p => fst p ≠ e) (elements l);
          next_element := next_element l |}
  end.

Record ContextFactory : Type := {
  Link : List;
  Head : option nat
}.

Record MatrixItem : Type := { On : Z }.

Record HeaderItem : Type := {
  termination : option addr;
  TXCount : Z;
  RXCount : Z
}.

(** A media processing object, as far as the context uses it: its [Process]
    function, which acts on the media state [Media] of the streams the
    object was built over, and may be nil. *)
Record Object (Media : Type) : Type := {
  Process : option (Media -> Media * option error)
}.
Arguments Process {Media} _.

(** Modelled from the spec: the topology-object list ([apr.ArrayHeader], whose
    source is not part of the files at hand). Objects are appended in
    creation order ([Stack.Push]) and read back by position
    ([ArrayHeaderIndex]); the pointer to the list may itself be nil. An
    entry is an object pointer. *)
Definition ArrayHeader (Media : Type) : Type := list (option (Object Media)).

(** The [Factory] back pointer is not a field here: the factory travels with
    the context in [State] below. *)
Record Context (Media : Type) : Type := {
  Element : option nat;
  Name : string;
  Obj : option addr;
  Capacity : Z;
  Count : Z;
  header : list HeaderItem;
  matrix : list (list MatrixItem);
  mpfObjects : option (ArrayHeader Media)
}.
Arguments Element {Media} _.
Arguments Name {Media} _.
Arguments Obj {Media} _.
Arguments Capacity {Media} _.
Arguments Count {Media} _.
Arguments header {Media} _.
Arguments matrix {Media} _.
Arguments mpfObjects {Media} _.

(** What the methods that bind and unbind terminations touch: the factory
    the context points back to, the context itself (allocated at address
    [self]) and the terminations, found by address. *)
Record State (Media : Type) : Type := {
  factory : ContextFactory;
  self : addr;
  context : Context Media;
  terminations : list Termination
}.
Arguments factory {Media} _.
Arguments self {Media} _.
Arguments context {Media} _.
Arguments terminations {Media} _.

(** Stream directions; the constants are declared with the stream types. *)
Class StreamDirections : Type := {
  STREAM_DIRECTION_SEND : Z;
  STREAM_DIRECTION_RECEIVE : Z
}.

(** The constructors of the three topology objects and the termination's
    own [TerminationSubtract], all declared in other files of the package.
    Only what the context does with their results is modelled. *)
Class Collaborators (Media : Type) : Type := {
  BridgeCreate : option AudioStream -> option AudioStream -> addr -> string ->
                 option (Object Media) * option error;
  MultiplierCreate : option AudioStream -> list (option AudioStream) -> Z ->
                     addr -> string -> option (Object Media);
  MixerCreate : list (option AudioStream) -> Z -> option AudioStream ->
                addr -> string -> option (Object Media);
  TerminationSubtract : Termination -> option error
}.

Definition ContextFactoryCreate : ContextFactory :=
  {| Link := list_New; Head := None |}.

(** ** Field updates through pointers *)

Section ContextOps.
Context {Media : Type}.

Definition with_header (c : Context Media) (h : list HeaderItem) : Context Media :=
  {| Element := Element c; Name := Name c; Obj := Obj c;
     Capacity := Capacity c; Count := Count c;
     header := h; matrix := matrix c; mpfObjects := mpfObjects c |}.

Definition with_matrix (c : Context Media) (m : list (list MatrixItem)) : Context Media :=
  {| Element := Element c; Name := Name c; Obj := Obj c;
     Capacity := Capacity c; Count := Count c;
     header := header c; matrix := m; mpfObjects := mpfObjects c |}.

Definition with_Count (c : Context Media) (n : Z) : Context Media :=
  {| Element := Element c; Name := Name c; Obj := Obj c;
     Capacity := Capacity c; Count := n;
     header := header c; matrix := matrix c; mpfObjects := mpfObjects c |}.

Definition with_mpfObjects (c : Context Media) (o : option (ArrayHeader Media))
  : Context Media :=
  {| Element := Element c; Name := Name c; Obj := Obj c;
     Capacity := Capacity c; Count := Count c;
     header := header c; matrix := matrix c; mpfObjects := o |}.

(** [&context.header[i]] and [&context.matrix[i][j]], read. *)
Definition header_item (c : Context Media) (i : Z) : outcome HeaderItem :=
  index (header c) i.

Definition matrix_item (c : Context Media) (i j : Z) : outcome MatrixItem :=
  row ← index (matrix c) i;
  index row j.

(** [item.On = v] for [item = &context.matrix[i][j]]. *)
Definition set_On (c : Context Media) (i j v : Z) : outcome (Context Media) :=
  row ← index (matrix c) i;
  row' ← store row j {| On := v |};
  m' ← store (matrix c) i row';
  Ok (with_matrix c m').

(** [headerItem.TXCount++] and [headerItem.TXCount--] on a [uint8], for
    [headerItem = &context.header[i]]; likewise for [RXCount]. *)
Definition TXCount_add (c : Context Media) (i d : Z) : outcome (Context Media) :=
  h ← index (header c) i;
  h' ← store (header c) i
         {| termination := termination h;
            TXCount := wrap8 (TXCount h + d);
            RXCount := RXCount h |};
  Ok (with_header c h').

Definition RXCount_add (c : Context Media) (i d : Z) : outcome (Context Media) :=
  h ← index (header c) i;
  h' ← store (header c) i
         {| termination := termination h;
            TXCount := TXCount h;
            RXCount := wrap8 (RXCount h + d) |};
  Ok (with_header c h').

(** [headerItem.termination = p]. *)
Definition set_termination (c : Context Media) (i : Z) (p : option addr)
  : outcome (Context Media) :=
  h ← index (header c) i;
  h' ← store (header c) i
         {| termination := p; TXCount := TXCount h; RXCount := RXCount h |};
  Ok (with_header c h').

(** [*p] for a termination pointer. *)
Definition deref (terms : list Termination) (p : addr) : outcome Termination :=
  match terms !! p with
  | Some t => Ok t
  | None => Panic nil_dereference
  end.

(** [headerItem.termination == p] for a non-nil [p]. *)
Definition same_termination (q : option addr) (p : addr) : bool :=
  match q with
  | Some a => Nat.eqb a p
  | None => false
  end.

(** The edge [i -> j] is switched off, with both counters. *)
Definition clear_edge (c : Context Media) (i j : Z) : outcome (Context Media) :=
  item ← matrix_item c i j;
  if 0 <? On item then
    c ← set_On c i j 0;
    c ← TXCount_add c i (-1);
    RXCount_add c j (-1)
  else Ok c.

End ContextOps.

(** ** Creating a context, binding and unbinding terminations *)

Section ContextBinding.
Context {Media : Type}.

(** [make] panics on a negative length. The two initialisation loops write
    the zero values the slices already hold. The new context lives at
    address [this]. *)
Definition ContextCreate (f : ContextFactory) (this : addr) (name : string)
    (obj : option addr) (maxTerminationCount : Z)
  : outcome (Context Media * ContextFactory) :=
  if maxTerminationCount <? 0 then Panic "makeslice: len out of range"
  else
    let n := Z.to_nat maxTerminationCount in
    let '(ele, link) := PushBack (Link f) this in
    Ok ({| Element := Some ele;
           Name := name;
           Obj := obj;
           Capacity := maxTerminationCount;
           Count := 0;
           header := replicate n {| termination := None; TXCount := 0; RXCount := 0 |};
           matrix := replicate n (replicate n {| On := 0 |});
           mpfObjects := Some [] |},
        {| Link := link; Head := Head f |}).

Definition ContextObjectGet (c : Context Media) : option addr := Obj c.

(** The loop of [ContextTerminationAdd] from slot [i] on. [fuel] counts the
    slots left, so it runs out exactly when [i] reaches [Capacity]. *)
Fixpoint ContextTerminationAdd_from (fuel : nat) (i : Z) (st : State Media)
    (term : addr) : outcome (bool * State Media) :=
  match fuel with
  | O => Ok (false, st)
  | S fuel =>
    if i <? Capacity (context st) then
      headerItem ← header_item (context st) i;
      match termination headerItem with
      | Some _ => ContextTerminationAdd_from fuel (i + 1) st term
      | None =>
        let f :=
          if Count (context st) =? 0
          then {| Link := snd (PushBack (Link (factory st)) (self st));
                  Head := Head (factory st) |}
          else factory st in
        h ← store (header (context st)) i
              {| termination := Some term; TXCount := 0; RXCount := 0 |};
        t ← deref (terminations st) term;
        let terms :=
          <[term := {| slot := i; audioStream := audioStream t;
                       codecManager := codecManager t |}]> (terminations st) in
        Ok (true,
            {| factory := f;
               self := self st;
               context := with_Count (with_header (context st) h)
                            (wrap64 (Count (context st) + 1));
               terminations := terms |})
      end
    else Ok (false, st)
  end.

Definition ContextTerminationAdd (st : State Media) (term : addr)
  : outcome (bool * State Media) :=
  ContextTerminationAdd_from (Z.to_nat (Capacity (context st))) 0 st term.

(** The loop of [ContextTerminationSubtract] for slot [i], from partner slot
    [j] on, with [k] partners counted so far. The test that skips a partner
    is the source's: [headerItem2.termination != nil]. *)
Fixpoint ContextTerminationSubtract_from (fuel : nat) (i j k : Z)
    (c : Context Media) : outcome (Context Media) :=
  match fuel with
  | O => Ok c
  | S fuel =>
    if (j <? Capacity c) && (k <? Count c) then
      headerItem2 ← header_item c j;
      match termination headerItem2 with
      | Some _ => ContextTerminationSubtract_from fuel i (j + 1) k c
      | None =>
        c ← clear_edge c i j;
        c ← clear_edge c j i;
        ContextTerminationSubtract_from fuel i (j + 1) (k + 1) c
      end
    else Ok c
  end.

Definition ContextTerminationSubtract (st : State Media) (term : addr)
  : outcome (bool * State Media) :=
  t ← deref (terminations st) term;
  let i := slot t in
  if Capacity (context st) <=? i then Ok (false, st)
  else
    headerItem1 ← header_item (context st) i;
    if negb (same_termination (termination headerItem1) term) then Ok (false, st)
    else
      c ← ContextTerminationSubtract_from
            (Z.to_nat (Capacity (context st))) i 0 0 (context st);
      c ← set_termination c i None;
      let terms :=
        <[term := {| slot := -1; audioStream := audioStream t;
                     codecManager := codecManager t |}]> (terminations st) in
      let c := with_Count c (wrap64 (Count c - 1)) in
      if Count c <=? 0 then
        link ← Remove (Link (factory st)) (Element c);
        Ok (true,
            {| factory := {| Link := link; Head := Head (factory st) |};
               self := self st; context := c; terminations := terms |})
      else
        Ok (true,
            {| factory := factory st;
               self := self st; context := c; terminations := terms |}).

(** [ContextDestroy]: every bound termination is subtracted from the
    context, then from its own resources; the first error of the latter
    ends the loop. *)
Fixpoint ContextDestroy_from `{Collaborators Media} (fuel : nat) (i : Z)
    (st : State Media) : outcome (option error * State Media) :=
  match fuel with
  | O => Ok (None, st)
  | S fuel =>
    if i <? Capacity (context st) then
      headerItem ← header_item (context st) i;
      match termination headerItem with
      | Some term =>
        '(_, st) ← ContextTerminationSubtract st term;
        t ← deref (terminations st) term;
        match TerminationSubtract t with
        | Some err => Ok (Some err, st)
        | None => ContextDestroy_from fuel (i + 1) st
        end
      | None => ContextDestroy_from fuel (i + 1) st
      end
    else Ok (None, st)
  end.

Definition ContextDestroy `{Collaborators Media} (st : State Media)
  : outcome (option error * State Media) :=
  ContextDestroy_from (Z.to_nat (Capacity (context st))) 0 st.

End ContextBinding.

(** ** The association matrix *)

Section Associations.
Context {Media : Type} `{StreamDirections}.

Definition StreamDirectionCompatibilityCheck (termination1 termination2 : Termination)
  : bool :=
  match audioStream termination1, audioStream termination2 with
  | Some source, Some sink =>
    (Z.land (direction source) STREAM_DIRECTION_RECEIVE =? STREAM_DIRECTION_RECEIVE)
    && (Z.land (direction sink) STREAM_DIRECTION_SEND =? STREAM_DIRECTION_SEND)
  | _, _ => false
  end.

(** The edge [i -> j] is switched on when it is off and the directions
    allow it; [t1] and [t2] are the terminations of slots [i] and [j]. *)
Definition set_edge (c : Context Media) (i j : Z) (t1 t2 : Termination)
  : outcome (Context Media) :=
  item ← matrix_item c i j;
  if On item <=? 0 then
    if StreamDirectionCompatibilityCheck t1 t2 then
      c ← set_On c i j 1;
      c ← TXCount_add c i 1;
      RXCount_add c j 1
    else Ok c
  else Ok c.

Definition ContextAssociationAdd (terms : list Termination) (c : Context Media)
    (termination1 termination2 : addr) : outcome (Context Media * option error) :=
  t1 ← deref terms termination1;
  t2 ← deref terms termination2;
  let i := slot t1 in
  let j := slot t2 in
  if (Capacity c <=? i) || (Capacity c <=? j)
  then Ok (c, Some "slot >= context.Capacity"%string)
  else
    headerItem1 ← header_item c i;
    headerItem2 ← header_item c j;
    if negb (same_termination (termination headerItem1) termination1)
       || negb (same_termination (termination headerItem2) termination2)
    then Ok (c, Some "no match Termination"%string)
    else
      _ ← matrix_item c i j;
      _ ← matrix_item c j i;
      (* 1 -> 2 *)
      c ← set_edge c i j t1 t2;
      (* 2 -> 1 *)
      c ← set_edge c j i t2 t1;
      Ok (c, None).

Definition ContextAssociationRemove (terms : list Termination) (c : Context Media)
    (termination1 termination2 : addr) : outcome (Context Media * option error) :=
  t1 ← deref terms termination1;
  t2 ← deref terms termination2;
  let i := slot t1 in
  let j := slot t2 in
  if (Capacity c <=? i) || (Capacity c <=? j)
  then Ok (c, Some "slot >= context.Capacity"%string)
  else
    headerItem1 ← header_item c i;
    headerItem2 ← header_item c j;
    if negb (same_termination (termination headerItem1) termination1)
       || negb (same_termination (termination headerItem2) termination2)
    then Ok (c, Some "no match Termination"%string)
    else
      _ ← matrix_item c i j;
      _ ← matrix_item c j i;
      (* 1 -> 2 *)
      c ← clear_edge c i j;
      (* 2 -> 1 *)
      c ← clear_edge c j i;
      Ok (c, None).

End Associations.

Section AssociationsReset.
Context {Media : Type} `{Collaborators Media}.

(** The inner loop of [ContextAssociationsReset] for slot [i], from [j] on. *)
Fixpoint ContextAssociationsReset_inner (fuel : nat) (i j : Z) (c : Context Media)
  : outcome (Context Media) :=
  match fuel with
  | O => Ok c
  | S fuel =>
    if j <? Capacity c then
      headerItem2 ← header_item c j;
      match termination headerItem2 with
      | None => ContextAssociationsReset_inner fuel i (j + 1) c
      | Some _ =>
        c ← clear_edge c i j;
        c ← clear_edge c j i;
        ContextAssociationsReset_inner fuel i (j + 1) c
      end
    else Ok c
  end.

(** The outer loop, from slot [i] on with [k] bound slots seen so far. *)
Fixpoint ContextAssociationsReset_from (fuel : nat) (i k : Z) (c : Context Media)
  : outcome (Context Media) :=
  match fuel with
  | O => Ok c
  | S fuel =>
    if (i <? Capacity c) && (k <? Count c) then
      headerItem1 ← header_item c i;
      match termination headerItem1 with
      | None => ContextAssociationsReset_from fuel (i + 1) k c
      | Some _ =>
        if (TXCount headerItem1 <=? 0) && (RXCount headerItem1 <=? 0)
        then ContextAssociationsReset_from fuel (i + 1) (k + 1) c
        else
          c ← ContextAssociationsReset_inner (Z.to_nat (Capacity c - i)) i i c;
          ContextAssociationsReset_from fuel (i + 1) (k + 1) c
      end
    else Ok c
  end.

(** The first statement is the source's: [_ = ContextDestroy(context)]. *)
Definition ContextAssociationsReset (st : State Media)
  : outcome (option error * State Media) :=
  '(_, st) ← ContextDestroy st;
  c ← ContextAssociationsReset_from
        (Z.to_nat (Capacity (context st))) 0 0 (context st);
  Ok (None,
      {| factory := factory st; self := self st; context := c;
         terminations := terminations st |}).

End AssociationsReset.

(** ** Topology *)

Section Topology.
Context {Media : Type} `{Collaborators Media}.

Definition ContextObjectAdd (c : Context Media) (object : option (Object Media))
  : outcome (Context Media * option error) :=
  match object with
  | None => Ok (c, Some "object is nil"%string)
  | Some o =>
    match mpfObjects c with
    | None => Panic nil_dereference
    | Some objects => Ok (with_mpfObjects c (Some (objects ++ [Some o])), None)
    end
  end.

(** Every object of the list is handed to [ObjectDestroy], whose result is
    dropped, and the list is cleared. *)
Definition ContextTopologyDestroy (c : Context Media) : Context Media :=
  match mpfObjects c with
  | Some (_ :: _) => with_mpfObjects c (Some [])
  | _ => c
  end.

(** [p.audioStream] and [p.codecManager] for a header's termination pointer. *)
Definition stream_of (terms : list Termination) (p : option addr)
  : outcome (option AudioStream) :=
  match p with
  | None => Panic nil_dereference
  | Some a => t ← deref terms a; Ok (audioStream t)
  end.

Definition codec_manager_of (terms : list Termination) (p : option addr)
  : outcome addr :=
  match p with
  | None => Panic nil_dereference
  | Some a => t ← deref terms a; Ok (codecManager t)
  end.

Fixpoint ContextBridgeCreate_from (fuel : nat) (terms : list Termination)
    (c : Context Media) (i j : Z) : outcome (option (Object Media) * option error) :=
  match fuel with
  | O => Ok (None, None)
  | S fuel =>
    if j <? Capacity c then
      headerItem2 ← header_item c j;
      match termination headerItem2 with
      | None => ContextBridgeCreate_from fuel terms c i (j + 1)
      | Some _ =>
        item ← matrix_item c i j;
        if On item <=? 0 then ContextBridgeCreate_from fuel terms c i (j + 1)
        else if 1 <? RXCount headerItem2 then
          (* mixer will be created instead *)
          Ok (None, None)
        else
          headerItem1 ← header_item c i;
          match termination headerItem1 with
          | Some _ =>
            source ← stream_of terms (termination headerItem1);
            sink ← stream_of terms (termination headerItem2);
            manager ← codec_manager_of terms (termination headerItem1);
            Ok (BridgeCreate source sink manager (Name c))
          | None => ContextBridgeCreate_from fuel terms c i (j + 1)
          end
      end
    else Ok (None, None)
  end.

Definition ContextBridgeCreate (terms : list Termination) (c : Context Media) (i : Z)
  : outcome (option (Object Media) * option error) :=
  _ ← header_item c i;
  ContextBridgeCreate_from (Z.to_nat (Capacity c)) terms c i 0.

(** The gathering loop shared in shape by [ContextMultiplierCreate] (edges
    [i -> j], [edge j = matrix[i][j]]) and [ContextMixerCreate] (edges
    [i -> j] for fixed [j]): [arr[k]] receives the stream of each bound
    slot with the edge on, at most [n] of them. *)
Fixpoint gather_streams (fuel : nat) (terms : list Termination) (c : Context Media)
    (edge : Z -> outcome MatrixItem) (n : Z) (j k : Z)
    (arr : list (option AudioStream)) : outcome (list (option AudioStream)) :=
  match fuel with
  | O => Ok arr
  | S fuel =>
    if (j <? Capacity c) && (k <? n) then
      headerItem2 ← header_item c j;
      match termination headerItem2 with
      | None => gather_streams fuel terms c edge n (j + 1) k arr
      | Some _ =>
        item ← edge j;
        if On item <=? 0 then gather_streams fuel terms c edge n (j + 1) k arr
        else
          s ← stream_of terms (termination headerItem2);
          arr ← store arr k s;
          gather_streams fuel terms c edge n (j + 1) (k + 1) arr
      end
    else Ok arr
  end.

Definition ContextMultiplierCreate (terms : list Termination) (c : Context Media)
    (i : Z) : outcome (option (Object Media) * option error) :=
  headerItem1 ← header_item c i;
  let sinkArr := replicate (Z.to_nat (TXCount headerItem1)) None in
  sinkArr ← gather_streams (Z.to_nat (Capacity c)) terms c
              (fun j => matrix_item c i j) (TXCount headerItem1) 0 0 sinkArr;
  source ← stream_of terms (termination headerItem1);
  manager ← codec_manager_of terms (termination headerItem1);
  Ok (MultiplierCreate source sinkArr (Z.of_nat (length sinkArr)) manager (Name c),
      None).

Definition ContextMixerCreate (terms : list Termination) (c : Context Media)
    (j : Z) : outcome (option (Object Media) * option error) :=
  headerItem1 ← header_item c j;
  let sourceArr := replicate (Z.to_nat (RXCount headerItem1)) None in
  sourceArr ← gather_streams (Z.to_nat (Capacity c)) terms c
                (fun i => matrix_item c i j) (RXCount headerItem1) 0 0 sourceArr;
  sink ← stream_of terms (termination headerItem1);
  manager ← codec_manager_of terms (termination headerItem1);
  Ok (MixerCreate sourceArr (Z.of_nat (length sourceArr)) sink manager (Name c),
      None).

(** The loop of [ContextTopologyApply] from slot [i] on. A constructor's
    object goes to [ContextObjectAdd] whatever it is, and an error of
    either ends the pass. *)
Fixpoint ContextTopologyApply_from (fuel : nat) (terms : list Termination)
    (i k : Z) (c : Context Media) : outcome (Context Media * option error) :=
  match fuel with
  | O => Ok (c, None)
  | S fuel =>
    if (i <? Capacity c) && (k <? Count c) then
      headerItem ← header_item c i;
      match termination headerItem with
      | None => ContextTopologyApply_from fuel terms (i + 1) k c
      | Some _ =>
        r ← (if 0 <? TXCount headerItem then
               '(object, err) ←
                  (if TXCount headerItem =? 1
                   then ContextBridgeCreate terms c i
                   else ContextMultiplierCreate terms c i);
               match err with
               | Some e => Ok (c, Some e)
               | None => ContextObjectAdd c object
               end
             else Ok (c, None));
        match r with
        | (c, Some e) => Ok (c, Some e)
        | (c, None) =>
          r ← (if 1 <? RXCount headerItem then
                 '(object, err) ← ContextMixerCreate terms c i;
                 match err with
                 | Some e => Ok (c, Some e)
                 | None => ContextObjectAdd c object
                 end
               else Ok (c, None));
          match r with
          | (c, Some e) => Ok (c, Some e)
          | (c, None) => ContextTopologyApply_from fuel terms (i + 1) (k + 1) c
          end
        end
      end
    else Ok (c, None)
  end.

Definition ContextTopologyApply (terms : list Termination) (c : Context Media)
  : outcome (Context Media * option error) :=
  (* first destroy existing topology, if any *)
  let c := ContextTopologyDestroy c in
  ContextTopologyApply_from (Z.to_nat (Capacity c)) terms 0 0 c.

(** The loop of [ContextProcess] over the object list, front to back. *)
Fixpoint ContextProcess_objects (objects : ArrayHeader Media) (m : Media)
  : Media * option error :=
  match objects with
  | [] => (m, None)
  | object :: rest =>
    match object with
    | Some {| Process := Some process |} =>
      match process m with
      | (m, Some err) => (m, Some err)
      | (m, None) => ContextProcess_objects rest m
      end
    | _ => ContextProcess_objects rest m
    end
  end.

Definition ContextProcess (c : Context Media) (m : Media) : Media * option error :=
  match mpfObjects c with
  | Some (object :: rest) => ContextProcess_objects (object :: rest) m
  | _ => (m, None)
  end.

End Topology.

(** ** Drivers used to state properties of runs *)

(** [DtmfDetectorAddDigit] for each digit of [ds], in order. *)
Fixpoint add_digits (ds : list byte) (detector : DtmfDetector) : outcome DtmfDetector :=
  match ds with
  | [] => Ok detector
  | d :: ds => detector ← DtmfDetectorAddDigit detector d; add_digits ds detector
  end.

(** [n] calls of [DtmfDetectorDigitGet]; the digits returned, in order. *)
Fixpoint get_digits (n : nat) (detector : DtmfDetector) : list byte * DtmfDetector :=
  match n with
  | O => ([], detector)
  | S n =>
    let '(d, detector) := DtmfDetectorDigitGet detector in
    let '(ds, detector) := get_digits n detector in
    (d :: ds, detector)
  end.

(** The operations of a detector other than [DtmfDetectorReset]. *)
Inductive detector_call : Type :=
| CallAddDigit (digit : byte)
| CallDigitGet
| CallDigitsLost
| CallGoertzelSample (sample : Z)
| CallGoertzelEnergiesDigit
| CallGetFrame (frame : Frame).

Definition run_call (detector : DtmfDetector) (call : detector_call)
  : outcome DtmfDetector :=
  match call with
  | CallAddDigit digit => DtmfDetectorAddDigit detector digit
  | CallDigitGet => Ok (snd (DtmfDetectorDigitGet detector))
  | CallDigitsLost => Ok detector
  | CallGoertzelSample sample => Ok (GoertzelSample detector sample)
  | CallGoertzelEnergiesDigit => Ok (GoertzelEnergiesDigit detector)
  | CallGetFrame frame => Ok (DtmfDetectorGetFrame detector frame)
  end.

Definition nonzero_digits (ds : list byte) : bool :=
  forallb (fun d => (0 <? Byte.to_N d)%N) ds.

(** A stand-in for [math.Cos] where a concrete one is needed to run the
    code: the first terms of the cosine series. No result below depends on
    the values it returns. *)
Definition series_GoMath : GoMath :=
  {| math_Cos := fun x => (1 - x * x / 2 + x * x * x * x / 24)%float |}.

Definition stream_8k : AudioStream :=
  {| direction := 3;
     TXDescriptor := Some {| SamplingRate := 8000 |};
     TXEventDescriptor := None |}.

(** ** Digit buffer contents and a concrete detector *)

Definition NUL : byte := "000"%byte.

(** The buffer holds [ds], oldest first, followed by NUL up to its 33 cells. *)
Definition holds (detector : DtmfDetector) (ds : list byte) : Prop :=
  buf detector = ds ++ replicate (33 - length ds) NUL
  /\ Digits detector = Z.of_nat (length ds).

Definition detector_8k : DtmfDetector :=
  Eval vm_compute in
    match @DtmfDetectorCreateEx series_GoMath (Some stream_8k) MPF_DTMF_DETECTOR_INBAND with
    | Ok (Some detector) => detector
    | _ => new_DtmfDetector
    end.

Definition digits33 : list byte :=
  Eval vm_compute in list_byte_of_string "1234567890*#ABCD1234567890*#ABCD7".


(** ** Edges, counters and well-formed contexts *)

Section Measures.
Context {Media : Type}.

(** [matrix[i][j].On > 0], false outside the matrix. *)
Definition edge (c : Context Media) (i j : nat) : bool :=
  match matrix c !! i with
  | Some row =>
    match row !! j with
    | Some item => 0 <? On item
    | None => false
    end
  | None => false
  end.

(** The number of [j < n] with [P j]. *)
Fixpoint count_upto (P : nat -> bool) (n : nat) : Z :=
  match n with
  | O => 0
  | S n => count_upto P n + (if P n then 1 else 0)
  end.

(** The number of slots [j] with [matrix[k][j]] on, and with [matrix[j][k]] on. *)
Definition edges_out (c : Context Media) (k : nat) : Z :=
  count_upto (edge c k) (Z.to_nat (Capacity c)).

Definition edges_in (c : Context Media) (k : nat) : Z :=
  count_upto (fun j => edge c j k) (Z.to_nat (Capacity c)).

(** The header has [Capacity] entries and the matrix is [Capacity] by
    [Capacity], as [ContextCreate] builds them. *)
Definition well_formed (c : Context Media) : bool :=
  (0 <=? Capacity c)
  && (Z.of_nat (length (header c)) =? Capacity c)
  && (Z.of_nat (length (matrix c)) =? Capacity c)
  && forallb (fun row => Z.of_nat (length row) =? Capacity c) (matrix c).

(** The 8-bit counters of every active slot agree with the matrix. *)
Definition slot_agrees (c : Context Media) (k : nat) : bool :=
  match header c !! k with
  | Some h =>
    match termination h with
    | Some _ =>
      (TXCount h =? wrap8 (edges_out c k)) && (RXCount h =? wrap8 (edges_in c k))
    | None => true
    end
  | None => true
  end.

Definition counters_agree (c : Context Media) : bool :=
  forallb (slot_agrees c) (seq 0 (length (header c))).

(** The termination at address [p] occupies the slot it names. *)
Definition bound (terms : list Termination) (c : Context Media) (p : addr) : bool :=
  match terms !! p with
  | Some t =>
    (0 <=? slot t) && (slot t <? Capacity c)
    && match header c !! Z.to_nat (slot t) with
       | Some h => same_termination (termination h) p
       | None => false
       end
  | None => false
  end.

(** The Prop reading of [well_formed] and [counters_agree]. *)
Definition shaped (c : Context Media) : Prop :=
  0 <= Capacity c
  /\ length (header c) = Z.to_nat (Capacity c)
  /\ length (matrix c) = Z.to_nat (Capacity c)
  /\ forall i row, matrix c !! i = Some row -> length row = Z.to_nat (Capacity c).

Definition agree (c : Context Media) : Prop :=
  forall k h, header c !! k = Some h -> termination h <> None ->
    TXCount h = wrap8 (edges_out c k) /\ RXCount h = wrap8 (edges_in c k).

(** [c'] has the shape, the capacity and the bound terminations of [c], and
    its counters agree with its matrix. *)
Definition kept (c c' : Context Media) : Prop :=
  shaped c' /\ agree c' /\ Capacity c' = Capacity c
  /\ forall k, termination <$> header c' !! k = termination <$> header c !! k.

End Measures.

Inductive association_call : Type :=
| CallAssociationAdd (termination1 termination2 : addr)
| CallAssociationRemove (termination1 termination2 : addr).

Section AssociationRuns.
Context {Media : Type} `{StreamDirections}.

Definition bound_call (terms : list Termination) (c : Context Media)
    (call : association_call) : bool :=
  match call with
  | CallAssociationAdd p q | CallAssociationRemove p q =>
    bound terms c p && bound terms c q
  end.

Definition run_association_call (terms : list Termination) (c : Context Media)
    (call : association_call) : outcome (Context Media) :=
  match call with
  | CallAssociationAdd p q => '(c, _) ← ContextAssociationAdd terms c p q; Ok c
  | CallAssociationRemove p q => '(c, _) ← ContextAssociationRemove terms c p q; Ok c
  end.

Fixpoint run_association_calls (terms : list Termination) (c : Context Media)
    (calls : list association_call) : outcome (Context Media) :=
  match calls with
  | [] => Ok c
  | call :: calls =>
    c ← run_association_call terms c call;
    run_association_calls terms c calls
  end.

End AssociationRuns.

(** ** Concrete streams, terminations and contexts *)

(** The direction flags with the values of the stream header of UniMRCP,
    which this package follows. *)
Definition unimrcp_directions : StreamDirections :=
  {| STREAM_DIRECTION_SEND := 1; STREAM_DIRECTION_RECEIVE := 2 |}.

Definition stream_with (d : Z) : AudioStream :=
  {| direction := d; TXDescriptor := None; TXEventDescriptor := None |}.

(** A termination not bound to any context. *)
Definition unbound (d : Z) : Termination :=
  {| slot := -1; audioStream := Some (stream_with d); codecManager := 0%nat |}.

(** A context of the given capacity, created in an empty factory at address
    [7], with the terminations [terms] (addresses [0, 1, ...]) bound to it
    one after the other. *)
Fixpoint bind_all {Media : Type} (st : State Media) (ps : list addr)
  : outcome (State Media) :=
  match ps with
  | [] => Ok st
  | p :: ps => '(_, st) ← ContextTerminationAdd st p; bind_all st ps
  end.

Definition created {Media : Type} (capacity : Z) (terms : list Termination)
  : outcome (State Media) :=
  '(c, f) ← ContextCreate ContextFactoryCreate 7%nat "ctx" None capacity;
  Ok {| factory := f; self := 7%nat; context := c; terminations := terms |}.

Definition populated {Media : Type} (capacity : Z) (terms : list Termination)
  : outcome (State Media) :=
  st ← created capacity terms;
  bind_all st (seq 0 (length terms)).

(** The state an outcome holds; the state of [created 0 []] after a panic. *)
Definition state_of {Media : Type} (o : outcome (State Media)) : State Media :=
  match o with
  | Ok st => st
  | Panic _ =>
    {| factory := ContextFactoryCreate; self := 7%nat;
       context := {| Element := None; Name := ""; Obj := None; Capacity := 0;
                     Count := 0; header := []; matrix := [];
                     mpfObjects := None |};
       terminations := [] |}
  end.

(** Two duplex terminations in a context of capacity 2. *)
Definition pair_state : State unit := state_of (populated 2 [unbound 3; unbound 3]).

(** One receive-only termination and 256 send-only ones in a context of
    capacity 257, and the calls that associate the first with each of the
    others. *)
Definition wide_state : State unit :=
  state_of (populated 257 (unbound 2 :: replicate 256 (unbound 1))).

Definition wide_calls : list association_call :=
  map (CallAssociationAdd 0%nat) (seq 1 256).

(** ** Observing which objects a tick processes *)

Section Observation.
Context {Media : Type}.

(** One entry of the record of a tick: the position of an object in the list
    and what its process step returned. *)
Definition step_record : Type := nat * option error.

(** The object [o], with a process step that also appends, to a record kept
    beside the media state, the object's position in the list and the error
    (or nil) its own process step returned. *)
Definition logging (position : nat) (o : Object Media)
  : Object (Media * list step_record) :=
  {| Process :=
       match Process o with
       | Some process =>
         Some (fun s : Media * list step_record =>
                 let '(m, err) := process (fst s) in
                 ((m, snd s ++ [(position, err)]), err))
       | None => None
       end |}.

Fixpoint logging_from (position : nat) (objects : ArrayHeader Media)
  : ArrayHeader (Media * list step_record) :=
  match objects with
  | [] => []
  | o :: objects => (logging position <$> o) :: logging_from (S position) objects
  end.

Definition observed (c : Context Media) : Context (Media * list step_record) :=
  {| Element := Element c; Name := Name c; Obj := Obj c;
     Capacity := Capacity c; Count := Count c;
     header := header c; matrix := matrix c;
     mpfObjects := logging_from 0 <$> mpfObjects c |}.

(** The positions of the objects that have a process step, in list order. *)
Fixpoint steps_from (position : nat) (objects : ArrayHeader Media) : list nat :=
  match objects with
  | [] => []
  | o :: objects =>
    match o with
    | Some {| Process := Some _ |} => position :: steps_from (S position) objects
    | _ => steps_from (S position) objects
    end
  end.

Definition steps (c : Context Media) : list nat :=
  match mpfObjects c with
  | Some objects => steps_from 0 objects
  | None => []
  end.

(** The record of one [ContextProcess] of [c] from media state [m]: the
    process steps that ran, in the order they ran, each with what it
    returned. *)
Definition traced (c : Context Media) (m : Media) : list step_record :=
  snd (fst (ContextProcess (observed c) (m, []))).

(** The positions of the objects processed by that tick. *)
Definition processed (c : Context Media) (m : Media) : list nat :=
  map fst (traced c m).

(** Every recorded step returned no error. *)
Definition all_passed (records : list step_record) : Prop :=
  Forall (fun r => snd r = None) records.

End Observation.

(** A context with two objects over a counter as media state: the first
    fails, the second adds one. *)
Definition failing_object : Object Z :=
  {| Process := Some (fun m => (m, Some "codec error"%string)) |}.

Definition counting_object : Object Z :=
  {| Process := Some (fun m => (m + 1, None)) |}.

Definition two_object_context : Context Z :=
  {| Element := None; Name := "ctx"; Obj := None; Capacity := 0; Count := 0;
     header := []; matrix := [];
     mpfObjects := Some [Some failing_object; Some counting_object] |}.

(** ** Audio for the detector *)

(** 204 samples (two windows of 102 at 8 kHz) of the sum of a 697 Hz and a
    1209 Hz sine, each of amplitude 8000: the tone pair of the key 1. *)
Definition tone_1 : list Z :=
  [
    0; 10669; 14684; 10290; 1633; (-4847); (-5563); (-2249); 176; (-1657);
    (-6354); (-8886); (-5116); 4158; 13175; 15450; 8885; (-2420); (-11187);
    (-12411); (-6864); 77; 3137; 1403; (-1399); (-677); 4523; 10272; 10914;
    4047; (-6927); (-14961); (-14633); (-6299); 4228; 10199; 8972; 3535;
    (-567); (-160); 2985; 4043; (-182); (-7916); (-13381); (-11425); (-1999);
    9310; 15278; 12434; 3514; (-4928); (-7736); (-4905); (-904); (-322);
    (-3670); (-6947); (-5336); 2163; 11212; 15195; 10471; (-488); (-10735);
    (-14008); (-9289); (-1154); 4235; 4098; 852; (-577); 2477; 7764; 9910;
    5187; (-4803); (-13786); (-15448); (-8368); 2788; 10798; 11310; 5792;
    (-248); (-2128); 201; 2560; 687; (-5531); (-11474); (-11479); (-3781);
    7501; 15126; 14149; 5632; (-4313); (-9338); (-7593); (-2583); 356;
    (-1141); (-4525); (-4837); 520; 8931; 14206; 11514; 1539; (-9630);
    (-14934); (-11577); (-2886); 4622; 6471; 3439; 230; 908; 5095; 8233;
    5702; (-2733); (-12040); (-15535); (-10150); 960; 10662; 13175; 8226;
    740; (-3506); (-2569); 502; 878; (-3352); (-9117); (-10795); (-5149);
    5434; 14255; 15275; 7773; (-3089); (-10257); (-10091); (-4718); 326;
    1028; (-1806); (-3631); (-600); 6543; 12561; 11889; 3440; (-8004);
    (-15123); (-13519); (-4943); 4294; 8340; 6153; 1683; (-46); 2486; 6003;
    5511; (-929); (-9890); (-14876); (-11458); (-1054); 9835; 14420; 10619;
    2291; (-4195); (-5107); (-1974); 355; (-1576); (-6506); (-9404); (-5944);
    3327; 12756; 15701; 9717; (-1402); (-10444); (-12197); (-7121); (-400);
    2665; 996; (-1796); (-1076); 4268; 10393; 11533; 5008; (-6035); (-14573)
  ].

(** One 16-bit sample as two bytes, low byte first. *)
Definition sample_bytes (s : Z) : list byte :=
  let u := s mod 65536 in
  [default "000"%byte (Byte.of_N (Z.to_N (u mod 256)));
   default "000"%byte (Byte.of_N (Z.to_N (u / 256)))].

(** An audio frame carrying the given samples. *)
Definition audio_frame (samples : list Z) : Frame :=
  {| FrameType := 1; Marker := 0; EventFrame := 0;
     CodecFrame := concat (map sample_bytes samples) |}.

Definition tone_1_frames : list Frame :=
  [audio_frame (take 102 tone_1); audio_frame (drop 102 tone_1)].

Definition silence_frames : list Frame :=
  [audio_frame (replicate 102 0); audio_frame (replicate 102 0)].

(** Frames and samples handed to a detector, in order. *)
Definition get_frames (detector : DtmfDetector) (frames : list Frame) : DtmfDetector :=
  foldl DtmfDetectorGetFrame detector frames.

Definition goertzel_samples (detector : DtmfDetector) (samples : list Z) : DtmfDetector :=
  foldl GoertzelSample detector samples.

(** ** Scenarios for the context *)

Definition with_context {Media : Type} (st : State Media) (c : Context Media)
  : State Media :=
  {| factory := factory st; self := self st; context := c;
     terminations := terminations st |}.

(** What a call returned and the state it left, when it did not panic. *)
Definition returned {A B : Type} (o : outcome (A * B)) : option A :=
  match o with
  | Ok (a, _) => Some a
  | Panic _ => None
  end.

Definition state_after {A Media : Type} (o : outcome (A * State Media))
  : State Media :=
  state_of (r ← o; Ok (snd r)).

(** [ContextAssociationAdd] on the context of a state. *)
Definition associate `{StreamDirections} {Media : Type} (st : State Media)
    (p q : addr) : outcome (option error * State Media) :=
  '(c, err) ← ContextAssociationAdd (terminations st) (context st) p q;
  Ok (err, with_context st c).

(** How many elements of the factory's list carry the context at [c]. *)
Definition linked (f : ContextFactory) (c : addr) : nat :=
  length (filter (Nat.eqb c) (map snd (elements (Link f)))).

(** A fresh context of capacity 2, and the same with the first of two duplex
    terminations bound. *)
Definition fresh_state : State unit :=
  state_of (created 2 [unbound 3; unbound 3]).

Definition half_state : State unit :=
  state_after (ContextTerminationAdd fresh_state 0%nat).

(** From [half_state]: the second termination is bound and associated with
    the first. *)
Definition associated_state : State unit :=
  state_after (@associate unimrcp_directions unit
                 (state_after (ContextTerminationAdd half_state 1%nat))
                 0%nat 1%nat).

(** From [pair_state]: the second termination is unbound again; its slot
    index is -1. *)
Definition subtracted_state : State unit :=
  state_after (ContextTerminationSubtract pair_state 1%nat).

(** Collaborators that never fail: every constructor returns an object
    whose process step does nothing. *)
Definition idle_object : Object unit :=
  {| Process := Some (fun m => (m, None)) |}.

Definition idle_collaborators : Collaborators unit :=
  {| BridgeCreate := fun _ _ _ _ => (Some idle_object, None);
     MultiplierCreate := fun _ _ _ _ _ => Some idle_object;
     MixerCreate := fun _ _ _ _ _ => Some idle_object;
     TerminationSubtract := fun _ => None |}.

(** Three duplex terminations in a context of capacity 3, each associated
    with the two others, with the topology applied. *)
Definition meshed_state : State unit :=
  let st := state_of (populated 3 [unbound 3; unbound 3; unbound 3]) in
  let st := state_after (@associate unimrcp_directions unit st 0%nat 1%nat) in
  let st := state_after (@associate unimrcp_directions unit st 0%nat 2%nat) in
  let st := state_after (@associate unimrcp_directions unit st 1%nat 2%nat) in
  match @ContextTopologyApply unit idle_collaborators (terminations st) (context st) with
  | Ok (c, _) => with_context st c
  | Panic _ => st
  end.

(** Three receive-only terminations in slots 0 to 2, each associated with
    the send-only termination of slot 3. *)
Definition fan_in_state : State unit :=
  let st := state_of (populated 4 [unbound 2; unbound 2; unbound 2; unbound 1]) in
  let st := state_after (@associate unimrcp_directions unit st 0%nat 3%nat) in
  let st := state_after (@associate unimrcp_directions unit st 1%nat 3%nat) in
  state_after (@associate unimrcp_directions unit st 2%nat 3%nat).

Definition off : MatrixItem := {| On := 0 |}.
Definition on : MatrixItem := {| On := 1 |}.

(** ** The digit buffer as a queue *)

(** The buffer of [detector] holds the digits [ds], oldest first, closed by a
    NUL; the cells after the NUL are left over from earlier digits. *)
Definition buffered (detector : DtmfDetector) (ds : list byte) : Prop :=
  exists rest,
    buf detector = ds ++ NUL :: rest
    /\ length (buf detector) = 33%nat
    /\ Digits detector = Z.of_nat (length ds)
    /\ nonzero_digits ds = true.

(** The calls that read and write the buffer. *)
Inductive buffer_call : Type :=
| BufferAdd (digit : byte)
| BufferGet
| BufferReset.

(** A call on the detector, with the digit it returns if it returns one. *)
Definition buffer_step (detector : DtmfDetector) (call : buffer_call)
  : outcome (DtmfDetector * option byte) :=
  match call with
  | BufferAdd digit =>
    detector ← DtmfDetectorAddDigit detector digit; Ok (detector, None)
  | BufferGet =>
    let '(digit, detector) := DtmfDetectorDigitGet detector in
    Ok (detector, Some digit)
  | BufferReset => Ok (DtmfDetectorReset detector, None)
  end.

Fixpoint buffer_run (detector : DtmfDetector) (calls : list buffer_call)
  : outcome (DtmfDetector * list byte) :=
  match calls with
  | [] => Ok (detector, [])
  | call :: calls =>
    '(detector, r) ← buffer_step detector call;
    '(detector, rs) ← buffer_run detector calls;
    Ok (detector, match r with Some d => d :: rs | None => rs end)
  end.

(** The same calls on a queue of at most 32 digits with a count of the
    digits turned away: the reading of the buffer a caller has. *)
Definition queue_step (q : list byte * Z) (call : buffer_call)
  : (list byte * Z) * option byte :=
  match call with
  | BufferAdd digit =>
    if (Byte.to_N digit =? 0)%N then (q, None)
    else if (length (fst q) <? 32)%nat then ((fst q ++ [digit], snd q), None)
    else ((fst q, wrap64 (snd q + 1)), None)
  | BufferGet =>
    match fst q with
    | [] => (q, Some NUL)
    | d :: ds => ((ds, snd q), Some d)
    end
  | BufferReset => (([], 0), None)
  end.

Fixpoint queue_run (q : list byte * Z) (calls : list buffer_call)
  : (list byte * Z) * list byte :=
  match calls with
  | [] => (q, [])
  | call :: calls =>
    let '(q, r) := queue_step q call in
    let '(q, rs) := queue_run q calls in
    (q, match r with Some d => d :: rs | None => rs end)
  end.

(** ** The slot a termination is bound to *)

(** The index of the first header entry without a termination. *)
Fixpoint first_free (h : list HeaderItem) : option nat :=
  match h with
  | [] => None
  | x :: h =>
    match termination x with
    | None => Some 0%nat
    | Some _ => S <$> first_free h
    end
  end.

(** The state [st] with the termination [t], found at address [term], bound
    to slot [i]. *)
Definition bound_at {Media : Type} (st : State Media) (term : addr)
    (t : Termination) (i : nat) : State Media :=
  {| factory :=
       if Count (context st) =? 0
       then {| Link := snd (PushBack (Link (factory st)) (self st));
               Head := Head (factory st) |}
       else factory st;
     self := self st;
     context :=
       with_Count
         (with_header (context st)
            (<[i := {| termination := Some term; TXCount := 0; RXCount := 0 |}]>
               (header (context st))))
         (wrap64 (Count (context st) + 1));
     terminations :=
       <[term := {| slot := Z.of_nat i; audioStream := audioStream t;
                    codecManager := codecManager t |}]> (terminations st) |}.

(** No edge of the matrix starts or ends at slot [i]. *)
Definition isolated {Media : Type} (c : Context Media) (i : nat) : bool :=
  forallb (fun j => negb (edge c i j) && negb (edge c j i))
          (seq 0 (Z.to_nat (Capacity c))).

(** What the loop returns when it binds at slot [i]. *)
Definition bind_result {Media : Type} (st : State Media) (term : addr) (i : nat) : outcome (bool * State Media) :=
  match terminations st !! term with
  | Some t => Ok (true, bound_at st term t i)
  | None => Panic nil_dereference
  end.


(** [c'] differs from [c] in matrix entries and counters only. *)
Definition same_slots {Media : Type} (c c' : Context Media) : Prop :=
  shaped c' /\ Capacity c' = Capacity c /\ Count c' = Count c
  /\ mpfObjects c' = mpfObjects c
  /\ Element c' = Element c
  /\ forall k, termination <$> header c' !! k = termination <$> header c !! k.


(** A termination with the stream direction [d], bound to slot [i]. *)
Definition in_slot (d i : Z) : Termination :=
  {| slot := i; audioStream := Some (stream_with d); codecManager := 0%nat |}.

(** A fresh context of capacity 2 beside two terminations that name slots of
    their own accord: slot 0, which is free, and slot 5, which does not
    exist. *)
Definition stale_state : State unit :=
  {| factory := factory fresh_state; self := self fresh_state;
     context := context fresh_state;
     terminations := [in_slot 3 0; in_slot 3 5] |}.

(** ** Reading the matrix for the topology *)

(** Slot [j] holds a termination. *)
Definition occupied {Media : Type} (c : Context Media) (j : nat) : bool :=
  match header c !! j with
  | Some h => match termination h with Some _ => true | None => false end
  | None => false
  end.

(** The occupied slots that slot [i] has an edge to, in ascending order, and
    the occupied slots that have an edge to slot [j]. *)
Definition targets {Media : Type} (c : Context Media) (i : nat) : list nat :=
  List.filter (fun j => occupied c j && edge c i j) (seq 0 (Z.to_nat (Capacity c))).

Definition sources {Media : Type} (c : Context Media) (j : nat) : list nat :=
  List.filter (fun i => occupied c i && edge c i j) (seq 0 (Z.to_nat (Capacity c))).

(** No slot sends to anyone and no slot receives from more than one. *)
Definition quiet {Media : Type} (c : Context Media) : bool :=
  forallb (fun h => (TXCount h <=? 0) && (RXCount h <=? 1)) (header c).

(** The stream of the termination in slot [j], nil when there is none. *)
Definition stream_at {Media : Type} (terms : list Termination) (c : Context Media)
    (j : nat) : option AudioStream :=
  h ← header c !! j;
  p ← termination h;
  t ← terms !! p;
  audioStream t.

(** Every termination a header entry points to is found among [terms]. *)
Definition housed {Media : Type} (terms : list Termination) (c : Context Media)
  : bool :=
  forallb (fun h => match termination h with
                    | Some p => match terms !! p with Some _ => true | None => false end
                    | None => true
                    end)
          (header c).

(** Every termination a header entry points to is found among [terms] and
    names the slot of that entry. *)
Definition seated {Media : Type} (terms : list Termination) (c : Context Media)
  : bool :=
  forallb (fun j =>
             match header c !! j with
             | Some h =>
               match termination h with
               | Some p =>
                 match terms !! p with
                 | Some t => slot t =? Z.of_nat j
                 | None => false
                 end
               | None => true
               end
             | None => true
             end)
          (seq 0 (length (header c))).

(** From slot [i] up, every termination a header entry points to is found
    among [terms] and names the slot of that entry. *)
Definition seated_from {Media : Type} (terms : list Termination) (c : Context Media)
    (i : nat) : Prop :=
  forall k h p, (i <= k)%nat -> header c !! k = Some h -> termination h = Some p ->
    exists t, terms !! p = Some t /\ slot t = Z.of_nat k.

(** ** The stream decoder *)

Record Decoder : Type := {
  Base : option addr;
  Source : option addr;
  Codec : option addr;
  FrameIn : Frame
}.

(** The value of the [Obj] field of a stream, an [interface{}], as far as
    the type assertion [stream.Obj.( *Decoder)] tells values apart: the nil
    interface, a [*Decoder] (which may be a nil pointer), or a value of
    another dynamic type. *)
Inductive interface_value : Type :=
| nil_interface
| decoder_pointer (d : option Decoder)
| other_value.

Definition interface_conversion : string := "interface conversion".

(** [stream.Obj.( *Decoder)] followed by the first field access through the
    result.  A stream is given by its [Obj] field, the only one the decoder
    functions read; [None] is the nil stream. *)
Definition asserted_decoder (stream : option interface_value) : outcome Decoder :=
  match stream with
  | None => Panic nil_dereference
  | Some nil_interface => Panic interface_conversion
  | Some other_value => Panic interface_conversion
  | Some (decoder_pointer None) => Panic nil_dereference
  | Some (decoder_pointer (Some d)) => Ok d
  end.

Section Decoders.
(** [AudioStreamRXOpen] of the source stream, with the codec. *)
Variable AudioStreamRXOpen : option addr -> option addr -> outcome (option error).

(** [DecoderOpen]: the first statement after the type assertion is a call
    of [DecoderOpen] itself on the same stream.  [fuel] bounds the depth of
    the calls; [None] is a call that has not returned within it. *)
Fixpoint DecoderOpen (fuel : nat) (stream : option interface_value)
    (codec : option addr) : option (outcome (option error)) :=
  match fuel with
  | O => None
  | S fuel =>
    match asserted_decoder stream with
    | Panic why => Some (Panic why)
    | Ok decoder =>
      match DecoderOpen fuel stream (Codec decoder) with
      | None => None
      | Some (Panic why) => Some (Panic why)
      | Some (Ok (Some err)) => Some (Ok (Some err))
      | Some (Ok None) => Some (AudioStreamRXOpen (Source decoder) (Codec decoder))
      end
    end
  end.

End Decoders.

(** Collaborators whose terminations never release their resources:
    [TerminationSubtract] fails for every termination. *)
Definition stubborn_collaborators : Collaborators unit :=
  {| BridgeCreate := fun _ _ _ _ => (Some idle_object, None);
     MultiplierCreate := fun _ _ _ _ _ => Some idle_object;
     MixerCreate := fun _ _ _ _ _ => Some idle_object;
     TerminationSubtract := fun _ => Some "termination is busy"%string |}.

(** * Part III: properties *)

(** ** Slices and fixed-width integers *)

Lemma index_Ok {A : Type} (s : list A) (i : Z) (a : A) :
  index s i = Ok a <-> 0 <= i /\ s !! Z.to_nat i = Some a.
Proof.
  unfold index. split.
  - destruct (i <? 0) eqn:Hi; [discriminate|].
    destruct (Z.of_nat (length s) <=? i); [discriminate|]. cbn.
    destruct (s !! Z.to_nat i); [|discriminate].
    intros [= ->]. split; [lia|reflexivity].
  - intros [Hi Hl]. pose proof (lookup_lt_Some _ _ _ Hl) as Hlt.
    replace (i <? 0) with false by lia.
    replace (Z.of_nat (length s) <=? i) with false by lia.
    cbn. now rewrite Hl.
Qed.

Lemma index_negative {A : Type} (s : list A) (i : Z) :
  i < 0 -> index s i = Panic index_out_of_range.
Proof. intros Hi. unfold index. now replace (i <? 0) with true by lia. Qed.

Lemma store_Ok {A : Type} (s : list A) (i : Z) (a : A) :
  0 <= i < Z.of_nat (length s) -> store s i a = Ok (<[Z.to_nat i := a]> s).
Proof.
  intros Hi. unfold store.
  replace (i <? 0) with false by lia.
  replace (Z.of_nat (length s) <=? i) with false by lia. reflexivity.
Qed.

Lemma wrap64_small (z : Z) : - 2 ^ 63 <= z < 2 ^ 63 -> wrap64 z = z.
Proof. intros Hz. unfold wrap64. rewrite Z.mod_small; lia. Qed.

Lemma wrap8_small (z : Z) : 0 <= z < 256 -> wrap8 z = z.
Proof. intros Hz. unfold wrap8. now rewrite Z.mod_small. Qed.

Lemma wrap8_range (z : Z) : 0 <= wrap8 z < 256.
Proof. unfold wrap8. apply Z.mod_pos_bound. lia. Qed.

(** ** The digit buffer *)

Lemma new_DtmfDetector_holds : holds new_DtmfDetector [].
Proof. split; reflexivity. Qed.

Lemma DtmfDetectorCreateEx_fresh `{GoMath} stream band detector :
  DtmfDetectorCreateEx stream band = Ok (Some detector) ->
  holds detector [] /\ LostDigits detector = 0.
Proof.
  unfold DtmfDetectorCreateEx.
  destruct stream as [stream|]; [|discriminate].
  destruct (_ <=? 0); [discriminate|].
  destruct (0 <? _).
  - destruct (TXDescriptor stream); [|discriminate].
    intros [= <-]. repeat split.
  - intros [= <-]. repeat split.
Qed.

Lemma nonzero_not_leb (d : byte) :
  (0 <? Byte.to_N d)%N = true -> (Byte.to_N d <=? 0)%N = false.
Proof. intros Hd. apply N.ltb_lt in Hd. now apply N.leb_gt. Qed.

Lemma DtmfDetectorAddDigit_room detector ds d :
  holds detector ds -> (length ds < 32)%nat -> (0 <? Byte.to_N d)%N = true ->
  exists detector',
    DtmfDetectorAddDigit detector d = Ok detector'
    /\ holds detector' (ds ++ [d])
    /\ LostDigits detector' = LostDigits detector.
Proof.
  intros [Hbuf Hn] Hlen Hd. unfold DtmfDetectorAddDigit.
  rewrite (nonzero_not_leb d Hd).
  unfold MPF_DTMFDET_BUFFER_LEN. rewrite Hn.
  replace (Z.of_nat (length ds) <? 32) with true by lia.
  assert (Hl : length (buf detector) = 33%nat).
  { rewrite Hbuf, length_app, length_replicate. lia. }
  rewrite store_Ok by lia. cbn [mbind outcome_bind].
  rewrite wrap64_small by lia.
  rewrite store_Ok by (rewrite length_insert; lia). cbn [mbind outcome_bind].
  eexists. split; [reflexivity|]. split; [|reflexivity].
  split; cbn [buf Digits with_buffer].
  - rewrite Hbuf, !Nat2Z.id.
    replace (Z.to_nat (Z.of_nat (length ds) + 1)) with (S (length ds)) by lia.
    replace (33 - length ds)%nat with (S (S (31 - length ds))) by lia.
    rewrite length_app. cbn [length replicate].
    rewrite insert_app_r_alt by lia. rewrite Nat.sub_diag. cbn [insert list_insert].
    rewrite insert_app_r_alt by lia.
    replace (S (length ds) - length ds)%nat with 1%nat by lia.
    cbn. rewrite <- app_assoc. cbn.
    replace (33 - (length ds + 1))%nat with (S (31 - length ds)) by lia.
    reflexivity.
  - rewrite length_app. cbn. lia.
Qed.

Lemma DtmfDetectorAddDigit_full detector ds d :
  holds detector ds -> length ds = 32%nat -> (0 <? Byte.to_N d)%N = true ->
  DtmfDetectorAddDigit detector d =
    Ok (with_buffer detector (buf detector) (Digits detector)
          (wrap64 (LostDigits detector + 1))).
Proof.
  intros [Hbuf Hn] Hlen Hd. unfold DtmfDetectorAddDigit.
  rewrite (nonzero_not_leb d Hd).
  unfold MPF_DTMFDET_BUFFER_LEN. rewrite Hn, Hlen. reflexivity.
Qed.

Lemma add_digits_room ds : forall detector pre,
  holds detector pre -> (length pre + length ds <= 32)%nat ->
  nonzero_digits ds = true ->
  exists detector',
    add_digits ds detector = Ok detector'
    /\ holds detector' (pre ++ ds)
    /\ LostDigits detector' = LostDigits detector.
Proof.
  induction ds as [|d ds IH]; intros detector pre Hh Hlen Hnz.
  - exists detector. rewrite app_nil_r. auto.
  - cbn in Hlen, Hnz. apply andb_prop in Hnz as [Hd Hnz].
    destruct (DtmfDetectorAddDigit_room detector pre d Hh) as (d1 & E1 & H1 & L1);
      [lia|assumption|].
    destruct (IH d1 (pre ++ [d]) H1) as (d2 & E2 & H2 & L2);
      [rewrite length_app; cbn; lia|assumption|].
    exists d2. cbn [add_digits]. rewrite E1. cbn [mbind outcome_bind].
    rewrite <- app_assoc in H2. cbn in H2. rewrite L2, L1 in *. auto.
Qed.

Lemma DtmfDetectorDigitGet_oldest detector d ds :
  holds detector (d :: ds) -> (length ds < 32)%nat -> (0 <? Byte.to_N d)%N = true ->
  exists detector',
    DtmfDetectorDigitGet detector = (d, detector')
    /\ holds detector' ds
    /\ LostDigits detector' = LostDigits detector.
Proof.
  intros [Hbuf Hn] Hlen Hd. unfold DtmfDetectorDigitGet.
  rewrite Hbuf. cbn [app lookup list_lookup default from_option]. unfold id.
  cbn [length] in *.
  rewrite Hd.
  eexists. split; [reflexivity|]. split; [|reflexivity].
  split; cbn [buf Digits with_buffer].
  - unfold go_copy. cbn [drop length]. rewrite !drop_0.
    assert (Hl : length (ds ++ replicate (33 - S (length ds)) NUL) = 32%nat).
    { rewrite length_app, length_replicate. lia. }
    rewrite Hl, take_ge by lia.
    change (drop 32 (d :: ?l)) with (drop 31 l).
    rewrite drop_app_ge by lia. rewrite drop_replicate.
    replace (33 - S (length ds) - (31 - length ds))%nat with 1%nat by lia.
    rewrite <- app_assoc. rewrite <- replicate_add.
    replace (33 - S (length ds) + 1)%nat with (33 - length ds)%nat by lia.
    reflexivity.
  - rewrite Hn. rewrite wrap64_small by lia. lia.
Qed.

Lemma DtmfDetectorDigitGet_empty detector :
  holds detector [] -> DtmfDetectorDigitGet detector = (NUL, detector).
Proof. intros [Hbuf _]. unfold DtmfDetectorDigitGet. rewrite Hbuf. reflexivity. Qed.

Lemma get_digits_all ds : forall detector,
  holds detector ds -> (length ds <= 32)%nat -> nonzero_digits ds = true ->
  exists detector',
    get_digits (length ds) detector = (ds, detector')
    /\ holds detector' []
    /\ LostDigits detector' = LostDigits detector.
Proof.
  induction ds as [|d ds IH]; intros detector Hh Hlen Hnz.
  - exists detector. auto.
  - cbn in Hlen, Hnz. apply andb_prop in Hnz as [Hd Hnz].
    destruct (DtmfDetectorDigitGet_oldest detector d ds Hh) as (d1 & E1 & H1 & L1);
      [lia|assumption|].
    destruct (IH d1 H1) as (d2 & E2 & H2 & L2); [lia|assumption|].
    exists d2. cbn [get_digits length]. rewrite E1, E2.
    rewrite L2, L1. auto.
Qed.

Lemma run_call_LostDigits detector call detector' :
  LostDigits detector < max_int64 ->
  run_call detector call = Ok detector' ->
  LostDigits detector <= LostDigits detector'.
Proof.
  intros Hmax. destruct call; cbn [run_call].
  - unfold DtmfDetectorAddDigit.
    destruct (_ <=? _)%N; [intros [= <-]; lia|].
    destruct (_ <? _).
    + destruct (store _ _ _) as [b1|]; [|discriminate]. cbn [mbind outcome_bind].
      destruct (store _ _ _) as [b2|]; [|discriminate]. cbn [mbind outcome_bind].
      intros [= <-]. cbn. lia.
    + intros [= <-]. cbn [LostDigits with_buffer].
      unfold wrap64, max_int64 in *.
      destruct (Z_lt_le_dec (LostDigits detector) (- 2 ^ 63)).
      * pose proof (Z.mod_pos_bound (LostDigits detector + 1 + 2 ^ 63) (2 ^ 64)). lia.
      * rewrite Z.mod_small; lia.
  - unfold DtmfDetectorDigitGet. destruct (_ <? _)%N; intros [= <-]; cbn; lia.
  - intros [= <-]. lia.
  - intros [= <-]. cbn. lia.
  - intros [= <-]. unfold GoertzelEnergiesDigit. lia.
  - intros [= <-]. unfold DtmfDetectorGetFrame. lia.
Qed.

Lemma add_digits_app ds1 ds2 detector :
  add_digits (ds1 ++ ds2) detector =
  (detector' ← add_digits ds1 detector; add_digits ds2 detector').
Proof.
  revert detector. induction ds1 as [|d ds1 IH]; intros detector; [reflexivity|].
  cbn [app add_digits]. destruct (DtmfDetectorAddDigit detector d); cbn; auto.
Qed.

(** C10. From a freshly created detector, 33 nonzero digits added with
    [DtmfDetectorAddDigit] leave the first 32 of them to be read back, oldest
    first, by [DtmfDetectorDigitGet], which then returns NUL, and a count of
    lost digits of exactly 1. No call other than [DtmfDetectorReset] lowers
    the count of lost digits (an [int64], taken below its largest value). *)
Theorem digit_buffer_overflow `{GoMath} (stream : option AudioStream) (band : Z)
    (fresh : DtmfDetector) (ds : list byte)
    (detector : DtmfDetector) (call : detector_call) :
  DtmfDetectorCreateEx stream band = Ok (Some fresh) ->
  length ds = 33%nat ->
  nonzero_digits ds = true ->
  LostDigits detector < max_int64 ->
  (exists full rest,
      add_digits ds fresh = Ok full
      /\ DtmfDetectorDigitsLost full = 1
      /\ get_digits 32 full = (take 32 ds, rest)
      /\ DtmfDetectorDigitGet rest = (NUL, rest)
      /\ DtmfDetectorDigitsLost rest = 1)
  /\ (forall detector',
        run_call detector call = Ok detector' ->
        DtmfDetectorDigitsLost detector <= DtmfDetectorDigitsLost detector').
Proof.
  intros Hfresh Hlen Hnz Hmax. split.
  - apply DtmfDetectorCreateEx_fresh in Hfresh as [Hh Hlost].
    pose proof (take_drop 32 ds) as Hds.
    assert (Hl32 : length (take 32 ds) = 32%nat) by (rewrite length_take; lia).
    destruct (drop 32 ds) as [|d [|? ?]] eqn:Hdrop;
      try (apply (f_equal length) in Hdrop; rewrite length_drop in Hdrop;
           cbn in Hdrop; lia).
    set (l := take 32 ds) in *.
    rewrite <- Hds in Hnz |- *. clearbody l. clear Hds Hdrop Hlen ds.
    unfold nonzero_digits in Hnz. rewrite forallb_app in Hnz.
    apply andb_prop in Hnz as [Hnz32 Hd]. cbn in Hd. rewrite andb_true_r in Hd.
    destruct (add_digits_room l fresh [] Hh) as (d1 & E1 & H1 & L1);
      [cbn; lia|assumption|]. cbn [app] in H1.
    pose proof (DtmfDetectorAddDigit_full d1 l d H1 Hl32 Hd) as E3.
    set (full := with_buffer d1 (buf d1) (Digits d1) (wrap64 (LostDigits d1 + 1))) in *.
    assert (Hfull : holds full l) by (destruct H1; split; assumption).
    destruct (get_digits_all l full Hfull) as (d4 & E4 & H4 & L4);
      [lia|assumption|]. rewrite Hl32 in E4.
    assert (Lfull : LostDigits full = 1).
    { subst full. cbn [LostDigits with_buffer]. rewrite L1, Hlost. reflexivity. }
    exists full, d4.
    repeat split.
    + rewrite add_digits_app, E1. cbn. rewrite E3. reflexivity.
    + exact Lfull.
    + exact E4.
    + apply DtmfDetectorDigitGet_empty, H4.
    + unfold DtmfDetectorDigitsLost. congruence.
  - intros detector'. apply run_call_LostDigits, Hmax.
Qed.

Lemma digit_buffer_overflow_witness :
  (exists full rest,
      add_digits digits33 detector_8k = Ok full
      /\ DtmfDetectorDigitsLost full = 1
      /\ get_digits 32 full = (take 32 digits33, rest)
      /\ DtmfDetectorDigitGet rest = (NUL, rest)
      /\ DtmfDetectorDigitsLost rest = 1)
  /\ (forall detector',
        run_call detector_8k (CallAddDigit "7"%byte) = Ok detector' ->
        DtmfDetectorDigitsLost detector_8k <= DtmfDetectorDigitsLost detector').
Proof.
  apply (@digit_buffer_overflow series_GoMath (Some stream_8k) MPF_DTMF_DETECTOR_INBAND
           detector_8k digits33 detector_8k (CallAddDigit "7"%byte)).
  - vm_compute. reflexivity.
  - reflexivity.
  - reflexivity.
  - vm_compute. reflexivity.
Defined.

(** ** Counters and matrix under [ContextAssociationAdd] and [ContextAssociationRemove] *)

Lemma count_upto_ext (P Q : nat -> bool) (n : nat) :
  (forall j, (j < n)%nat -> P j = Q j) -> count_upto P n = count_upto Q n.
Proof.
  induction n as [|n IH]; intros HPQ; [reflexivity|].
  cbn [count_upto]. rewrite IH by (intros; apply HPQ; lia).
  rewrite HPQ by lia. reflexivity.
Qed.

Lemma count_upto_update (P : nat -> bool) (j0 : nat) (b : bool) (n : nat) :
  (j0 < n)%nat ->
  count_upto (fun j => if (j =? j0)%nat then b else P j) n =
  count_upto P n + (if b then 1 else 0) - (if P j0 then 1 else 0).
Proof.
  induction n as [|n IH]; intros Hj; [lia|].
  cbn [count_upto]. destruct (Nat.eqb_spec n j0) as [->|Hne].
  - rewrite (count_upto_ext _ P).
    + destruct b, (P j0); lia.
    + intros j Hlt. destruct (Nat.eqb_spec j j0); [lia|reflexivity].
  - rewrite IH by lia. lia.
Qed.

Lemma count_upto_bounds (P : nat -> bool) (n : nat) :
  0 <= count_upto P n <= Z.of_nat n.
Proof.
  induction n as [|n IH]; cbn [count_upto]; [lia|]. destruct (P n); lia.
Qed.

Lemma wrap8_add_l (a d : Z) : wrap8 (wrap8 a + d) = wrap8 (a + d).
Proof. unfold wrap8. apply Z.add_mod_idemp_l. lia. Qed.

Section AssociationFacts.
Context {Media : Type}.
Implicit Types c : Context Media.

Lemma well_formed_shaped c : well_formed c = true <-> shaped c.
Proof.
  unfold well_formed, shaped. rewrite !andb_true_iff, forallb_forall.
  rewrite Z.leb_le, !Z.eqb_eq. split.
  - intros [[[H0 H1] H2] H3]. repeat split; try lia.
    intros i row Hrow. apply list_elem_of_lookup_2, list_elem_of_In in Hrow.
    apply H3 in Hrow. apply Z.eqb_eq in Hrow. lia.
  - intros (H0 & H1 & H2 & H3). repeat split; try lia.
    intros row Hrow. apply list_elem_of_In, list_elem_of_lookup_1 in Hrow as [i Hi].
    apply H3 in Hi. apply Z.eqb_eq. lia.
Qed.

Lemma counters_agree_agree c : counters_agree c = true <-> agree c.
Proof.
  unfold counters_agree, agree. rewrite forallb_forall. split.
  - intros Hall k h Hk Hb.
    assert (Hin : In k (seq 0 (length (header c)))).
    { apply in_seq. pose proof (lookup_lt_Some _ _ _ Hk). lia. }
    apply Hall in Hin. unfold slot_agrees in Hin. rewrite Hk in Hin.
    destruct (termination h); [|congruence].
    apply andb_prop in Hin as [Ht Hr]. apply Z.eqb_eq in Ht, Hr. auto.
  - intros Hall k _. unfold slot_agrees.
    destruct (header c !! k) as [h|] eqn:Hk; [|reflexivity].
    destruct (termination h) eqn:Ht; [|reflexivity].
    destruct (Hall k h Hk) as [-> ->]; [congruence|].
    rewrite !Z.eqb_refl. reflexivity.
Qed.

Lemma matrix_item_Ok c i j :
  shaped c -> 0 <= i < Capacity c -> 0 <= j < Capacity c ->
  exists row item,
    matrix c !! Z.to_nat i = Some row /\ row !! Z.to_nat j = Some item
    /\ matrix_item c i j = Ok item
    /\ edge c (Z.to_nat i) (Z.to_nat j) = (0 <? On item).
Proof.
  intros (H0 & H1 & H2 & H3) Hi Hj.
  destruct (lookup_lt_is_Some_2 (matrix c) (Z.to_nat i)) as [row Hrow]; [lia|].
  pose proof (H3 _ _ Hrow) as Hlen.
  destruct (lookup_lt_is_Some_2 row (Z.to_nat j)) as [item Hitem]; [lia|].
  exists row, item. repeat split; try assumption.
  - unfold matrix_item.
    rewrite (proj2 (index_Ok (matrix c) i row)) by (split; [lia|assumption]).
    cbn [mbind outcome_bind]. apply index_Ok. split; [lia|assumption].
  - unfold edge. rewrite Hrow, Hitem. reflexivity.
Qed.

Lemma header_item_Ok c i :
  shaped c -> 0 <= i < Capacity c ->
  exists h, header c !! Z.to_nat i = Some h /\ header_item c i = Ok h.
Proof.
  intros (H0 & H1 & H2 & H3) Hi.
  destruct (lookup_lt_is_Some_2 (header c) (Z.to_nat i)) as [h Hh]; [lia|].
  exists h. split; [assumption|]. apply index_Ok. split; [lia|assumption].
Qed.

(** One matrix entry written. *)
Lemma set_On_spec c i j v :
  shaped c -> 0 <= i < Capacity c -> 0 <= j < Capacity c ->
  exists c',
    set_On c i j v = Ok c'
    /\ shaped c' /\ Capacity c' = Capacity c /\ header c' = header c
    /\ forall a b, edge c' a b =
         if (a =? Z.to_nat i)%nat && (b =? Z.to_nat j)%nat then 0 <? v
         else edge c a b.
Proof.
  intros Hs Hi Hj.
  destruct (matrix_item_Ok c i j Hs Hi Hj) as (row & item & Hrow & Hitem & _ & _).
  destruct Hs as (H0 & H1 & H2 & H3). pose proof (H3 _ _ Hrow) as Hlen.
  unfold set_On.
  rewrite (proj2 (index_Ok (matrix c) i row)) by (split; [lia|assumption]).
  cbn [mbind outcome_bind]. rewrite store_Ok by lia. cbn [mbind outcome_bind].
  rewrite store_Ok by lia. cbn [mbind outcome_bind].
  eexists. split; [reflexivity|]. repeat split; cbn; try assumption.
  - rewrite length_insert. assumption.
  - intros a r Hr. destruct (Nat.eq_dec a (Z.to_nat i)) as [->|Hne].
    + rewrite list_lookup_insert_eq in Hr by lia. injection Hr as <-.
      rewrite length_insert. assumption.
    + rewrite list_lookup_insert_ne in Hr by congruence. eauto.
  - intros a b. unfold edge; cbn [matrix with_matrix].
    destruct (Nat.eqb_spec a (Z.to_nat i)) as [->|Hne]; cbn [andb].
    + rewrite list_lookup_insert_eq by lia. rewrite Hrow.
      destruct (Nat.eqb_spec b (Z.to_nat j)) as [->|Hne].
      * rewrite list_lookup_insert_eq by lia. reflexivity.
      * rewrite list_lookup_insert_ne by congruence. reflexivity.
    + rewrite list_lookup_insert_ne by congruence. reflexivity.
Qed.

Lemma shaped_with_header c h :
  shaped c -> length h = length (header c) -> shaped (with_header c h).
Proof. intros (H0 & H1 & H2 & H3) Hl. repeat split; cbn; try assumption. lia. Qed.

Lemma edge_with_header c h a b : edge (with_header c h) a b = edge c a b.
Proof. reflexivity. Qed.

(** One counter updated. *)
Lemma TXCount_add_spec c i d :
  shaped c -> 0 <= i < Capacity c ->
  exists c' h,
    TXCount_add c i d = Ok c' /\ header c !! Z.to_nat i = Some h
    /\ shaped c' /\ Capacity c' = Capacity c
    /\ header c' = <[Z.to_nat i := {| termination := termination h;
                                      TXCount := wrap8 (TXCount h + d);
                                      RXCount := RXCount h |}]> (header c)
    /\ forall a b, edge c' a b = edge c a b.
Proof.
  intros Hs Hi. destruct (header_item_Ok c i Hs Hi) as (h & Hh & Eh).
  unfold TXCount_add. unfold header_item in Eh. rewrite Eh. cbn [mbind outcome_bind].
  rewrite store_Ok by (destruct Hs as (? & ? & _); lia). cbn [mbind outcome_bind].
  eexists _, h. split; [reflexivity|]. split; [assumption|].
  split; [apply shaped_with_header; [assumption|apply length_insert]|].
  split; [reflexivity|]. split; [reflexivity|]. intros a b. reflexivity.
Qed.

Lemma RXCount_add_spec c i d :
  shaped c -> 0 <= i < Capacity c ->
  exists c' h,
    RXCount_add c i d = Ok c' /\ header c !! Z.to_nat i = Some h
    /\ shaped c' /\ Capacity c' = Capacity c
    /\ header c' = <[Z.to_nat i := {| termination := termination h;
                                      TXCount := TXCount h;
                                      RXCount := wrap8 (RXCount h + d) |}]> (header c)
    /\ forall a b, edge c' a b = edge c a b.
Proof.
  intros Hs Hi. destruct (header_item_Ok c i Hs Hi) as (h & Hh & Eh).
  unfold RXCount_add. unfold header_item in Eh. rewrite Eh. cbn [mbind outcome_bind].
  rewrite store_Ok by (destruct Hs as (? & ? & _); lia). cbn [mbind outcome_bind].
  eexists _, h. split; [reflexivity|]. split; [assumption|].
  split; [apply shaped_with_header; [assumption|apply length_insert]|].
  split; [reflexivity|]. split; [reflexivity|]. intros a b. reflexivity.
Qed.

(** The three writes that switch the edge [i -> j]: the matrix entry and the
    two counters. *)
Lemma switch_edge_agree c i j v d :
  shaped c -> agree c -> 0 <= i < Capacity c -> 0 <= j < Capacity c ->
  edge c (Z.to_nat i) (Z.to_nat j) = negb (0 <? v) ->
  d = (if 0 <? v then 1 else -1) ->
  exists c',
    (c1 ← set_On c i j v; c2 ← TXCount_add c1 i d; RXCount_add c2 j d) = Ok c'
    /\ shaped c' /\ agree c' /\ Capacity c' = Capacity c
    /\ forall k, termination <$> header c' !! k = termination <$> header c !! k.
Proof.
  intros Hs Ha Hi Hj Hedge Hd.
  destruct (set_On_spec c i j v Hs Hi Hj) as (c1 & E1 & Hs1 & Hc1 & Hh1 & He1).
  rewrite E1. cbn [mbind outcome_bind].
  destruct (TXCount_add_spec c1 i d Hs1) as (c2 & h1 & E2 & Hl1 & Hs2 & Hc2 & Hh2 & He2);
    [lia|]. rewrite E2. cbn [mbind outcome_bind].
  destruct (RXCount_add_spec c2 j d Hs2) as (c3 & h2 & E3 & Hl2 & Hs3 & Hc3 & Hh3 & He3);
    [lia|]. rewrite E3.
  assert (Hafter : forall k h0, header c !! k = Some h0 ->
            header c3 !! k =
              Some {| termination := termination h0;
                      TXCount := if (k =? Z.to_nat i)%nat
                                 then wrap8 (TXCount h0 + d) else TXCount h0;
                      RXCount := if (k =? Z.to_nat j)%nat
                                 then wrap8 (RXCount h0 + d) else RXCount h0 |}).
  { intros k h0 Hk. pose proof (lookup_lt_Some _ _ _ Hk) as Hlt.
    rewrite Hh1 in Hl1. rewrite Hh2, Hh1 in Hl2.
    rewrite Hh3, Hh2, Hh1.
    destruct (Nat.eqb_spec k (Z.to_nat j)) as [->|Hkj].
    - rewrite list_lookup_insert_eq by (rewrite length_insert; lia).
      destruct (Nat.eqb_spec (Z.to_nat j) (Z.to_nat i)) as [Hji|Hji].
      + rewrite Hji in Hl2. rewrite list_lookup_insert_eq in Hl2 by lia.
        injection Hl2 as <-. cbn. rewrite Hji in Hk. rewrite Hk in Hl1.
        injection Hl1 as <-. reflexivity.
      + rewrite list_lookup_insert_ne in Hl2 by congruence.
        rewrite Hk in Hl2. injection Hl2 as <-. reflexivity.
    - rewrite list_lookup_insert_ne by congruence.
      destruct (Nat.eqb_spec k (Z.to_nat i)) as [->|Hki].
      + rewrite list_lookup_insert_eq by lia.
        rewrite Hk in Hl1. injection Hl1 as <-. reflexivity.
      + rewrite list_lookup_insert_ne by congruence. rewrite Hk.
        destruct h0; reflexivity. }
  assert (He : forall a b, edge c3 a b =
            if (a =? Z.to_nat i)%nat && (b =? Z.to_nat j)%nat then 0 <? v
            else edge c a b).
  { intros a b. rewrite He3, He2. apply He1. }
  assert (Hcap : Capacity c3 = Capacity c) by congruence.
  assert (Hout : forall k, edges_out c3 k =
            edges_out c k + (if (k =? Z.to_nat i)%nat then d else 0)).
  { intros k. unfold edges_out. rewrite Hcap.
    destruct (Nat.eqb_spec k (Z.to_nat i)) as [->|Hki].
    - rewrite (count_upto_ext _
        (fun b => if (b =? Z.to_nat j)%nat then 0 <? v
                  else edge c (Z.to_nat i) b)).
      + rewrite count_upto_update by lia. cbn beta. rewrite Hedge, Hd.
        destruct (0 <? v); cbn [negb]; lia.
      + intros b _. rewrite He, Nat.eqb_refl. reflexivity.
    - rewrite (count_upto_ext _ (edge c k)); [lia|].
      intros b _. rewrite He. destruct (Nat.eqb_spec k (Z.to_nat i)); [lia|].
      reflexivity. }
  assert (Hin : forall k, edges_in c3 k =
            edges_in c k + (if (k =? Z.to_nat j)%nat then d else 0)).
  { intros k. unfold edges_in. rewrite Hcap.
    destruct (Nat.eqb_spec k (Z.to_nat j)) as [->|Hkj].
    - rewrite (count_upto_ext _
        (fun a => if (a =? Z.to_nat i)%nat then 0 <? v
                  else edge c a (Z.to_nat j))).
      + rewrite count_upto_update by lia. cbn beta. rewrite Hedge, Hd.
        destruct (0 <? v); cbn [negb]; lia.
      + intros a _. rewrite He, Nat.eqb_refl, andb_true_r. reflexivity.
    - rewrite (count_upto_ext _ (fun a => edge c a k)); [lia|].
      intros a _. rewrite He. destruct (Nat.eqb_spec k (Z.to_nat j)); [lia|].
      rewrite andb_false_r. reflexivity. }
  exists c3. split; [reflexivity|]. split; [assumption|].
  assert (Hlen : length (header c3) = length (header c)).
  { rewrite Hh3, Hh2, Hh1, !length_insert. reflexivity. }
  split; [|split; [assumption|]].
  - intros k h Hk Hb.
    destruct (lookup_lt_is_Some_2 (header c) k) as [h0 Hk0].
    { rewrite <- Hlen. eapply lookup_lt_Some, Hk. }
    rewrite (Hafter k h0 Hk0) in Hk. injection Hk as <-. cbn in Hb |- *.
    destruct (Ha k h0 Hk0 Hb) as [Htx Hrx].
    rewrite Hout, Hin, Htx, Hrx.
    split.
    + destruct (k =? Z.to_nat i)%nat; [apply wrap8_add_l|now rewrite Z.add_0_r].
    + destruct (k =? Z.to_nat j)%nat; [apply wrap8_add_l|now rewrite Z.add_0_r].
  - intros k. destruct (header c !! k) as [h0|] eqn:Hk0.
    + rewrite (Hafter k h0 Hk0). reflexivity.
    + assert (header c3 !! k = None) as ->; [|reflexivity].
      apply lookup_ge_None. rewrite Hlen. apply lookup_ge_None, Hk0.
Qed.

Lemma kept_refl c : shaped c -> agree c -> kept c c.
Proof. intros Hs Ha. split; [|split; [|split]]; auto. Qed.

Lemma kept_trans c1 c2 c3 : kept c1 c2 -> kept c2 c3 -> kept c1 c3.
Proof.
  intros (_ & _ & Hc & Ht) (Hs & Ha & Hc' & Ht'). split; [|split; [|split]]; auto.
  - congruence.
  - intros k. rewrite Ht', Ht. reflexivity.
Qed.

Lemma clear_edge_kept c i j :
  shaped c -> agree c -> 0 <= i < Capacity c -> 0 <= j < Capacity c ->
  exists c', clear_edge c i j = Ok c' /\ kept c c'.
Proof.
  intros Hs Ha Hi Hj.
  destruct (matrix_item_Ok c i j Hs Hi Hj) as (row & item & _ & _ & E & Hedge).
  unfold clear_edge. rewrite E. cbn [mbind outcome_bind].
  destruct (0 <? On item) eqn:Hon.
  - apply switch_edge_agree; try assumption; reflexivity.
  - exists c. split; [reflexivity|]. apply kept_refl; assumption.
Qed.

Lemma set_edge_kept `{StreamDirections} c i j t1 t2 :
  shaped c -> agree c -> 0 <= i < Capacity c -> 0 <= j < Capacity c ->
  exists c', set_edge c i j t1 t2 = Ok c' /\ kept c c'.
Proof.
  intros Hs Ha Hi Hj.
  destruct (matrix_item_Ok c i j Hs Hi Hj) as (row & item & _ & _ & E & Hedge).
  unfold set_edge. rewrite E. cbn [mbind outcome_bind].
  destruct (On item <=? 0) eqn:Hoff.
  - destruct (StreamDirectionCompatibilityCheck t1 t2).
    + apply switch_edge_agree; try assumption; [|reflexivity].
      rewrite Hedge. cbn. lia.
    + exists c. split; [reflexivity|]. apply kept_refl; assumption.
  - exists c. split; [reflexivity|]. apply kept_refl; assumption.
Qed.

Lemma bound_inv terms c p :
  bound terms c p = true ->
  exists t h,
    terms !! p = Some t /\ 0 <= slot t < Capacity c
    /\ header c !! Z.to_nat (slot t) = Some h
    /\ same_termination (termination h) p = true.
Proof.
  unfold bound. destruct (terms !! p) as [t|]; [|discriminate].
  rewrite !andb_true_iff. intros [[H0 H1] H2].
  destruct (header c !! Z.to_nat (slot t)) as [h|] eqn:Hh; [|discriminate].
  exists t, h. repeat split; try assumption; lia.
Qed.

Lemma bound_kept terms c c' p : kept c c' -> bound terms c' p = bound terms c p.
Proof.
  intros (_ & _ & Hc & Ht). unfold bound.
  destruct (terms !! p) as [t|]; [|reflexivity]. rewrite Hc.
  specialize (Ht (Z.to_nat (slot t))).
  destruct (header c' !! _), (header c !! _); cbn in Ht; try discriminate.
  - injection Ht as ->. reflexivity.
  - reflexivity.
Qed.

Lemma matched_slots terms c p q :
  shaped c -> bound terms c p = true -> bound terms c q = true ->
  exists t1 t2 h1 h2,
    deref terms p = Ok t1 /\ deref terms q = Ok t2
    /\ 0 <= slot t1 < Capacity c /\ 0 <= slot t2 < Capacity c
    /\ (Capacity c <=? slot t1) || (Capacity c <=? slot t2) = false
    /\ header_item c (slot t1) = Ok h1 /\ header_item c (slot t2) = Ok h2
    /\ negb (same_termination (termination h1) p)
        || negb (same_termination (termination h2) q) = false.
Proof.
  intros Hs Hp Hq.
  destruct (bound_inv _ _ _ Hp) as (t1 & h1 & Ep & Hr1 & Hh1 & Hm1).
  destruct (bound_inv _ _ _ Hq) as (t2 & h2 & Eq & Hr2 & Hh2 & Hm2).
  exists t1, t2, h1, h2. unfold deref. rewrite Ep, Eq, Hm1, Hm2.
  replace (Capacity c <=? slot t1) with false by lia.
  replace (Capacity c <=? slot t2) with false by lia.
  unfold header_item.
  rewrite (proj2 (index_Ok (header c) (slot t1) h1)) by (split; [lia|assumption]).
  rewrite (proj2 (index_Ok (header c) (slot t2) h2)) by (split; [lia|assumption]).
  repeat split; lia.
Qed.

Lemma ContextAssociationAdd_kept `{StreamDirections} terms c p q :
  shaped c -> agree c -> bound terms c p = true -> bound terms c q = true ->
  exists c', ContextAssociationAdd terms c p q = Ok (c', None) /\ kept c c'.
Proof.
  intros Hs Ha Hp Hq.
  destruct (matched_slots terms c p q Hs Hp Hq)
    as (t1 & t2 & h1 & h2 & E1 & E2 & Hr1 & Hr2 & Hcap & Eh1 & Eh2 & Hm).
  unfold ContextAssociationAdd. rewrite E1, E2. cbn [mbind outcome_bind].
  rewrite Hcap, Eh1, Eh2. cbn [mbind outcome_bind]. rewrite Hm.
  destruct (matrix_item_Ok c _ _ Hs Hr1 Hr2) as (? & ? & _ & _ & -> & _).
  destruct (matrix_item_Ok c _ _ Hs Hr2 Hr1) as (? & ? & _ & _ & -> & _).
  cbn [mbind outcome_bind].
  destruct (set_edge_kept c (slot t1) (slot t2) t1 t2 Hs Ha Hr1 Hr2) as (c1 & -> & K1).
  cbn [mbind outcome_bind].
  destruct K1 as (Hs1 & Ha1 & Hc1 & Ht1).
  destruct (set_edge_kept c1 (slot t2) (slot t1) t2 t1 Hs1 Ha1) as (c2 & -> & K2);
    [lia|lia|].
  cbn [mbind outcome_bind]. exists c2. split; [reflexivity|].
  eapply kept_trans; [|exact K2]. split; [|split; [|split]]; assumption.
Qed.

Lemma ContextAssociationRemove_kept `{StreamDirections} terms c p q :
  shaped c -> agree c -> bound terms c p = true -> bound terms c q = true ->
  exists c', ContextAssociationRemove terms c p q = Ok (c', None) /\ kept c c'.
Proof.
  intros Hs Ha Hp Hq.
  destruct (matched_slots terms c p q Hs Hp Hq)
    as (t1 & t2 & h1 & h2 & E1 & E2 & Hr1 & Hr2 & Hcap & Eh1 & Eh2 & Hm).
  unfold ContextAssociationRemove. rewrite E1, E2. cbn [mbind outcome_bind].
  rewrite Hcap, Eh1, Eh2. cbn [mbind outcome_bind]. rewrite Hm.
  destruct (matrix_item_Ok c _ _ Hs Hr1 Hr2) as (? & ? & _ & _ & -> & _).
  destruct (matrix_item_Ok c _ _ Hs Hr2 Hr1) as (? & ? & _ & _ & -> & _).
  cbn [mbind outcome_bind].
  destruct (clear_edge_kept c (slot t1) (slot t2) Hs Ha Hr1 Hr2) as (c1 & -> & K1).
  cbn [mbind outcome_bind].
  destruct K1 as (Hs1 & Ha1 & Hc1 & Ht1).
  destruct (clear_edge_kept c1 (slot t2) (slot t1) Hs1 Ha1) as (c2 & -> & K2);
    [lia|lia|].
  cbn [mbind outcome_bind]. exists c2. split; [reflexivity|].
  eapply kept_trans; [|exact K2]. split; [|split; [|split]]; assumption.
Qed.

Lemma run_association_calls_kept `{StreamDirections} terms calls : forall c,
  shaped c -> agree c -> forallb (bound_call terms c) calls = true ->
  exists c', run_association_calls terms c calls = Ok c' /\ kept c c'.
Proof.
  induction calls as [|call calls IH]; intros c Hs Ha Hb.
  - exists c. split; [reflexivity|]. apply kept_refl; assumption.
  - cbn [forallb] in Hb. apply andb_prop in Hb as [Hcall Hrest].
    assert (Hstep : exists c1, run_association_call terms c call = Ok c1 /\ kept c c1).
    { destruct call as [p q|p q]; cbn [bound_call] in Hcall;
        apply andb_prop in Hcall as [Hp Hq]; cbn [run_association_call].
      - destruct (ContextAssociationAdd_kept terms c p q Hs Ha Hp Hq) as (c1 & -> & K).
        exists c1. split; [reflexivity|assumption].
      - destruct (ContextAssociationRemove_kept terms c p q Hs Ha Hp Hq) as (c1 & -> & K).
        exists c1. split; [reflexivity|assumption]. }
    destruct Hstep as (c1 & E1 & K1).
    pose proof K1 as (Hs1 & Ha1 & _ & _).
    destruct (IH c1 Hs1 Ha1) as (c2 & E2 & K2).
    { apply forallb_forall. intros x Hin.
      rewrite forallb_forall in Hrest. specialize (Hrest x Hin).
      destruct x as [p q|p q]; cbn [bound_call] in *;
        rewrite !(bound_kept terms c c1) by assumption; assumption. }
    exists c2. cbn [run_association_calls]. rewrite E1. cbn [mbind outcome_bind].
    split; [assumption|]. eapply kept_trans; eassumption.
Qed.

End AssociationFacts.

(** A context as [ContextCreate] returns it: no termination, every edge off,
    and the shape and agreement the association calls rely on. *)
Lemma ContextCreate_fresh {Media : Type} (f f' : ContextFactory) (this : addr)
    (name : string) (obj : option addr) (n : Z) (c : Context Media) :
  ContextCreate f this name obj n = Ok (c, f') ->
  Capacity c = n /\ Count c = 0
  /\ well_formed c = true /\ counters_agree c = true
  /\ (forall k h, header c !! k = Some h -> termination h = None)
  /\ (forall i j, edge c i j = false).
Proof.
  unfold ContextCreate. destruct (n <? 0) eqn:Hn; [discriminate|].
  apply Z.ltb_ge in Hn. cbn. intros [= <- <-]. cbn.
  assert (Hnone : forall k h,
            replicate (Z.to_nat n) {| termination := None; TXCount := 0; RXCount := 0 |}
              !! k = Some h -> termination h = None).
  { intros k h Hk. apply lookup_replicate in Hk as [-> _]. reflexivity. }
  repeat split; try assumption.
  - unfold well_formed. cbn. rewrite !length_replicate.
    rewrite !andb_true_iff, forallb_forall, Z.leb_le, !Z.eqb_eq.
    repeat split; try lia.
    intros row Hrow. apply list_elem_of_In, elem_of_replicate in Hrow as [-> _].
    rewrite length_replicate. apply Z.eqb_eq. lia.
  - unfold counters_agree. apply forallb_forall. intros k _.
    unfold slot_agrees. cbn [header].
    destruct (replicate _ _ !! k) as [h|] eqn:Hk; [|reflexivity].
    rewrite (Hnone k h Hk). reflexivity.
  - intros i j. unfold edge. cbn [matrix].
    destruct (replicate _ _ !! i) as [row|] eqn:Hrow; [|reflexivity].
    apply lookup_replicate in Hrow as [-> _].
    destruct (replicate _ _ !! j) as [item|] eqn:Hitem; [|reflexivity].
    apply lookup_replicate in Hitem as [-> _]. reflexivity.
Qed.

(** C6 (amended). From a well-formed context whose counters agree with its
    matrix, every sequence of [ContextAssociationAdd] and
    [ContextAssociationRemove] calls on bound terminations returns normally,
    and afterwards, for every active slot [k], [TXCount] is the number of
    slots [j] with [matrix[k][j]] on and [RXCount] the number with
    [matrix[j][k]] on, both modulo 256 (the counters are [uint8]); with a
    capacity of at most 255 they are equal to those numbers. *)
Theorem association_counters_agree `{StreamDirections} {Media : Type}
    (terms : list Termination) (c : Context Media) (calls : list association_call) :
  well_formed c = true ->
  counters_agree c = true ->
  forallb (bound_call terms c) calls = true ->
  exists c',
    run_association_calls terms c calls = Ok c'
    /\ (forall k h, header c' !! k = Some h -> termination h <> None ->
          TXCount h = edges_out c' k mod 256 /\ RXCount h = edges_in c' k mod 256)
    /\ (Capacity c <= 255 ->
        forall k h, header c' !! k = Some h -> termination h <> None ->
          TXCount h = edges_out c' k /\ RXCount h = edges_in c' k).
Proof.
  intros Hwf Hagree Hbound.
  apply well_formed_shaped in Hwf. apply counters_agree_agree in Hagree.
  destruct (run_association_calls_kept terms calls c Hwf Hagree Hbound)
    as (c' & Erun & Hs & Ha & Hcap & _).
  exists c'. split; [assumption|]. split; [exact Ha|].
  intros Hsmall k h Hk Hb. destruct (Ha k h Hk Hb) as [-> ->].
  destruct Hs as (H0 & _).
  pose proof (count_upto_bounds (edge c' k) (Z.to_nat (Capacity c'))).
  pose proof (count_upto_bounds (fun j => edge c' j k) (Z.to_nat (Capacity c'))).
  unfold edges_out, edges_in. split; apply wrap8_small; lia.
Qed.

Lemma association_counters_agree_witness :
  exists c',
    @run_association_calls unit unimrcp_directions
      (terminations pair_state) (context pair_state)
      [CallAssociationAdd 0%nat 1%nat; CallAssociationRemove 1%nat 0%nat;
       CallAssociationAdd 1%nat 1%nat] = Ok c'
    /\ (forall k h, header c' !! k = Some h -> termination h <> None ->
          TXCount h = edges_out c' k mod 256 /\ RXCount h = edges_in c' k mod 256)
    /\ (Capacity (context pair_state) <= 255 ->
        forall k h, header c' !! k = Some h -> termination h <> None ->
          TXCount h = edges_out c' k /\ RXCount h = edges_in c' k).
Proof.
  apply (@association_counters_agree unimrcp_directions unit).
  - vm_compute. reflexivity.
  - vm_compute. reflexivity.
  - vm_compute. reflexivity.
Defined.

Lemma wide_state_ready :
  well_formed (context wide_state) = true
  /\ counters_agree (context wide_state) = true
  /\ forallb (bound_call (terminations wide_state) (context wide_state)) wide_calls = true.
Proof. vm_compute. repeat split. Qed.

Lemma wide_state_run :
  (c ← @run_association_calls unit unimrcp_directions
         (terminations wide_state) (context wide_state) wide_calls;
   Ok (header c !! 0%nat, edges_out c 0)) =
  Ok (Some {| termination := Some 0%nat; TXCount := 0; RXCount := 0 |}, 256).
Proof. vm_compute. reflexivity. Qed.

(** C6 as stated fails: in a context of capacity 257, after the first
    termination has been associated with the 256 others, its [TXCount] is 0
    and its matrix row has 256 entries on. *)
Lemma association_counters_wrap :
  ~ (forall (D : StreamDirections) (Media : Type) (terms : list Termination)
            (c : Context Media) (calls : list association_call),
       well_formed c = true ->
       counters_agree c = true ->
       forallb (bound_call terms c) calls = true ->
       exists c',
         run_association_calls terms c calls = Ok c'
         /\ forall k h, header c' !! k = Some h -> termination h <> None ->
              TXCount h = edges_out c' k /\ RXCount h = edges_in c' k).
Proof.
  intros Hevery.
  destruct wide_state_ready as (Hwf & Hagree & Hbound).
  destruct (Hevery unimrcp_directions unit _ _ _ Hwf Hagree Hbound) as (c' & Erun & Hexact).
  pose proof wide_state_run as Hrun. rewrite Erun in Hrun.
  cbn [mbind outcome_bind] in Hrun. injection Hrun as Hh Hout.
  destruct (Hexact 0%nat _ Hh) as [Htx _]; [discriminate|].
  cbn [TXCount] in Htx. rewrite Hout in Htx. discriminate.
Qed.

(** ** One tick of [ContextProcess] *)

Section ProcessFacts.
Context {Media : Type}.

Lemma ContextProcess_objects_logged (objects : ArrayHeader Media) :
  forall (position : nat) (m : Media) (log : list step_record),
  exists done rest,
    ContextProcess_objects (logging_from position objects) (m, log) =
      ((fst (ContextProcess_objects objects m), log ++ done),
       snd (ContextProcess_objects objects m))
    /\ steps_from position objects = map fst done ++ rest
    /\ match snd (ContextProcess_objects objects m) with
       | None => rest = [] /\ all_passed done
       | Some err =>
         exists before k, done = before ++ [(k, Some err)] /\ all_passed before
       end.
Proof.
  induction objects as [|o objects IH]; intros position m log.
  - exists [], []. cbn. rewrite app_nil_r.
    split; [reflexivity|]. split; [reflexivity|]. split; [reflexivity|constructor].
  - cbn [logging_from ContextProcess_objects steps_from].
    destruct o as [[[process|]]|]; cbn [fmap option_fmap option_map logging Process].
    + destruct (process m) as [m1 [err|]] eqn:Hp; cbn [fst snd]; rewrite Hp.
      * exists [(position, Some err)], (steps_from (S position) objects).
        cbn [fst snd map app]. split; [reflexivity|]. split; [reflexivity|].
        exists [], position. split; [reflexivity|constructor].
      * destruct (IH (S position) m1 (log ++ [(position, None)]))
          as (done & rest & E & Hs & Hr).
        exists ((position, None) :: done), rest. rewrite E, <- app_assoc, Hs.
        cbn [app map fst]. split; [reflexivity|]. split; [reflexivity|].
        destruct (snd (ContextProcess_objects objects m1)) as [err|].
        -- destruct Hr as (before & k & -> & Hb).
           exists ((position, None) :: before), k. split; [reflexivity|].
           constructor; [reflexivity|assumption].
        -- destruct Hr as [-> Hd]. split; [reflexivity|].
           constructor; [reflexivity|assumption].
    + destruct (IH (S position) m log) as (done & rest & E & Hs & Hr).
      exists done, rest. auto.
    + destruct (IH (S position) m log) as (done & rest & E & Hs & Hr).
      exists done, rest. auto.
Qed.

(** C4 (amended). One call of [ContextProcess] runs the process steps of the
    objects in list order from the first object on, each at most once, and
    stops after the first step that returns an error, which is the error
    it returns: when it returns an error, the last step that ran is the one
    that returned that error, every step before it returned none, and the
    objects after it are not processed. When it returns no error, every
    object that has a process step was processed exactly once, in list
    order, and none of the steps returned an error. Recording the steps
    does not disturb the tick. *)
Theorem ContextProcess_until_first_error (c : Context Media) (m : Media) :
  exists later,
    steps c = processed c m ++ later
    /\ match snd (ContextProcess c m) with
       | None =>
         later = [] /\ processed c m = steps c /\ all_passed (traced c m)
       | Some err =>
         exists before k,
           traced c m = before ++ [(k, Some err)] /\ all_passed before
       end
    /\ fst (fst (ContextProcess (observed c) (m, []))) = fst (ContextProcess c m)
    /\ snd (ContextProcess (observed c) (m, [])) = snd (ContextProcess c m).
Proof.
  unfold processed, traced, steps, ContextProcess.
  destruct c as [e n o cap cnt h mx [[|object objects]|]];
    cbn [mpfObjects observed fmap option_fmap option_map logging_from];
    try (exists []; cbn; repeat split; constructor; fail).
  change ((logging 0 <$> object) :: logging_from 1 objects)
    with (logging_from 0 (object :: objects)).
  destruct (ContextProcess_objects_logged (object :: objects) 0%nat m [])
    as (done & rest & E & Hs & Hr).
  rewrite E. cbn [fst snd app]. exists rest. split; [assumption|].
  split; [|auto].
  destruct (snd (ContextProcess_objects (object :: objects) m)) as [err|].
  - assumption.
  - destruct Hr as [-> Hd]. split; [reflexivity|]. split; [|assumption].
    rewrite Hs, app_nil_r. reflexivity.
Qed.

End ProcessFacts.

(** C4 as stated fails: when the first of two objects returns an error, the
    second is not processed in that tick. *)
Lemma ContextProcess_skips_after_error :
  ~ (forall (Media : Type) (c : Context Media) (m : Media),
       processed c m = steps c).
Proof.
  intros Hevery. specialize (Hevery Z two_object_context 0).
  vm_compute in Hevery. discriminate.
Qed.

(** ** Unbinding a termination *)

(** C1, what the code does. In a context of capacity 2 that holds one
    termination, a second one is bound, associated with the first and
    subtracted again: the call reports success and the count is back to 1,
    but both edges between the two slots are still on, the freed slot keeps
    [TXCount = RXCount = 1] and so does its partner. The loop of
    [ContextTerminationSubtract] skips the slots that hold a termination. *)
Theorem ContextTerminationSubtract_leaves_edges :
  let before := context half_state in
  let after := context (state_after (ContextTerminationSubtract associated_state 1%nat)) in
  returned (ContextTerminationSubtract associated_state 1%nat) = Some true
  /\ Count before = 1 /\ Count after = 1
  /\ header before = [ {| termination := Some 0%nat; TXCount := 0; RXCount := 0 |};
                       {| termination := None; TXCount := 0; RXCount := 0 |} ]
  /\ matrix before = [ [off; off]; [off; off] ]
  /\ header after = [ {| termination := Some 0%nat; TXCount := 1; RXCount := 1 |};
                      {| termination := None; TXCount := 1; RXCount := 1 |} ]
  /\ matrix after = [ [off; on]; [on; off] ].
Proof. vm_compute. repeat split. Qed.

(** The loop visits only slots without a termination: when every slot up to
    the capacity is bound, it changes nothing. *)
Lemma ContextTerminationSubtract_from_all_bound {Media : Type}
    (fuel : nat) (c : Context Media) (i : Z) : forall (j k : Z),
  0 <= j ->
  (forall n h, header c !! n = Some h -> termination h <> None) ->
  Z.of_nat (length (header c)) = Capacity c ->
  ContextTerminationSubtract_from fuel i j k c = Ok c.
Proof.
  induction fuel as [|fuel IH]; intros j k Hj Hall Hlen; [reflexivity|].
  cbn [ContextTerminationSubtract_from].
  destruct ((j <? Capacity c) && (k <? Count c)) eqn:Hcond; [|reflexivity].
  apply andb_prop in Hcond as [Hlt _]. apply Z.ltb_lt in Hlt.
  destruct (lookup_lt_is_Some_2 (header c) (Z.to_nat j)) as [h Hh]; [lia|].
  unfold header_item.
  rewrite (proj2 (index_Ok (header c) j h)) by (split; [lia|assumption]).
  cbn [mbind outcome_bind]. pose proof (Hall _ _ Hh) as Hb.
  destruct (termination h); [|congruence]. apply IH; [lia|assumption|assumption].
Qed.

(** ** Terminations that occupy no slot *)

(** C5, what the code does. A termination that was subtracted has slot index
    -1; [ContextTerminationSubtract], [ContextAssociationAdd] and
    [ContextAssociationRemove] then index the header at -1 and panic instead
    of reporting a mismatch. The guard compares the slot with the capacity
    only. *)
Theorem unbound_termination_panics :
  slot <$> terminations subtracted_state !! 1%nat = Some (-1)
  /\ ContextTerminationSubtract subtracted_state 1%nat = Panic index_out_of_range
  /\ @ContextAssociationAdd unit unimrcp_directions
       (terminations subtracted_state) (context subtracted_state) 1%nat 0%nat
     = Panic index_out_of_range
  /\ @ContextAssociationAdd unit unimrcp_directions
       (terminations subtracted_state) (context subtracted_state) 0%nat 1%nat
     = Panic index_out_of_range
  /\ @ContextAssociationRemove unit
       (terminations subtracted_state) (context subtracted_state) 1%nat 0%nat
     = Panic index_out_of_range.
Proof. vm_compute. repeat split. Qed.

(** The same for every state: a negative slot index passes the guard and
    panics at the header. *)
Lemma ContextTerminationSubtract_negative_slot {Media : Type}
    (st : State Media) (p : addr) (t : Termination) :
  terminations st !! p = Some t -> slot t < 0 -> 0 <= Capacity (context st) ->
  ContextTerminationSubtract st p = Panic index_out_of_range.
Proof.
  intros Hp Hneg Hcap. unfold ContextTerminationSubtract, deref. rewrite Hp.
  cbn [mbind outcome_bind].
  replace (Capacity (context st) <=? slot t) with false by lia.
  unfold header_item. rewrite index_negative by assumption. reflexivity.
Qed.

(** A termination whose slot index is in range but held by another
    termination, or by none, is reported and nothing changes. *)
Lemma ContextTerminationSubtract_stale_slot {Media : Type}
    (st : State Media) (p : addr) (t : Termination) (h : HeaderItem) :
  terminations st !! p = Some t -> 0 <= slot t ->
  header (context st) !! Z.to_nat (slot t) = Some h ->
  same_termination (termination h) p = false ->
  ContextTerminationSubtract st p = Ok (false, st).
Proof.
  intros Hp Hpos Hh Hne. unfold ContextTerminationSubtract, deref. rewrite Hp.
  cbn [mbind outcome_bind].
  destruct (Capacity (context st) <=? slot t); [reflexivity|].
  unfold header_item.
  rewrite (proj2 (index_Ok _ (slot t) h)) by (split; assumption).
  cbn [mbind outcome_bind]. rewrite Hne. reflexivity.
Qed.

(** ** The factory's list *)

(** C7, what the code does. [ContextCreate] links the new context into the
    factory's list; the first [ContextTerminationAdd] links it again, so
    the list holds the context twice. *)
Theorem ContextTerminationAdd_links_twice :
  linked (factory fresh_state) (self fresh_state) = 1%nat
  /\ returned (ContextTerminationAdd fresh_state 0%nat) = Some true
  /\ linked (factory (state_after (ContextTerminationAdd fresh_state 0%nat)))
            (self fresh_state) = 2%nat.
Proof. vm_compute. repeat split. Qed.

(** ** Resetting the associations *)

(** C2, what the code does. With three terminations bound, associated with
    one another and the topology applied, [ContextAssociationsReset] leaves
    the six topology objects in place, unbinds all three terminations
    (count 0, slot indices -1) and leaves the edges between slots 1 and 2 on
    with their counters at 1. Its first statement calls [ContextDestroy]
    where the comment announces the destruction of the topology. *)
Theorem ContextAssociationsReset_unbinds :
  let after := state_after (@ContextAssociationsReset unit idle_collaborators meshed_state) in
  returned (@ContextAssociationsReset unit idle_collaborators meshed_state) = Some None
  /\ Count (context meshed_state) = 3
  /\ map termination (header (context meshed_state)) = [Some 0; Some 1; Some 2]%nat
  /\ length <$> mpfObjects (context meshed_state) = Some 6%nat
  /\ Count (context after) = 0
  /\ map slot (terminations after) = [-1; -1; -1]
  /\ header (context after) = [ {| termination := None; TXCount := 0; RXCount := 0 |};
                                {| termination := None; TXCount := 1; RXCount := 1 |};
                                {| termination := None; TXCount := 1; RXCount := 1 |} ]
  /\ matrix (context after) = [ [off; off; off]; [off; off; on]; [off; on; off] ]
  /\ length <$> mpfObjects (context after) = Some 6%nat.
Proof. vm_compute. repeat split. Qed.

(** ** Applying the topology *)

(** C3, what the code does. Slots 0, 1 and 2 each have one edge, to slot 3,
    whose [RXCount] is 3. [ContextBridgeCreate] returns no object for slot 0
    (a mixer is to be created instead), [ContextTopologyApply] hands that nil
    object to [ContextObjectAdd] and returns its error: no object at all is
    created, whatever the constructors of the objects do. *)
Theorem ContextTopologyApply_fan_in_fails `{Collaborators unit} :
  map TXCount (header (context fan_in_state)) = [1; 1; 1; 0]
  /\ map RXCount (header (context fan_in_state)) = [0; 0; 0; 3]
  /\ match ContextTopologyApply (terminations fan_in_state) (context fan_in_state) with
     | Ok (c, err) => err = Some "object is nil"%string /\ mpfObjects c = Some []
     | Panic _ => False
     end.
Proof. vm_compute. repeat split. Qed.

(** ** The signal path of the detector *)

Lemma get_frames_unchanged (detector : DtmfDetector) (frames : list Frame) :
  get_frames detector frames = detector.
Proof.
  unfold get_frames. revert detector.
  induction frames as [|frame frames IH]; intros detector; [reflexivity|].
  cbn [foldl]. apply IH.
Qed.

Lemma goertzel_samples_buffer (samples : list Z) : forall detector,
  buf (goertzel_samples detector samples) = buf detector
  /\ Digits (goertzel_samples detector samples) = Digits detector.
Proof.
  unfold goertzel_samples.
  induction samples as [|s samples IH]; intros detector; [split; reflexivity|].
  cbn [foldl]. destruct (IH (GoertzelSample detector s)) as [-> ->].
  split; reflexivity.
Qed.

(** C8, what the code does. [DtmfDetectorGetFrame] and
    [GoertzelEnergiesDigit] have empty bodies: the detector created for the
    in-band band on an 8 kHz stream is the same after two windows of the
    697 Hz + 1209 Hz tone pair as before, its buffer stays empty, and
    [DtmfDetectorDigitGet] returns NUL, not the digit 1. The same holds for
    silence, and for the samples fed to [GoertzelSample] directly. *)
Theorem DtmfDetectorGetFrame_detects_nothing :
  let after := get_frames detector_8k tone_1_frames in
  Band detector_8k = MPF_DTMF_DETECTOR_INBAND
  /\ WSamples detector_8k = 102
  /\ after = detector_8k
  /\ Digits after = 0
  /\ fst (DtmfDetectorDigitGet after) = NUL
  /\ fst (DtmfDetectorDigitGet (GoertzelEnergiesDigit after)) = NUL
  /\ fst (DtmfDetectorDigitGet (goertzel_samples detector_8k tone_1)) = NUL
  /\ fst (DtmfDetectorDigitGet (get_frames detector_8k silence_frames)) = NUL.
Proof. vm_compute. repeat split. Qed.

(** [GoertzelSample] applies the recurrence to each of the eight resonators. *)
Lemma foldl_alter_seq {A : Type} (f : A -> A) (n : nat) : forall (a : nat) (l : list A) (i : nat),
  foldl (fun es k => alter f k es) l (seq a n) !! i =
  if (a <=? i)%nat && (i <? a + n)%nat then f <$> l !! i else l !! i.
Proof.
  induction n as [|n IH]; intros a l i; cbn [seq foldl].
  - destruct (a <=? i)%nat eqn:H1, (i <? a + 0)%nat eqn:H2; cbn; try reflexivity.
    apply Nat.leb_le in H1. apply Nat.ltb_lt in H2. lia.
  - rewrite IH.
    destruct (Nat.eq_dec a i) as [->|Hne].
    + replace (S i <=? i)%nat with false by (symmetry; apply Nat.leb_gt; lia).
      replace (i <=? i)%nat with true by (symmetry; apply Nat.leb_le; lia).
      replace (i <? i + S n)%nat with true by (symmetry; apply Nat.ltb_lt; lia).
      cbn [andb]. apply list_lookup_alter_eq.
    + rewrite list_lookup_alter_ne by assumption.
      destruct (Nat.leb_spec (S a) i), (Nat.leb_spec a i),
               (Nat.ltb_spec i (S a + n)), (Nat.ltb_spec i (a + S n));
        cbn [andb]; try reflexivity; lia.
Qed.

Lemma GoertzelSample_resonators (detector : DtmfDetector) (sample : Z)
    (i : nat) (e : GoertzelState) :
  (i < DTMF_FREQUENCIES)%nat -> energies detector !! i = Some e ->
  energies (GoertzelSample detector sample) !! i =
    Some {| Coef := Coef e;
            S1 := S2 e;
            S2 := (float64_of_int sample + Coef e * S2 e - S1 e)%float |}.
Proof.
  intros Hi He. cbn [energies GoertzelSample]. rewrite foldl_alter_seq.
  replace (i <? 0 + DTMF_FREQUENCIES)%nat with true by (symmetry; apply Nat.ltb_lt; lia).
  cbn [Nat.leb andb]. rewrite He. reflexivity.
Qed.

(** C9, what the code does. The square of the sample is computed in [int16]
    before it is converted: for the sample 256 the product wraps to 0, and
    the total energy of the detector stays 0 where the square is 65536. For
    every detector the call adds 0 for that sample. *)
Theorem GoertzelSample_square_wraps :
  wrap16 (256 * 256) = 0
  /\ float64_of_int (256 * 256) = 65536%float
  /\ TotalEnergy detector_8k = 0%float
  /\ TotalEnergy (GoertzelSample detector_8k 256) = 0%float
  /\ forall detector,
       TotalEnergy (GoertzelSample detector 256) = (TotalEnergy detector + 0)%float.
Proof.
  split; [reflexivity|]. split; [vm_compute; reflexivity|].
  split; [reflexivity|]. split; [vm_compute; reflexivity|].
  intros detector. reflexivity.
Qed.

(** ** The digit buffer is a bounded queue *)

Lemma nonzero_digits_app (ds1 ds2 : list byte) :
  nonzero_digits (ds1 ++ ds2) = nonzero_digits ds1 && nonzero_digits ds2.
Proof. apply forallb_app. Qed.

Lemma created_buffered `{GoMath} stream band detector :
  DtmfDetectorCreateEx stream band = Ok (Some detector) ->
  buffered detector [] /\ LostDigits detector = 0.
Proof.
  intros Hc. apply DtmfDetectorCreateEx_fresh in Hc as [[Hbuf Hn] Hlost].
  split; [|assumption]. exists (replicate 32 NUL).
  rewrite Hbuf. repeat split; assumption.
Qed.

Lemma buffer_step_queue (detector : DtmfDetector) (ds : list byte) (call : buffer_call) :
  buffered detector ds ->
  exists detector',
    buffer_step detector call =
      Ok (detector', snd (queue_step (ds, LostDigits detector) call))
    /\ buffered detector' (fst (fst (queue_step (ds, LostDigits detector) call)))
    /\ LostDigits detector' = snd (fst (queue_step (ds, LostDigits detector) call))
    /\ Band detector' = Band detector
    /\ energies detector' = energies detector.
Proof.
  intros (rest & Hbuf & Hlen & Hn & Hnz).
  assert (Hds : (length ds + S (length rest) = 33)%nat).
  { rewrite Hbuf, length_app in Hlen. cbn in Hlen. lia. }
  destruct call as [digit| |]; cbn [buffer_step queue_step fst snd].
  - unfold DtmfDetectorAddDigit.
    destruct (Byte.to_N digit =? 0)%N eqn:Hz.
    + apply N.eqb_eq in Hz. rewrite Hz. cbn [N.leb N.compare fst snd].
      exists detector. repeat split. exists rest. auto.
    + apply N.eqb_neq in Hz.
      replace (Byte.to_N digit <=? 0)%N with false by (symmetry; apply N.leb_gt; lia).
      unfold MPF_DTMFDET_BUFFER_LEN. rewrite Hn.
      destruct (Nat.ltb_spec (length ds) 32) as [Hroom|Hfull].
      * replace (Z.of_nat (length ds) <? 32) with true by lia.
        rewrite store_Ok by lia. cbn [mbind outcome_bind].
        rewrite wrap64_small by lia.
        rewrite store_Ok by (rewrite length_insert; lia). cbn [mbind outcome_bind].
        eexists. split; [reflexivity|]. cbn [LostDigits Band energies with_buffer fst snd].
        repeat split.
        destruct rest as [|r rest]; [cbn in Hds; lia|].
        exists rest. cbn [buf Digits with_buffer].
        rewrite !length_insert. split; [|split; [assumption|split]].
        -- rewrite Hbuf, Nat2Z.id.
           replace (Z.to_nat (Z.of_nat (length ds) + 1)) with (S (length ds)) by lia.
           rewrite insert_app_r_alt by lia. rewrite Nat.sub_diag. cbn [insert list_insert].
           rewrite insert_app_r_alt by lia.
           replace (S (length ds) - length ds)%nat with 1%nat by lia.
           cbn. rewrite <- app_assoc. reflexivity.
        -- rewrite length_app. cbn. lia.
        -- rewrite nonzero_digits_app, Hnz. cbn.
           replace (0 <? Byte.to_N digit)%N with true by (symmetry; apply N.ltb_lt; lia).
           reflexivity.
      * replace (Z.of_nat (length ds) <? 32) with false by lia.
        cbn [mbind outcome_bind].
        eexists. split; [reflexivity|]. cbn [LostDigits Band energies with_buffer fst snd].
        repeat split. exists rest. cbn [buf Digits with_buffer]. auto.
  - unfold DtmfDetectorDigitGet. rewrite Hbuf.
    destruct ds as [|d ds].
    + cbn. exists detector. repeat split. exists rest. auto.
    + cbn [app lookup list_lookup default from_option]. unfold id.
      cbn [nonzero_digits forallb] in Hnz. apply andb_prop in Hnz as [Hd Hnz].
      rewrite Hd. eexists. split; [reflexivity|].
      cbn [LostDigits Band energies with_buffer fst snd]. repeat split.
      cbn [length] in *.
      exists (rest ++ drop 32 (d :: ds ++ NUL :: rest)). cbn [buf Digits with_buffer].
      assert (Hl : length (ds ++ NUL :: rest) = 32%nat).
      { rewrite length_app. cbn. lia. }
      unfold go_copy. cbn [drop length]. rewrite !drop_0, Hl.
      rewrite take_ge by lia. split; [|split; [|split]].
      * rewrite <- app_assoc. reflexivity.
      * rewrite length_app, Hl. change (drop 32 (d :: ?l)) with (drop 31 l).
        rewrite length_drop, Hl. reflexivity.
      * rewrite Hn. rewrite wrap64_small by lia. lia.
      * assumption.
  - eexists. split; [reflexivity|].
    cbn [LostDigits Band energies DtmfDetectorReset fst snd]. repeat split.
    clear Hbuf. destruct (buf detector) as [|b0 tl] eqn:Hb0; [cbn in Hlen; lia|].
    exists tl. cbn [buf Digits DtmfDetectorReset]. rewrite Hb0.
    cbn in *. auto.
Qed.

Lemma buffer_run_queue (calls : list buffer_call) : forall detector ds,
  buffered detector ds ->
  exists detector',
    buffer_run detector calls =
      Ok (detector', snd (queue_run (ds, LostDigits detector) calls))
    /\ buffered detector' (fst (fst (queue_run (ds, LostDigits detector) calls)))
    /\ LostDigits detector' = snd (fst (queue_run (ds, LostDigits detector) calls))
    /\ Band detector' = Band detector
    /\ energies detector' = energies detector.
Proof.
  induction calls as [|call calls IH]; intros detector ds Hb.
  - exists detector. cbn. auto.
  - destruct (buffer_step_queue detector ds call Hb) as (d1 & E1 & B1 & L1 & Bd1 & En1).
    cbn [buffer_run queue_run]. rewrite E1. cbn [mbind outcome_bind].
    destruct (queue_step (ds, LostDigits detector) call) as [[q1 lost1] r1] eqn:Eq.
    cbn [fst snd] in *.
    destruct (IH d1 q1 B1) as (d2 & E2 & B2 & L2 & Bd2 & En2).
    rewrite E2. cbn [mbind outcome_bind]. rewrite L1 in *.
    destruct (queue_run (q1, lost1) calls) as [[q2 lost2] rs] eqn:Eq2.
    cbn [fst snd] in *. exists d2. repeat split; try assumption; congruence.
Qed.

(** X1. Whatever the order of [DtmfDetectorAddDigit], [DtmfDetectorDigitGet]
    and [DtmfDetectorReset] calls on a created detector, no call panics and
    the digits returned, the count of lost digits and the digits still
    buffered are those of a first-in first-out queue of at most 32 digits:
    a NUL digit is ignored, a digit offered to a full queue is counted as
    lost, reading an empty queue returns NUL, and a reset empties the queue
    and clears the count. The band and the resonators are not touched. *)
Theorem digit_buffer_is_queue `{GoMath} (stream : option AudioStream) (band : Z)
    (detector : DtmfDetector) (calls : list buffer_call) :
  DtmfDetectorCreateEx stream band = Ok (Some detector) ->
  exists detector',
    buffer_run detector calls = Ok (detector', snd (queue_run ([], 0) calls))
    /\ buffered detector' (fst (fst (queue_run ([], 0) calls)))
    /\ DtmfDetectorDigitsLost detector' = snd (fst (queue_run ([], 0) calls))
    /\ Band detector' = Band detector
    /\ energies detector' = energies detector.
Proof.
  intros Hc. apply created_buffered in Hc as [Hb Hlost].
  rewrite <- Hlost. apply buffer_run_queue, Hb.
Qed.

Lemma digit_buffer_is_queue_witness :
  let calls := [BufferAdd "5"; BufferAdd NUL; BufferAdd "#"; BufferGet;
                BufferReset; BufferGet; BufferAdd "9"; BufferGet]%byte in
  exists detector',
    buffer_run detector_8k calls = Ok (detector', snd (queue_run ([], 0) calls))
    /\ buffered detector' (fst (fst (queue_run ([], 0) calls)))
    /\ DtmfDetectorDigitsLost detector' = snd (fst (queue_run ([], 0) calls))
    /\ Band detector' = Band detector_8k
    /\ energies detector' = energies detector_8k.
Proof.
  apply (@digit_buffer_is_queue series_GoMath (Some stream_8k) MPF_DTMF_DETECTOR_INBAND).
  vm_compute. reflexivity.
Defined.

(** ** Creating a detector *)

Lemma land_without_inband (band : Z) :
  Z.land (Z.land band (Z.lnot MPF_DTMF_DETECTOR_INBAND)) MPF_DTMF_DETECTOR_INBAND = 0.
Proof.
  rewrite <- Z.land_assoc.
  change (Z.land (Z.lnot MPF_DTMF_DETECTOR_INBAND) MPF_DTMF_DETECTOR_INBAND) with 0.
  apply Z.land_0_r.
Qed.

(** X2. [DtmfDetectorCreateEx] panics on a nil stream, whose
    [TXDescriptor] it reads first, whatever the band. On a stream that is
    not nil it does not panic and never dereferences a missing descriptor.
    For a stream without a TX descriptor the in-band bit is dropped: asking
    for the in-band band alone gives no detector, and a detector that is
    returned has the in-band bit clear and no analysis window. For a stream
    with a TX descriptor every positive band gives a detector with that
    band, and with the in-band bit set its window is 102 samples per
    8000 Hz of sampling rate. A returned detector has a positive band, an
    empty buffer and no lost digit. *)
Theorem DtmfDetectorCreateEx_band `{GoMath} (stream : AudioStream) (band : Z) :
  DtmfDetectorCreateEx None band = Panic nil_dereference
  /\ exists r,
    DtmfDetectorCreateEx (Some stream) band = Ok r
    /\ (TXDescriptor stream = None ->
        (band = MPF_DTMF_DETECTOR_INBAND -> r = None)
        /\ forall detector, r = Some detector ->
             Band detector = Z.land band (Z.lnot MPF_DTMF_DETECTOR_INBAND)
             /\ Z.land (Band detector) MPF_DTMF_DETECTOR_INBAND = 0
             /\ WSamples detector = 0)
    /\ (forall descriptor, TXDescriptor stream = Some descriptor -> 0 < band ->
        exists detector,
          r = Some detector /\ Band detector = band
          /\ (0 < Z.land band MPF_DTMF_DETECTOR_INBAND ->
              WSamples detector =
                wrap64 (GOERTZEL_SAMPLES_8K * Z.quot (SamplingRate descriptor) 8000)))
    /\ (forall detector, r = Some detector ->
          0 < Band detector /\ buffered detector [] /\ LostDigits detector = 0).
Proof.
  split; [reflexivity|].
  assert (Hlast : forall r, DtmfDetectorCreateEx (Some stream) band = Ok r ->
            forall detector, r = Some detector ->
              0 < Band detector /\ buffered detector [] /\ LostDigits detector = 0).
  { intros r Hr detector ->. destruct (created_buffered _ _ _ Hr) as [Hb Hl].
    repeat split; try assumption.
    unfold DtmfDetectorCreateEx in Hr.
    destruct (_ <=? 0) eqn:Hpos; [discriminate|]. apply Z.leb_gt in Hpos.
    destruct (0 <? _); [destruct (TXDescriptor stream); [|discriminate]|];
      injection Hr as <-; exact Hpos. }
  destruct (TXDescriptor stream) as [descriptor|] eqn:Htx.
  - assert (E : exists r, DtmfDetectorCreateEx (Some stream) band = Ok r
              /\ (0 < band -> exists detector,
                    r = Some detector /\ Band detector = band
                    /\ (0 < Z.land band MPF_DTMF_DETECTOR_INBAND ->
                        WSamples detector =
                          wrap64 (GOERTZEL_SAMPLES_8K
                                  * Z.quot (SamplingRate descriptor) 8000)))).
    { unfold DtmfDetectorCreateEx. rewrite Htx.
      destruct (band <=? 0) eqn:Hpos.
      - exists None. split; [reflexivity|]. apply Z.leb_le in Hpos. lia.
      - destruct (0 <? Z.land band MPF_DTMF_DETECTOR_INBAND) eqn:Hin.
        + eexists. split; [reflexivity|]. intros _. eexists.
          split; [reflexivity|]. split; reflexivity.
        + eexists. split; [reflexivity|]. intros _. eexists.
          split; [reflexivity|]. split; [reflexivity|].
          apply Z.ltb_ge in Hin. lia. }
    destruct E as (r & E & Hsome). exists r. split; [assumption|].
    split; [discriminate|]. split; [|apply Hlast, E].
    intros d [= <-]. exact Hsome.
  - assert (E : exists r, DtmfDetectorCreateEx (Some stream) band = Ok r
              /\ (band = MPF_DTMF_DETECTOR_INBAND -> r = None)
              /\ forall detector, r = Some detector ->
                   Band detector = Z.land band (Z.lnot MPF_DTMF_DETECTOR_INBAND)
                   /\ Z.land (Band detector) MPF_DTMF_DETECTOR_INBAND = 0
                   /\ WSamples detector = 0).
    { unfold DtmfDetectorCreateEx. rewrite Htx.
      destruct (Z.land band (Z.lnot MPF_DTMF_DETECTOR_INBAND) <=? 0) eqn:Hpos.
      - exists None. split; [reflexivity|]. split; [reflexivity|intros ? [=]].
      - rewrite land_without_inband. cbn [Z.ltb Z.compare].
        eexists. split; [reflexivity|]. split.
        + intros ->. discriminate.
        + intros d [= <-]. cbn [Band WSamples new_DtmfDetector].
          split; [reflexivity|]. split; [apply land_without_inband|reflexivity]. }
    destruct E as (r & E & Hnone & Hsome). exists r. split; [assumption|].
    split; [intros _; split; assumption|]. split; [discriminate|apply Hlast, E].
Qed.

(** ** The Goertzel bank *)

(** X3. One [GoertzelSample] replaces the two taps of each of the eight
    resonators by the later tap and by [sample + Coef * later - earlier],
    keeps every coefficient, and leaves the band, the digit buffer and its
    two counters alone. *)
Theorem GoertzelSample_bank (detector : DtmfDetector) (sample : Z) :
  length (energies detector) = DTMF_FREQUENCIES ->
  energies (GoertzelSample detector sample) =
    map (fun e => {| Coef := Coef e;
                     S1 := S2 e;
                     S2 := (float64_of_int sample + Coef e * S2 e - S1 e)%float |})
        (energies detector)
  /\ Band (GoertzelSample detector sample) = Band detector
  /\ buf (GoertzelSample detector sample) = buf detector
  /\ Digits (GoertzelSample detector sample) = Digits detector
  /\ LostDigits (GoertzelSample detector sample) = LostDigits detector.
Proof.
  intros Hlen. split; [|repeat split].
  cbn [energies GoertzelSample]. apply list_eq. intros i.
  rewrite foldl_alter_seq, list_lookup_fmap. cbn [Nat.leb andb].
  destruct (Nat.ltb_spec i (0 + DTMF_FREQUENCIES)) as [Hi|Hi]; [reflexivity|].
  rewrite (proj2 (lookup_ge_None (energies detector) i)) by lia. reflexivity.
Qed.

Lemma GoertzelSample_bank_witness :
  energies (GoertzelSample detector_8k 1000) =
    map (fun e => {| Coef := Coef e;
                     S1 := S2 e;
                     S2 := (float64_of_int 1000 + Coef e * S2 e - S1 e)%float |})
        (energies detector_8k)
  /\ Band (GoertzelSample detector_8k 1000) = Band detector_8k
  /\ buf (GoertzelSample detector_8k 1000) = buf detector_8k
  /\ Digits (GoertzelSample detector_8k 1000) = Digits detector_8k
  /\ LostDigits (GoertzelSample detector_8k 1000) = LostDigits detector_8k.
Proof. apply (GoertzelSample_bank detector_8k 1000). reflexivity. Defined.

(** X4. For a sample of magnitude at most 181 the [int16] product does not
    wrap, and [GoertzelSample] adds the square of the sample, converted to
    [float64], to the total energy. *)
Theorem GoertzelSample_energy_small (detector : DtmfDetector) (sample : Z) :
  -181 <= sample <= 181 ->
  TotalEnergy (GoertzelSample detector sample) =
    (TotalEnergy detector + float64_of_int (sample * sample))%float.
Proof.
  intros Hs. cbn [TotalEnergy GoertzelSample]. f_equal. f_equal.
  unfold wrap16. rewrite Z.mod_small by nia. lia.
Qed.

Lemma GoertzelSample_energy_small_witness :
  TotalEnergy (GoertzelSample detector_8k (-181)) =
    (TotalEnergy detector_8k + float64_of_int (-181 * -181))%float.
Proof. apply (GoertzelSample_energy_small detector_8k (-181)). lia. Defined.

(** ** Creating a context and binding terminations *)

Lemma linked_PushBack (f : ContextFactory) (this : addr) :
  linked {| Link := snd (PushBack (Link f) this); Head := Head f |} this
  = S (linked f this).
Proof.
  unfold linked, PushBack. cbn [Link snd elements].
  rewrite map_app, filter_app, length_app. cbn [map snd].
  rewrite filter_cons_True by (rewrite Nat.eqb_refl; exact I).
  rewrite filter_nil. cbn [length]. rewrite Nat.add_1_r. reflexivity.
Qed.

(** X5. [ContextCreate] panics on a negative capacity. For any other
    capacity, zero included, it returns a context of that capacity with no
    termination, every counter 0, every edge off and an empty object list,
    appended to the factory's list exactly once and holding that element. *)
Theorem ContextCreate_empty {Media : Type} (f : ContextFactory) (this : addr)
    (name : string) (obj : option addr) (n : Z) :
  (n < 0 -> exists why, @ContextCreate Media f this name obj n = Panic why)
  /\ (0 <= n ->
      exists c f' e,
        @ContextCreate Media f this name obj n = Ok (c, f')
        /\ Capacity c = n /\ Count c = 0 /\ Name c = name /\ Obj c = obj
        /\ well_formed c = true
        /\ (forall k h, header c !! k = Some h ->
              h = {| termination := None; TXCount := 0; RXCount := 0 |})
        /\ (forall i j, edge c i j = false)
        /\ mpfObjects c = Some []
        /\ Element c = Some e
        /\ elements (Link f') = elements (Link f) ++ [(e, this)]
        /\ linked f' this = S (linked f this)).
Proof.
  split.
  - intros Hn. unfold ContextCreate. replace (n <? 0) with true by lia. eauto.
  - intros Hn.
    assert (E : exists c f', @ContextCreate Media f this name obj n = Ok (c, f'))
      by (unfold ContextCreate; replace (n <? 0) with false by lia; cbn; eauto).
    destruct E as (c & f' & E).
    destruct (ContextCreate_fresh _ _ _ _ _ _ _ E) as (Hcap & Hcnt & Hwf & _ & _ & Hoff).
    pose proof E as E0.
    unfold ContextCreate in E. replace (n <? 0) with false in E by lia.
    cbn in E. injection E as <- <-.
    eexists _, _, _. split; [exact E0|]. cbn [Capacity Count Name Obj mpfObjects Element].
    repeat split; try assumption.
    + cbn [header]. intros k h Hk. apply lookup_replicate in Hk as [-> _]. reflexivity.
    + apply (linked_PushBack f this).
Qed.

Lemma first_free_Some (h : list HeaderItem) : forall i,
  first_free h = Some i ->
  (forall k x, (k < i)%nat -> h !! k = Some x -> termination x <> None)
  /\ exists x, h !! i = Some x /\ termination x = None.
Proof.
  induction h as [|y h IH]; intros i; cbn [first_free]; [discriminate|].
  destruct (termination y) as [p|] eqn:Hy.
  - destruct (first_free h) as [d|]; [|discriminate]. cbn. intros [= <-].
    destruct (IH d eq_refl) as [Hlow Hat]. split.
    + intros [|k] x Hk Hx; cbn in Hx.
      * injection Hx as <-. congruence.
      * apply (Hlow k); [lia|assumption].
    + exact Hat.
  - intros [= <-]. split; [intros k x Hk; lia|]. exists y. auto.
Qed.

Lemma first_free_None (h : list HeaderItem) :
  first_free h = None ->
  forall k x, h !! k = Some x -> termination x <> None.
Proof.
  induction h as [|y h IH]; cbn [first_free]; [intros _ k x [=]|].
  destruct (termination y) as [p|] eqn:Hy; [|discriminate].
  destruct (first_free h) as [d|]; [discriminate|]. intros _ [|k] x Hx; cbn in Hx.
  - injection Hx as <-. congruence.
  - apply (IH eq_refl k). assumption.
Qed.

Section BindingFacts.
Context {Media : Type}.
Implicit Types st : State Media.

Lemma ContextTerminationAdd_from_first_free st (term : addr) : forall fuel j,
  Z.of_nat (length (header (context st))) = Capacity (context st) ->
  (fuel + j = length (header (context st)))%nat ->
  ContextTerminationAdd_from fuel (Z.of_nat j) st term =
    match first_free (drop j (header (context st))) with
    | Some d => bind_result st term (j + d)
    | None => Ok (false, st)
    end.
Proof.
  induction fuel as [|fuel IH]; intros j Hlen Hfuel.
  - cbn in Hfuel. subst j. rewrite drop_all. reflexivity.
  - cbn [ContextTerminationAdd_from].
    replace (Z.of_nat j <? Capacity (context st)) with true by lia.
    destruct (lookup_lt_is_Some_2 (header (context st)) j) as [h Hh]; [lia|].
    unfold header_item.
    rewrite (proj2 (index_Ok (header (context st)) (Z.of_nat j) h))
      by (rewrite Nat2Z.id; split; [lia|assumption]).
    cbn [mbind outcome_bind].
    rewrite (drop_S _ _ _ Hh). cbn [first_free].
    destruct (termination h) as [p|].
    + replace (Z.of_nat j + 1) with (Z.of_nat (S j)) by lia.
      rewrite IH by (try assumption; lia).
      destruct (first_free (drop (S j) (header (context st)))) as [d|]; cbn; [|reflexivity].
      replace (j + S d)%nat with (S j + d)%nat by lia. reflexivity.
    + rewrite store_Ok by lia. cbn [mbind outcome_bind].
      unfold bind_result, deref. rewrite Nat.add_0_r, Nat2Z.id.
      destruct (terminations st !! term); reflexivity.
Qed.

End BindingFacts.

(** X6. [ContextTerminationAdd] binds the termination to the first slot
    whose header entry holds no termination: that entry receives the
    termination with both counters 0, the termination receives the slot
    index, the count grows by one, the context is pushed onto the factory's
    list when the count was 0, and the other header entries and the matrix
    are as before. When every slot is taken, in particular when the
    capacity is 0, it returns false and changes nothing. *)
Theorem ContextTerminationAdd_first_free {Media : Type} (st : State Media)
    (term : addr) (t : Termination) :
  Z.of_nat (length (header (context st))) = Capacity (context st) ->
  terminations st !! term = Some t ->
  ContextTerminationAdd st term =
    match first_free (header (context st)) with
    | Some i => Ok (true, bound_at st term t i)
    | None => Ok (false, st)
    end
  /\ (forall i, first_free (header (context st)) = Some i ->
        (forall k x, (k < i)%nat -> header (context st) !! k = Some x ->
                     termination x <> None)
        /\ exists x, header (context st) !! i = Some x /\ termination x = None)
  /\ (first_free (header (context st)) = None ->
        forall k x, header (context st) !! k = Some x -> termination x <> None).
Proof.
  intros Hlen Hterm. split; [|split].
  - unfold ContextTerminationAdd.
    change 0 with (Z.of_nat 0).
    rewrite ContextTerminationAdd_from_first_free by (try assumption; lia).
    rewrite drop_0. unfold bind_result. rewrite Hterm. reflexivity.
  - apply first_free_Some.
  - apply first_free_None.
Qed.

Lemma ContextTerminationAdd_first_free_witness :
  ContextTerminationAdd half_state 1%nat =
    match first_free (header (context half_state)) with
    | Some i => Ok (true, bound_at half_state 1%nat (unbound 3) i)
    | None => Ok (false, half_state)
    end
  /\ (forall i, first_free (header (context half_state)) = Some i ->
        (forall k x, (k < i)%nat -> header (context half_state) !! k = Some x ->
                     termination x <> None)
        /\ exists x, header (context half_state) !! i = Some x /\ termination x = None)
  /\ (first_free (header (context half_state)) = None ->
        forall k x, header (context half_state) !! k = Some x -> termination x <> None).
Proof.
  apply (ContextTerminationAdd_first_free half_state 1%nat (unbound 3)).
  - reflexivity.
  - reflexivity.
Defined.

(** ** Binding and unbinding in turn *)

Section RoundTrip.
Context {Media : Type}.
Implicit Types (c : Context Media) (st : State Media).

Lemma isolated_off c (i : nat) :
  isolated c i = true ->
  forall n, (n < Z.to_nat (Capacity c))%nat ->
    edge c i n = false /\ edge c n i = false.
Proof.
  unfold isolated. rewrite forallb_forall. intros Hall n Hn.
  assert (Hin : In n (seq 0 (Z.to_nat (Capacity c)))) by (apply in_seq; lia).
  apply Hall in Hin. apply andb_prop in Hin as [H1 H2].
  apply negb_true_iff in H1, H2. auto.
Qed.

Lemma clear_edge_off c (i j : Z) :
  shaped c -> 0 <= i < Capacity c -> 0 <= j < Capacity c ->
  edge c (Z.to_nat i) (Z.to_nat j) = false ->
  clear_edge c i j = Ok c.
Proof.
  intros Hs Hi Hj Hoff.
  destruct (matrix_item_Ok c i j Hs Hi Hj) as (row & item & _ & _ & E & Hedge).
  unfold clear_edge. rewrite E. cbn [mbind outcome_bind].
  rewrite <- Hedge, Hoff. reflexivity.
Qed.

Lemma ContextTerminationSubtract_from_isolated c (i : Z) : forall fuel j k,
  shaped c -> 0 <= i < Capacity c -> 0 <= j ->
  (forall n, (n < Z.to_nat (Capacity c))%nat ->
     edge c (Z.to_nat i) n = false /\ edge c n (Z.to_nat i) = false) ->
  ContextTerminationSubtract_from fuel i j k c = Ok c.
Proof.
  induction fuel as [|fuel IH]; intros j k Hs Hi Hj Hoff; [reflexivity|].
  cbn [ContextTerminationSubtract_from].
  destruct ((j <? Capacity c) && (k <? Count c)) eqn:Hcond; [|reflexivity].
  apply andb_prop in Hcond as [Hlt _]. apply Z.ltb_lt in Hlt.
  destruct (header_item_Ok c j Hs) as (h & _ & ->); [lia|].
  cbn [mbind outcome_bind].
  destruct (termination h).
  - apply IH; try assumption; lia.
  - destruct (Hoff (Z.to_nat j)) as [H1 H2]; [lia|].
    rewrite (clear_edge_off c i j) by (try assumption; lia).
    cbn [mbind outcome_bind].
    rewrite (clear_edge_off c j i) by (try assumption; lia).
    cbn [mbind outcome_bind]. apply IH; try assumption; lia.
Qed.

End RoundTrip.

(** X7. A termination bound by [ContextTerminationAdd] and subtracted again
    before any association is made leaves the context as it was: when the
    slot it takes has both counters 0 and no edge, and the count is within
    [int64], both calls return true, the termination carries the slot index
    in between and -1 afterwards, and the count, the header, the matrix and
    the object list are those from before the binding. *)
Theorem bind_then_subtract {Media : Type} (st : State Media) (term : addr)
    (t : Termination) (i : nat) :
  well_formed (context st) = true ->
  terminations st !! term = Some t ->
  first_free (header (context st)) = Some i ->
  header (context st) !! i = Some {| termination := None; TXCount := 0; RXCount := 0 |} ->
  isolated (context st) i = true ->
  0 <= Count (context st) < max_int64 ->
  Element (context st) <> None ->
  exists st1 st2,
    ContextTerminationAdd st term = Ok (true, st1)
    /\ slot <$> terminations st1 !! term = Some (Z.of_nat i)
    /\ ContextTerminationSubtract st1 term = Ok (true, st2)
    /\ context st2 = context st
    /\ slot <$> terminations st2 !! term = Some (-1).
Proof.
  intros Hwf Hterm Hfree Hzero Hiso Hcount Helem.
  apply well_formed_shaped in Hwf. pose proof Hwf as (Hcap & Hlen & Hmlen & Hrows).
  pose proof (lookup_lt_Some _ _ _ Hzero) as Hi.
  pose proof (lookup_lt_Some _ _ _ Hterm) as Hp.
  pose proof (isolated_off _ _ Hiso) as Hoff.
  assert (Hadd : ContextTerminationAdd st term = Ok (true, bound_at st term t i)).
  { unfold ContextTerminationAdd. change 0 with (Z.of_nat 0).
    rewrite ContextTerminationAdd_from_first_free by lia.
    rewrite drop_0, Hfree. unfold bind_result. rewrite Hterm. reflexivity. }
  assert (Hsub : exists st2,
            ContextTerminationSubtract (bound_at st term t i) term = Ok (true, st2)
            /\ context st2 = context st
            /\ slot <$> terminations st2 !! term = Some (-1)).
  { destruct (Element (context st)) as [e|] eqn:He; [clear Helem|congruence].
    unfold max_int64 in Hcount.
    unfold ContextTerminationSubtract, deref. cbn [terminations bound_at].
    rewrite list_lookup_insert_eq by assumption. cbn [mbind outcome_bind slot].
    set (c1 := context (bound_at st term t i)).
    assert (Hc1 : Capacity c1 = Capacity (context st)) by reflexivity.
    assert (Hs1 : shaped c1).
    { repeat split; try assumption. cbn. rewrite length_insert. assumption. }
    assert (Hn1 : Count c1 = Count (context st) + 1).
    { subst c1. cbn. apply wrap64_small. lia. }
    assert (Hh1 : header c1 !! i =
                  Some {| termination := Some term; TXCount := 0; RXCount := 0 |}).
    { subst c1. cbn. apply list_lookup_insert_eq. assumption. }
    assert (Hl1 : length (header c1) = length (header (context st))).
    { subst c1. cbn. apply length_insert. }
    assert (Hoff1 : forall n, (n < Z.to_nat (Capacity c1))%nat ->
                      edge c1 i n = false /\ edge c1 n i = false) by exact Hoff.
    assert (Hback :
      with_Count
        (with_header c1
           (<[i := {| termination := None; TXCount := 0; RXCount := 0 |}]> (header c1)))
        (Count (context st)) = context st).
    { subst c1. cbn [context bound_at header with_header with_Count].
      rewrite list_insert_insert_eq, (list_insert_id _ _ _ Hzero).
      destruct (context st); reflexivity. }
    clearbody c1.
    replace (Capacity c1 <=? Z.of_nat i) with false by lia.
    unfold header_item.
    rewrite (proj2 (index_Ok (header c1) (Z.of_nat i) _))
      by (rewrite Nat2Z.id; split; [lia|exact Hh1]).
    cbn [mbind outcome_bind termination same_termination]. rewrite Nat.eqb_refl.
    cbn [negb].
    rewrite ContextTerminationSubtract_from_isolated; try assumption; try lia.
    2:{ rewrite Nat2Z.id. exact Hoff1. }
    cbn [mbind outcome_bind]. unfold set_termination.
    rewrite (proj2 (index_Ok (header c1) (Z.of_nat i) _))
      by (rewrite Nat2Z.id; split; [lia|exact Hh1]).
    cbn [mbind outcome_bind].
    rewrite store_Ok by lia.
    cbn [mbind outcome_bind TXCount RXCount Count with_Count with_header].
    rewrite Hn1, Nat2Z.id.
    replace (Count (context st) + 1 - 1) with (Count (context st)) by lia.
    rewrite wrap64_small by lia.
    rewrite Hback, He.
    destruct (Count (context st) <=? 0); cbn [Remove mbind outcome_bind];
      (eexists; split; [reflexivity|]; cbn [context terminations];
       split; [reflexivity|];
       rewrite list_lookup_insert_eq by (rewrite length_insert; assumption);
       reflexivity). }
  destruct Hsub as (st2 & Hsub & Hctx & Hslot).
  exists (bound_at st term t i), st2. repeat split; try assumption.
  cbn [terminations bound_at]. rewrite list_lookup_insert_eq by assumption. reflexivity.
Qed.

Lemma bind_then_subtract_witness :
  exists st1 st2,
    ContextTerminationAdd half_state 1%nat = Ok (true, st1)
    /\ slot <$> terminations st1 !! 1%nat = Some (Z.of_nat 1)
    /\ ContextTerminationSubtract st1 1%nat = Ok (true, st2)
    /\ context st2 = context half_state
    /\ slot <$> terminations st2 !! 1%nat = Some (-1).
Proof.
  apply (bind_then_subtract half_state 1%nat (unbound 3) 1%nat).
  - reflexivity.
  - reflexivity.
  - reflexivity.
  - reflexivity.
  - reflexivity.
  - vm_compute. split; [discriminate|reflexivity].
  - vm_compute. discriminate.
Defined.

(** ** The edges after an association call *)

Section EdgeFacts.
Context {Media : Type}.
Implicit Types c : Context Media.

Lemma same_slots_refl c : shaped c -> same_slots c c.
Proof. intros Hs. split; [assumption|]. repeat split. Qed.

Lemma same_slots_trans c1 c2 c3 :
  same_slots c1 c2 -> same_slots c2 c3 -> same_slots c1 c3.
Proof.
  intros (_ & Hc & Hn & Ho & Hl & Ht) (Hs & Hc' & Hn' & Ho' & Hl' & Ht').
  split; [assumption|]. repeat split; try congruence.
  all: intros k; rewrite Ht', Ht; reflexivity.
Qed.

Lemma insert_keeps_termination (l : list HeaderItem) (i : nat) (h h' : HeaderItem) :
  l !! i = Some h -> termination h' = termination h ->
  forall k, termination <$> (<[i := h']> l) !! k = termination <$> l !! k.
Proof.
  intros Hi Ht k. destruct (Nat.eq_dec k i) as [->|Hne].
  - rewrite list_lookup_insert_eq by (eapply lookup_lt_Some, Hi).
    rewrite Hi. cbn. congruence.
  - rewrite list_lookup_insert_ne by congruence. reflexivity.
Qed.

Lemma set_On_frame c i j v c' :
  set_On c i j v = Ok c' -> Count c' = Count c /\ mpfObjects c' = mpfObjects c /\ Element c' = Element c.
Proof.
  unfold set_On. destruct (index (matrix c) i) as [row|]; [|discriminate]. cbn.
  destruct (store row j _) as [row'|]; [|discriminate]. cbn.
  destruct (store (matrix c) i row') as [m'|]; [|discriminate]. cbn.
  intros [= <-]. repeat split.
Qed.

Lemma TXCount_add_frame c i d c' :
  TXCount_add c i d = Ok c' -> Count c' = Count c /\ mpfObjects c' = mpfObjects c /\ Element c' = Element c.
Proof.
  unfold TXCount_add. destruct (index (header c) i) as [h|]; [|discriminate]. cbn.
  destruct (store (header c) i _) as [h'|]; [|discriminate]. cbn.
  intros [= <-]. repeat split.
Qed.

Lemma RXCount_add_frame c i d c' :
  RXCount_add c i d = Ok c' -> Count c' = Count c /\ mpfObjects c' = mpfObjects c /\ Element c' = Element c.
Proof.
  unfold RXCount_add. destruct (index (header c) i) as [h|]; [|discriminate]. cbn.
  destruct (store (header c) i _) as [h'|]; [|discriminate]. cbn.
  intros [= <-]. repeat split.
Qed.

(** The three writes of an edge switch, without any assumption on the
    counters. *)
Lemma switch_edge_slots c i j v d :
  shaped c -> 0 <= i < Capacity c -> 0 <= j < Capacity c ->
  exists c',
    (c1 ← set_On c i j v; c2 ← TXCount_add c1 i d; RXCount_add c2 j d) = Ok c'
    /\ same_slots c c'
    /\ forall a b, edge c' a b =
         if (a =? Z.to_nat i)%nat && (b =? Z.to_nat j)%nat then 0 <? v
         else edge c a b.
Proof.
  intros Hs Hi Hj.
  destruct (set_On_spec c i j v Hs Hi Hj) as (c1 & E1 & Hs1 & Hc1 & Hh1 & He1).
  rewrite E1. cbn [mbind outcome_bind].
  destruct (TXCount_add_spec c1 i d Hs1) as (c2 & h1 & E2 & Hl1 & Hs2 & Hc2 & Hh2 & He2);
    [lia|]. rewrite E2. cbn [mbind outcome_bind].
  destruct (RXCount_add_spec c2 j d Hs2) as (c3 & h2 & E3 & Hl2 & Hs3 & Hc3 & Hh3 & He3);
    [lia|]. rewrite E3.
  destruct (set_On_frame _ _ _ _ _ E1) as (Hn1 & Ho1 & Hl1').
  destruct (TXCount_add_frame _ _ _ _ E2) as (Hn2 & Ho2 & Hl2').
  destruct (RXCount_add_frame _ _ _ _ E3) as (Hn3 & Ho3 & Hl3').
  exists c3. split; [reflexivity|]. split.
  - split; [assumption|]. split; [congruence|]. split; [congruence|].
    split; [congruence|]. split; [congruence|].
    intros k. rewrite Hh3.
    erewrite insert_keeps_termination; [|exact Hl2|reflexivity].
    rewrite Hh2. erewrite insert_keeps_termination; [|exact Hl1|reflexivity].
    rewrite Hh1. reflexivity.
  - intros a b. rewrite He3, He2. apply He1.
Qed.

Lemma set_edge_slots `{StreamDirections} c i j t1 t2 :
  shaped c -> 0 <= i < Capacity c -> 0 <= j < Capacity c ->
  exists c',
    set_edge c i j t1 t2 = Ok c' /\ same_slots c c'
    /\ forall a b, edge c' a b =
         edge c a b
         || ((a =? Z.to_nat i)%nat && (b =? Z.to_nat j)%nat
             && StreamDirectionCompatibilityCheck t1 t2).
Proof.
  intros Hs Hi Hj.
  destruct (matrix_item_Ok c i j Hs Hi Hj) as (row & item & _ & _ & E & Hedge).
  unfold set_edge. rewrite E. cbn [mbind outcome_bind].
  destruct (On item <=? 0) eqn:Hoff.
  - destruct (StreamDirectionCompatibilityCheck t1 t2).
    + destruct (switch_edge_slots c i j 1 1 Hs Hi Hj) as (c' & E' & Hsame & He).
      exists c'. split; [assumption|]. split; [assumption|].
      intros a b. rewrite He.
      destruct ((a =? Z.to_nat i)%nat && (b =? Z.to_nat j)%nat); cbn.
      * rewrite orb_true_r. reflexivity.
      * rewrite orb_false_r. reflexivity.
    + exists c. split; [reflexivity|]. split; [apply same_slots_refl, Hs|].
      intros a b. rewrite andb_false_r, orb_false_r. reflexivity.
  - exists c. split; [reflexivity|]. split; [apply same_slots_refl, Hs|].
    intros a b.
    destruct (Nat.eqb_spec a (Z.to_nat i)) as [->|]; [|now rewrite orb_false_r].
    destruct (Nat.eqb_spec b (Z.to_nat j)) as [->|]; [|now rewrite orb_false_r].
    rewrite Hedge. replace (0 <? On item) with true by lia. reflexivity.
Qed.

Lemma clear_edge_slots c i j :
  shaped c -> 0 <= i < Capacity c -> 0 <= j < Capacity c ->
  exists c',
    clear_edge c i j = Ok c' /\ same_slots c c'
    /\ forall a b, edge c' a b =
         edge c a b && negb ((a =? Z.to_nat i)%nat && (b =? Z.to_nat j)%nat).
Proof.
  intros Hs Hi Hj.
  destruct (matrix_item_Ok c i j Hs Hi Hj) as (row & item & _ & _ & E & Hedge).
  unfold clear_edge. rewrite E. cbn [mbind outcome_bind].
  destruct (0 <? On item) eqn:Hon.
  - destruct (switch_edge_slots c i j 0 (-1) Hs Hi Hj) as (c' & E' & Hsame & He).
    exists c'. split; [assumption|]. split; [assumption|].
    intros a b. rewrite He.
    destruct ((a =? Z.to_nat i)%nat && (b =? Z.to_nat j)%nat); cbn.
    + rewrite andb_false_r. reflexivity.
    + rewrite andb_true_r. reflexivity.
  - exists c. split; [reflexivity|]. split; [apply same_slots_refl, Hs|].
    intros a b.
    destruct (Nat.eqb_spec a (Z.to_nat i)) as [->|]; [|now rewrite andb_true_r].
    destruct (Nat.eqb_spec b (Z.to_nat j)) as [->|]; [|now rewrite andb_true_r].
    rewrite Hedge. reflexivity.
Qed.

End EdgeFacts.

Section AssociationEdges.
Context {Media : Type} `{StreamDirections}.
Implicit Types c : Context Media.

Lemma matched_slots_of terms c p q t1 t2 :
  shaped c -> terms !! p = Some t1 -> terms !! q = Some t2 ->
  bound terms c p = true -> bound terms c q = true ->
  deref terms p = Ok t1 /\ deref terms q = Ok t2
  /\ 0 <= slot t1 < Capacity c /\ 0 <= slot t2 < Capacity c
  /\ (Capacity c <=? slot t1) || (Capacity c <=? slot t2) = false
  /\ exists h1 h2,
       header_item c (slot t1) = Ok h1 /\ header_item c (slot t2) = Ok h2
       /\ negb (same_termination (termination h1) p)
          || negb (same_termination (termination h2) q) = false.
Proof.
  intros Hs Hp Hq Bp Bq.
  destruct (matched_slots terms c p q Hs Bp Bq)
    as (t1' & t2' & h1 & h2 & E1 & E2 & Hr1 & Hr2 & Hcap & Eh1 & Eh2 & Hm).
  unfold deref in *. rewrite Hp in *. rewrite Hq in *.
  injection E1 as <-. injection E2 as <-. eauto 12.
Qed.

End AssociationEdges.

(** X8. On two terminations bound to a well-formed context,
    [ContextAssociationAdd] returns no error and switches on the edge from
    the first slot to the second exactly when
    [StreamDirectionCompatibilityCheck] accepts the pair in that order, and
    the reverse edge exactly when it accepts the pair in the other order;
    an edge that was on stays on, and no other edge, no binding, the count
    and the object list do not change. *)
Theorem ContextAssociationAdd_edges `{StreamDirections} {Media : Type}
    (terms : list Termination) (c : Context Media) (p q : addr)
    (t1 t2 : Termination) :
  well_formed c = true ->
  terms !! p = Some t1 -> terms !! q = Some t2 ->
  bound terms c p = true -> bound terms c q = true ->
  exists c',
    ContextAssociationAdd terms c p q = Ok (c', None)
    /\ (forall a b, edge c' a b =
          edge c a b
          || ((a =? Z.to_nat (slot t1))%nat && (b =? Z.to_nat (slot t2))%nat
              && StreamDirectionCompatibilityCheck t1 t2)
          || ((a =? Z.to_nat (slot t2))%nat && (b =? Z.to_nat (slot t1))%nat
              && StreamDirectionCompatibilityCheck t2 t1))
    /\ Capacity c' = Capacity c /\ Count c' = Count c
    /\ mpfObjects c' = mpfObjects c
    /\ forall k, termination <$> header c' !! k = termination <$> header c !! k.
Proof.
  intros Hwf Hp Hq Bp Bq. apply well_formed_shaped in Hwf.
  destruct (matched_slots_of terms c p q t1 t2 Hwf Hp Hq Bp Bq)
    as (E1 & E2 & Hr1 & Hr2 & Hcap & h1 & h2 & Eh1 & Eh2 & Hm).
  unfold ContextAssociationAdd. rewrite E1, E2. cbn [mbind outcome_bind].
  rewrite Hcap, Eh1, Eh2. cbn [mbind outcome_bind]. rewrite Hm.
  destruct (matrix_item_Ok c _ _ Hwf Hr1 Hr2) as (? & ? & _ & _ & -> & _).
  destruct (matrix_item_Ok c _ _ Hwf Hr2 Hr1) as (? & ? & _ & _ & -> & _).
  cbn [mbind outcome_bind].
  destruct (set_edge_slots c (slot t1) (slot t2) t1 t2 Hwf Hr1 Hr2)
    as (c1 & -> & S1 & He1).
  cbn [mbind outcome_bind]. pose proof S1 as (Hs1 & Hc1 & _).
  destruct (set_edge_slots c1 (slot t2) (slot t1) t2 t1 Hs1)
    as (c2 & -> & S2 & He2); [lia|lia|].
  cbn [mbind outcome_bind]. exists c2. split; [reflexivity|].
  pose proof (same_slots_trans _ _ _ S1 S2) as (_ & Hc & Hn & Ho & _ & Ht).
  split; [|auto]. intros a b. rewrite He2, He1. reflexivity.
Qed.

Lemma ContextAssociationAdd_edges_witness :
  exists c',
    @ContextAssociationAdd unit unimrcp_directions
      (terminations pair_state) (context pair_state) 0%nat 1%nat = Ok (c', None)
    /\ (forall a b, edge c' a b =
          edge (context pair_state) a b
          || ((a =? Z.to_nat (slot (in_slot 3 0)))%nat
              && (b =? Z.to_nat (slot (in_slot 3 1)))%nat
              && @StreamDirectionCompatibilityCheck unimrcp_directions
                   (in_slot 3 0) (in_slot 3 1))
          || ((a =? Z.to_nat (slot (in_slot 3 1)))%nat
              && (b =? Z.to_nat (slot (in_slot 3 0)))%nat
              && @StreamDirectionCompatibilityCheck unimrcp_directions
                   (in_slot 3 1) (in_slot 3 0)))
    /\ Capacity c' = Capacity (context pair_state)
    /\ Count c' = Count (context pair_state)
    /\ mpfObjects c' = mpfObjects (context pair_state)
    /\ forall k, termination <$> header c' !! k
                 = termination <$> header (context pair_state) !! k.
Proof.
  apply (@ContextAssociationAdd_edges unimrcp_directions unit).
  - vm_compute. reflexivity.
  - reflexivity.
  - reflexivity.
  - vm_compute. reflexivity.
  - vm_compute. reflexivity.
Defined.

(** X9. On two terminations bound to a well-formed context,
    [ContextAssociationRemove] returns no error and switches off the two
    edges between their slots; an edge that was off stays off, and no
    other edge, no binding, the count and the object list do not change. *)
Theorem ContextAssociationRemove_edges {Media : Type}
    (terms : list Termination) (c : Context Media) (p q : addr)
    (t1 t2 : Termination) :
  well_formed c = true ->
  terms !! p = Some t1 -> terms !! q = Some t2 ->
  bound terms c p = true -> bound terms c q = true ->
  exists c',
    ContextAssociationRemove terms c p q = Ok (c', None)
    /\ (forall a b, edge c' a b =
          edge c a b
          && negb ((a =? Z.to_nat (slot t1))%nat && (b =? Z.to_nat (slot t2))%nat)
          && negb ((a =? Z.to_nat (slot t2))%nat && (b =? Z.to_nat (slot t1))%nat))
    /\ Capacity c' = Capacity c /\ Count c' = Count c
    /\ mpfObjects c' = mpfObjects c
    /\ forall k, termination <$> header c' !! k = termination <$> header c !! k.
Proof.
  intros Hwf Hp Hq Bp Bq. apply well_formed_shaped in Hwf.
  destruct (matched_slots_of terms c p q t1 t2 Hwf Hp Hq Bp Bq)
    as (E1 & E2 & Hr1 & Hr2 & Hcap & h1 & h2 & Eh1 & Eh2 & Hm).
  unfold ContextAssociationRemove. rewrite E1, E2. cbn [mbind outcome_bind].
  rewrite Hcap, Eh1, Eh2. cbn [mbind outcome_bind]. rewrite Hm.
  destruct (matrix_item_Ok c _ _ Hwf Hr1 Hr2) as (? & ? & _ & _ & -> & _).
  destruct (matrix_item_Ok c _ _ Hwf Hr2 Hr1) as (? & ? & _ & _ & -> & _).
  cbn [mbind outcome_bind].
  destruct (clear_edge_slots c (slot t1) (slot t2) Hwf Hr1 Hr2)
    as (c1 & -> & S1 & He1).
  cbn [mbind outcome_bind]. pose proof S1 as (Hs1 & Hc1 & _).
  destruct (clear_edge_slots c1 (slot t2) (slot t1) Hs1)
    as (c2 & -> & S2 & He2); [lia|lia|].
  cbn [mbind outcome_bind]. exists c2. split; [reflexivity|].
  pose proof (same_slots_trans _ _ _ S1 S2) as (_ & Hc & Hn & Ho & _ & Ht).
  split; [|auto]. intros a b. rewrite He2, He1. reflexivity.
Qed.

Lemma ContextAssociationRemove_edges_witness :
  exists c',
    @ContextAssociationRemove unit
      (terminations associated_state) (context associated_state) 0%nat 1%nat
    = Ok (c', None)
    /\ (forall a b, edge c' a b =
          edge (context associated_state) a b
          && negb ((a =? Z.to_nat (slot (in_slot 3 0)))%nat
                   && (b =? Z.to_nat (slot (in_slot 3 1)))%nat)
          && negb ((a =? Z.to_nat (slot (in_slot 3 1)))%nat
                   && (b =? Z.to_nat (slot (in_slot 3 0)))%nat))
    /\ Capacity c' = Capacity (context associated_state)
    /\ Count c' = Count (context associated_state)
    /\ mpfObjects c' = mpfObjects (context associated_state)
    /\ forall k, termination <$> header c' !! k
                 = termination <$> header (context associated_state) !! k.
Proof.
  apply (@ContextAssociationRemove_edges unit).
  - vm_compute. reflexivity.
  - reflexivity.
  - reflexivity.
  - vm_compute. reflexivity.
  - vm_compute. reflexivity.
Defined.

(** ** Terminations that do not hold the slot they name *)

Lemma bound_in_range {Media : Type} (terms : list Termination) (c : Context Media)
    (p : addr) (t : Termination) (h : HeaderItem) :
  terms !! p = Some t -> 0 <= slot t < Capacity c ->
  header c !! Z.to_nat (slot t) = Some h ->
  bound terms c p = same_termination (termination h) p.
Proof.
  intros Hp Hr Hh. unfold bound. rewrite Hp, Hh.
  replace (0 <=? slot t) with true by lia.
  replace (slot t <? Capacity c) with true by lia. reflexivity.
Qed.

(** X10. When one of the two terminations does not hold the slot it names,
    the slot index being any number from 0 up, [ContextAssociationAdd] and
    [ContextAssociationRemove] return an error, the same for both, and the
    context they return is the one they were given. *)
Theorem association_mismatch_reported `{StreamDirections} {Media : Type}
    (terms : list Termination) (c : Context Media) (p q : addr)
    (t1 t2 : Termination) :
  Z.of_nat (length (header c)) = Capacity c ->
  terms !! p = Some t1 -> terms !! q = Some t2 ->
  0 <= slot t1 -> 0 <= slot t2 ->
  bound terms c p && bound terms c q = false ->
  exists err,
    ContextAssociationAdd terms c p q = Ok (c, Some err)
    /\ ContextAssociationRemove terms c p q = Ok (c, Some err).
Proof.
  intros Hlen Hp Hq H1 H2 Hb.
  unfold ContextAssociationAdd, ContextAssociationRemove, deref.
  rewrite Hp, Hq. cbn [mbind outcome_bind].
  destruct ((Capacity c <=? slot t1) || (Capacity c <=? slot t2)) eqn:Hcap.
  - eexists. split; reflexivity.
  - apply orb_false_iff in Hcap as [Hc1 Hc2].
    apply Z.leb_gt in Hc1, Hc2.
    destruct (lookup_lt_is_Some_2 (header c) (Z.to_nat (slot t1))) as [h1 Hh1]; [lia|].
    destruct (lookup_lt_is_Some_2 (header c) (Z.to_nat (slot t2))) as [h2 Hh2]; [lia|].
    unfold header_item.
    rewrite (proj2 (index_Ok (header c) (slot t1) h1)) by (split; [lia|assumption]).
    rewrite (proj2 (index_Ok (header c) (slot t2) h2)) by (split; [lia|assumption]).
    cbn [mbind outcome_bind].
    rewrite (bound_in_range terms c p t1 h1), (bound_in_range terms c q t2 h2) in Hb
      by (try assumption; lia).
    replace (negb (same_termination (termination h1) p)
             || negb (same_termination (termination h2) q)) with true
      by (destruct (same_termination _ p), (same_termination _ q); cbn in *; congruence).
    eexists. split; reflexivity.
Qed.

Lemma association_mismatch_reported_witness :
  exists err,
    @ContextAssociationAdd unit unimrcp_directions
      (terminations stale_state) (context stale_state) 0%nat 1%nat
    = Ok (context stale_state, Some err)
    /\ @ContextAssociationRemove unit
         (terminations stale_state) (context stale_state) 0%nat 1%nat
       = Ok (context stale_state, Some err).
Proof.
  apply (@association_mismatch_reported unimrcp_directions unit
           (terminations stale_state) (context stale_state) 0%nat 1%nat
           (in_slot 3 0) (in_slot 3 5)).
  - reflexivity.
  - reflexivity.
  - reflexivity.
  - vm_compute. discriminate.
  - vm_compute. discriminate.
  - vm_compute. reflexivity.
Defined.

(** X11. [ContextTerminationSubtract] of a termination that does not hold
    the slot it names, the slot index being any number from 0 up, returns
    false and changes neither the context, nor the factory, nor the
    termination. *)
Theorem ContextTerminationSubtract_mismatch {Media : Type} (st : State Media)
    (p : addr) (t : Termination) :
  Z.of_nat (length (header (context st))) = Capacity (context st) ->
  terminations st !! p = Some t ->
  0 <= slot t ->
  bound (terminations st) (context st) p = false ->
  ContextTerminationSubtract st p = Ok (false, st).
Proof.
  intros Hlen Hp Hpos Hb.
  destruct (Z.leb_spec (Capacity (context st)) (slot t)) as [Hout|Hin].
  - unfold ContextTerminationSubtract, deref. rewrite Hp. cbn [mbind outcome_bind].
    replace (Capacity (context st) <=? slot t) with true by lia. reflexivity.
  - destruct (lookup_lt_is_Some_2 (header (context st)) (Z.to_nat (slot t)))
      as [h Hh]; [lia|].
    apply (ContextTerminationSubtract_stale_slot st p t h); try assumption.
    rewrite <- Hb. symmetry. apply (bound_in_range _ _ p t h); try assumption. lia.
Qed.

Lemma ContextTerminationSubtract_mismatch_witness :
  ContextTerminationSubtract stale_state 0%nat = Ok (false, stale_state).
Proof.
  apply (ContextTerminationSubtract_mismatch stale_state 0%nat (in_slot 3 0)).
  - reflexivity.
  - reflexivity.
  - vm_compute. discriminate.
  - vm_compute. reflexivity.
Defined.

(** ** The topology of a context without fan-out or fan-in *)

Section TopologyFacts.
Context {Media : Type} `{Collaborators Media}.
Implicit Types c : Context Media.

Lemma ContextTopologyApply_from_quiet terms c : forall fuel i k,
  Z.of_nat (length (header c)) = Capacity c -> 0 <= i ->
  quiet c = true ->
  ContextTopologyApply_from fuel terms i k c = Ok (c, None).
Proof.
  induction fuel as [|fuel IH]; intros i k Hlen Hi Hq; [reflexivity|].
  cbn [ContextTopologyApply_from].
  destruct ((i <? Capacity c) && (k <? Count c)) eqn:Hcond; [|reflexivity].
  apply andb_prop in Hcond as [Hlt _]. apply Z.ltb_lt in Hlt.
  destruct (lookup_lt_is_Some_2 (header c) (Z.to_nat i)) as [h Hh]; [lia|].
  unfold header_item.
  rewrite (proj2 (index_Ok (header c) i h)) by (split; [lia|assumption]).
  cbn [mbind outcome_bind].
  destruct (termination h); [|apply IH; try assumption; lia].
  pose proof Hq as Hall. unfold quiet in Hall. rewrite forallb_forall in Hall.
  assert (Hin : In h (header c))
    by (apply list_elem_of_In, list_elem_of_lookup; eauto).
  apply Hall, andb_prop in Hin as [Htx Hrx].
  apply Z.leb_le in Htx, Hrx.
  replace (0 <? TXCount h) with false by lia.
  replace (1 <? RXCount h) with false by lia.
  cbn [mbind outcome_bind]. apply IH; try assumption; lia.
Qed.

End TopologyFacts.

(** X12. In a context where no slot has a positive [TXCount] and no slot an
    [RXCount] above 1, [ContextTopologyApply] returns no error and builds
    nothing, whatever the constructors of the objects would do: the objects
    the context held are dropped, the object list is empty, and the header,
    the matrix and the count are as before. *)
Theorem ContextTopologyApply_quiet `{Collaborators Media}
    (terms : list Termination) (c : Context Media) :
  Z.of_nat (length (header c)) = Capacity c ->
  quiet c = true ->
  exists c',
    ContextTopologyApply terms c = Ok (c', None)
    /\ mpfObjects c' = (fun _ => []) <$> mpfObjects c
    /\ header c' = header c /\ matrix c' = matrix c
    /\ Count c' = Count c /\ Capacity c' = Capacity c.
Proof.
  intros Hlen Hq. unfold ContextTopologyApply.
  assert (Hd : mpfObjects (ContextTopologyDestroy c) = (fun _ => []) <$> mpfObjects c
               /\ header (ContextTopologyDestroy c) = header c
               /\ matrix (ContextTopologyDestroy c) = matrix c
               /\ Count (ContextTopologyDestroy c) = Count c
               /\ Capacity (ContextTopologyDestroy c) = Capacity c).
  { unfold ContextTopologyDestroy. destruct (mpfObjects c) as [[|o objects]|] eqn:Ho;
      cbn; rewrite ?Ho; repeat split. }
  destruct Hd as (Ho & Hh & Hm & Hn & Hc).
  exists (ContextTopologyDestroy c). split; [|repeat split; assumption].
  rewrite Hc. apply ContextTopologyApply_from_quiet; [congruence|lia|].
  unfold quiet. rewrite Hh. exact Hq.
Qed.

Lemma ContextTopologyApply_quiet_witness :
  exists c',
    @ContextTopologyApply unit idle_collaborators
      (terminations pair_state) (context pair_state) = Ok (c', None)
    /\ mpfObjects c' = (fun _ => []) <$> mpfObjects (context pair_state)
    /\ header c' = header (context pair_state)
    /\ matrix c' = matrix (context pair_state)
    /\ Count c' = Count (context pair_state)
    /\ Capacity c' = Capacity (context pair_state).
Proof.
  apply (@ContextTopologyApply_quiet unit idle_collaborators).
  - reflexivity.
  - reflexivity.
Defined.

(** ** The object built for a slot *)

Section BridgeFacts.
Context {Media : Type} `{Collaborators Media}.
Implicit Types c : Context Media.

(** What [ContextBridgeCreate] does once it has found the target [j]. *)
Lemma ContextBridgeCreate_from_targets terms c (i : nat) h1 p1 :
  shaped c -> header c !! i = Some h1 -> termination h1 = Some p1 ->
  forall fuel j, (fuel + j = Z.to_nat (Capacity c))%nat ->
  ContextBridgeCreate_from fuel terms c (Z.of_nat i) (Z.of_nat j) =
    match List.filter (fun j => occupied c j && edge c i j) (seq j fuel) with
    | [] => Ok (None, None)
    | j0 :: _ =>
      match header c !! j0 with
      | Some h2 =>
        if 1 <? RXCount h2 then Ok (None, None)
        else
          source ← stream_of terms (termination h1);
          sink ← stream_of terms (termination h2);
          manager ← codec_manager_of terms (termination h1);
          Ok (BridgeCreate source sink manager (Name c))
      | None => Ok (None, None)
      end
    end.
Proof.
  intros Hs Hh1 Hp1. pose proof (lookup_lt_Some _ _ _ Hh1) as Hi.
  pose proof Hs as (Hcap & Hlen & _).
  induction fuel as [|fuel IH]; intros j Hfuel; [reflexivity|].
  cbn [ContextBridgeCreate_from seq List.filter].
  replace (Z.of_nat j <? Capacity c) with true by lia.
  destruct (header_item_Ok c (Z.of_nat j) Hs) as (h2 & Hh2 & ->); [lia|].
  rewrite Nat2Z.id in Hh2. cbn [mbind outcome_bind].
  replace (Z.of_nat j + 1) with (Z.of_nat (S j)) by lia.
  unfold occupied at 1. rewrite Hh2.
  destruct (termination h2) as [p2|] eqn:Hp2; cbn [andb]; [|apply IH; lia].
  destruct (matrix_item_Ok c (Z.of_nat i) (Z.of_nat j) Hs) as (? & item & _ & _ & -> & He);
    [lia|lia|].
  rewrite !Nat2Z.id in He. cbn [mbind outcome_bind]. rewrite He.
  destruct (On item <=? 0) eqn:Hoff.
  - replace (0 <? On item) with false by lia. apply IH. lia.
  - replace (0 <? On item) with true by lia. rewrite Hh2.
    destruct (1 <? RXCount h2); [reflexivity|].
    destruct (header_item_Ok c (Z.of_nat i) Hs) as (h1' & Hh1' & ->); [lia|].
    rewrite Nat2Z.id, Hh1 in Hh1'. injection Hh1' as <-.
    cbn [mbind outcome_bind]. rewrite ?Hp2.
    destruct (termination h1); [reflexivity|discriminate].
Qed.

End BridgeFacts.

(** X13. For a slot that holds a termination, [ContextBridgeCreate] looks at
    the first occupied slot, in ascending order, that the slot has an edge
    to. With no such slot it returns no object and no error; when that
    target has an [RXCount] above 1 it returns no object and no error
    either; otherwise it returns what [BridgeCreate] returns for the stream
    of the slot as source, the stream of the target as sink, and the codec
    manager of the source. Later targets are never looked at. *)
Theorem ContextBridgeCreate_first_target `{Collaborators Media}
    (terms : list Termination) (c : Context Media) (i : nat)
    (h1 : HeaderItem) (p1 : addr) (t1 : Termination) :
  well_formed c = true ->
  header c !! i = Some h1 -> termination h1 = Some p1 -> terms !! p1 = Some t1 ->
  (targets c i = [] -> ContextBridgeCreate terms c (Z.of_nat i) = Ok (None, None))
  /\ (forall j later h2, targets c i = j :: later -> header c !! j = Some h2 ->
        (1 < RXCount h2 ->
           ContextBridgeCreate terms c (Z.of_nat i) = Ok (None, None))
        /\ (RXCount h2 <= 1 ->
            forall p2 t2, termination h2 = Some p2 -> terms !! p2 = Some t2 ->
              ContextBridgeCreate terms c (Z.of_nat i) =
                Ok (BridgeCreate (audioStream t1) (audioStream t2)
                                 (codecManager t1) (Name c)))).
Proof.
  intros Hwf Hh1 Hp1 Ht1. apply well_formed_shaped in Hwf.
  pose proof (lookup_lt_Some _ _ _ Hh1) as Hi. pose proof Hwf as (Hcap & Hlen & _).
  assert (E : ContextBridgeCreate terms c (Z.of_nat i) =
              match targets c i with
              | [] => Ok (None, None)
              | j0 :: _ =>
                match header c !! j0 with
                | Some h2 =>
                  if 1 <? RXCount h2 then Ok (None, None)
                  else
                    source ← stream_of terms (termination h1);
                    sink ← stream_of terms (termination h2);
                    manager ← codec_manager_of terms (termination h1);
                    Ok (BridgeCreate source sink manager (Name c))
                | None => Ok (None, None)
                end
              end).
  { unfold ContextBridgeCreate.
    destruct (header_item_Ok c (Z.of_nat i) Hwf) as (? & _ & ->); [lia|].
    cbn [mbind outcome_bind]. change 0 with (Z.of_nat 0).
    apply (ContextBridgeCreate_from_targets terms c i h1 p1); try assumption. lia. }
  rewrite E. split.
  - intros ->. reflexivity.
  - intros j later h2 -> ->. split.
    + intros Hrx. replace (1 <? RXCount h2) with true by lia. reflexivity.
    + intros Hrx p2 t2 Hp2 Ht2. replace (1 <? RXCount h2) with false by lia.
      rewrite Hp1, Hp2. unfold stream_of, codec_manager_of, deref.
      rewrite Ht1, Ht2. reflexivity.
Qed.

Lemma ContextBridgeCreate_first_target_witness :
  let c := context associated_state in
  let terms := terminations associated_state in
  (targets c 0 = [] ->
     @ContextBridgeCreate unit idle_collaborators terms c (Z.of_nat 0) = Ok (None, None))
  /\ (forall j later h2, targets c 0 = j :: later -> header c !! j = Some h2 ->
        (1 < RXCount h2 ->
           @ContextBridgeCreate unit idle_collaborators terms c (Z.of_nat 0)
           = Ok (None, None))
        /\ (RXCount h2 <= 1 ->
            forall p2 t2, termination h2 = Some p2 -> terms !! p2 = Some t2 ->
              @ContextBridgeCreate unit idle_collaborators terms c (Z.of_nat 0) =
                Ok (@BridgeCreate unit idle_collaborators
                      (audioStream (in_slot 3 0)) (audioStream t2)
                      (codecManager (in_slot 3 0)) (Name c)))).
Proof.
  apply (@ContextBridgeCreate_first_target unit idle_collaborators
           (terminations associated_state) (context associated_state) 0%nat
           {| termination := Some 0%nat; TXCount := 1; RXCount := 1 |} 0%nat
           (in_slot 3 0)).
  - vm_compute. reflexivity.
  - reflexivity.
  - reflexivity.
  - reflexivity.
Defined.

(** ** The streams gathered for a multiplier and for a mixer *)

Section GatherFacts.
Context {Media : Type} `{Collaborators Media}.
Implicit Types c : Context Media.

Lemma housed_lookup terms c j h p :
  housed terms c = true -> header c !! j = Some h -> termination h = Some p ->
  exists t, terms !! p = Some t.
Proof.
  unfold housed. rewrite forallb_forall. intros Hall Hh Hp.
  assert (Hin : In h (header c)) by (apply list_elem_of_In, list_elem_of_lookup; eauto).
  apply Hall in Hin. rewrite Hp in Hin.
  destruct (terms !! p) as [t|]; [eauto|discriminate].
Qed.

Lemma stream_of_housed terms c j h p :
  housed terms c = true -> header c !! j = Some h -> termination h = Some p ->
  stream_of terms (termination h) = Ok (stream_at terms c j).
Proof.
  intros Hall Hh Hp. destruct (housed_lookup terms c j h p Hall Hh Hp) as [t Ht].
  unfold stream_at, stream_of, deref. rewrite Hh. cbn. rewrite Hp. cbn.
  rewrite Ht. reflexivity.
Qed.

Lemma gather_streams_spec terms c (edgef : Z -> outcome MatrixItem)
    (e : nat -> bool) (n : nat) :
  shaped c -> housed terms c = true ->
  (forall j, (j < Z.to_nat (Capacity c))%nat ->
     exists item, edgef (Z.of_nat j) = Ok item /\ (0 <? On item) = e j) ->
  forall fuel j k arr,
    (fuel + j = Z.to_nat (Capacity c))%nat -> (k <= n)%nat -> length arr = n ->
    gather_streams fuel terms c edgef (Z.of_nat n) (Z.of_nat j) (Z.of_nat k) arr =
      Ok (take k arr
          ++ map (stream_at terms c)
               (take (n - k) (List.filter (fun j => occupied c j && e j) (seq j fuel)))
          ++ drop (k + length (take (n - k)
                     (List.filter (fun j => occupied c j && e j) (seq j fuel)))) arr).
Proof.
  intros Hs Hall Hedge.
  induction fuel as [|fuel IH]; intros j k arr Hfuel Hk Harr.
  - cbn [gather_streams seq List.filter]. rewrite take_nil.
    cbn [map length app]. rewrite Nat.add_0_r, take_drop. reflexivity.
  - cbn [gather_streams].
    replace (Z.of_nat j <? Capacity c) with true by lia. cbn [andb].
    destruct (Nat.ltb_spec k n) as [Hlt|Hge].
    + replace (Z.of_nat k <? Z.of_nat n) with true by lia.
      destruct (header_item_Ok c (Z.of_nat j) Hs) as (h2 & Hh2 & ->); [lia|].
      rewrite Nat2Z.id in Hh2. cbn [mbind outcome_bind seq List.filter].
      replace (Z.of_nat j + 1) with (Z.of_nat (S j)) by lia.
      assert (Hocc : occupied c j = match termination h2 with
                                    | Some _ => true | None => false end)
        by (unfold occupied; rewrite Hh2; reflexivity).
      rewrite !Hocc.
      destruct (termination h2) as [p2|] eqn:Hp2; cbn [andb];
        [|apply IH; try assumption; lia].
      destruct (Hedge j) as (item & -> & He); [lia|]. cbn [mbind outcome_bind].
      rewrite <- He.
      destruct (On item <=? 0) eqn:Hoff.
      * replace (0 <? On item) with false by lia. apply IH; try assumption; lia.
      * replace (0 <? On item) with true by lia.
        rewrite <- Hp2, (stream_of_housed terms c j h2 p2 Hall Hh2 Hp2).
        cbn [mbind outcome_bind].
        rewrite store_Ok by lia. cbn [mbind outcome_bind]. rewrite Nat2Z.id.
        replace (Z.of_nat k + 1) with (Z.of_nat (S k)) by lia.
        rewrite IH by (try rewrite length_insert; try assumption; lia).
        f_equal.
        replace (n - k)%nat with (S (n - S k)) by lia. cbn [take map length].
        rewrite (take_S_r _ k (stream_at terms c j))
          by (apply list_lookup_insert_eq; lia).
        rewrite take_insert_ge by lia.
        rewrite drop_insert_lt by lia.
        rewrite <- app_assoc. cbn [app].
        replace (k + S (length (take (n - S k)
                   (List.filter (fun j0 => occupied c j0 && e j0) (seq (S j) fuel)))))%nat
          with (S k + length (take (n - S k)
                   (List.filter (fun j0 => occupied c j0 && e j0) (seq (S j) fuel))))%nat
          by lia.
        reflexivity.
    + replace (Z.of_nat k <? Z.of_nat n) with false by lia.
      replace (n - k)%nat with 0%nat by lia. rewrite !take_0.
      cbn [map length app]. rewrite Nat.add_0_r, take_drop. reflexivity.
Qed.

Lemma gathered_from_empty terms c (found : list nat) (n : nat) :
  (length found <= n)%nat ->
  take 0 (replicate n (@None AudioStream))
  ++ map (stream_at terms c) found
  ++ drop (0 + length found) (replicate n None)
  = map (stream_at terms c) found ++ replicate (n - length found) None.
Proof. intros Hlen. cbn. rewrite drop_replicate. reflexivity. Qed.

End GatherFacts.

(** X14. [ContextMultiplierCreate] for a slot that holds a termination hands
    to [MultiplierCreate] the stream of that slot as source and an array of
    [TXCount] sinks: the streams of the occupied slots the slot has an edge
    to, in ascending slot order and at most [TXCount] of them, followed by
    nil entries when there are fewer. When [TXCount] is the number of those
    slots the array is exactly their streams in ascending order. *)
Theorem ContextMultiplierCreate_sinks `{Collaborators Media}
    (terms : list Termination) (c : Context Media) (i : nat)
    (h1 : HeaderItem) (p1 : addr) (t1 : Termination) :
  well_formed c = true -> housed terms c = true ->
  header c !! i = Some h1 -> termination h1 = Some p1 -> terms !! p1 = Some t1 ->
  0 <= TXCount h1 ->
  let n := Z.to_nat (TXCount h1) in
  let found := take n (targets c i) in
  let sinks := map (stream_at terms c) found ++ replicate (n - length found) None in
  ContextMultiplierCreate terms c (Z.of_nat i) =
    Ok (MultiplierCreate (audioStream t1) sinks (Z.of_nat n)
          (codecManager t1) (Name c), None)
  /\ (length (targets c i) = n -> sinks = map (stream_at terms c) (targets c i)).
Proof.
  intros Hwf Hall Hh1 Hp1 Ht1 Htx n found sinks.
  apply well_formed_shaped in Hwf.
  pose proof (lookup_lt_Some _ _ _ Hh1) as Hi. pose proof Hwf as (Hcap & Hlen & _).
  assert (Hfound : (length found <= n)%nat) by (subst found; rewrite length_take; lia).
  split.
  - unfold ContextMultiplierCreate.
    destruct (header_item_Ok c (Z.of_nat i) Hwf) as (h1' & Hh1' & ->); [lia|].
    rewrite Nat2Z.id, Hh1 in Hh1'. injection Hh1' as <-.
    cbn [mbind outcome_bind]. fold n.
    replace (TXCount h1) with (Z.of_nat n) at 1 by (subst n; lia).
    change 0 with (Z.of_nat 0).
    rewrite (gather_streams_spec terms c _ (edge c i) n Hwf Hall);
      [|intros j Hj;
        destruct (matrix_item_Ok c (Z.of_nat i) (Z.of_nat j) Hwf)
          as (? & item & _ & _ & E & He); [lia|lia|];
        rewrite !Nat2Z.id in He; eauto
       |lia|lia|apply length_replicate].
    cbn [mbind outcome_bind]. rewrite Nat.sub_0_r.
    fold (targets c i). fold found.
    rewrite (gathered_from_empty terms c found n Hfound). fold sinks.
    rewrite Hp1. unfold stream_of, codec_manager_of, deref. rewrite Ht1.
    cbn [mbind outcome_bind].
    assert (Hsinks : length sinks = n).
    { subst sinks. rewrite length_app, length_map, length_replicate. lia. }
    rewrite Hsinks. reflexivity.
  - intros Hn. subst sinks found. rewrite take_ge by lia.
    rewrite Hn, Nat.sub_diag. apply app_nil_r.
Qed.

Lemma ContextMultiplierCreate_sinks_witness :
  let c := context meshed_state in
  let terms := terminations meshed_state in
  let h1 := {| termination := Some 0%nat; TXCount := 2; RXCount := 2 |} in
  let n := Z.to_nat (TXCount h1) in
  let found := take n (targets c 0) in
  let sinks := map (stream_at terms c) found ++ replicate (n - length found) None in
  @ContextMultiplierCreate unit idle_collaborators terms c (Z.of_nat 0) =
    Ok (@MultiplierCreate unit idle_collaborators
          (audioStream (in_slot 3 0)) sinks (Z.of_nat n)
          (codecManager (in_slot 3 0)) (Name c), None)
  /\ (length (targets c 0) = n -> sinks = map (stream_at terms c) (targets c 0)).
Proof.
  apply (@ContextMultiplierCreate_sinks unit idle_collaborators
           (terminations meshed_state) (context meshed_state) 0%nat
           {| termination := Some 0%nat; TXCount := 2; RXCount := 2 |} 0%nat
           (in_slot 3 0)).
  - vm_compute. reflexivity.
  - vm_compute. reflexivity.
  - reflexivity.
  - reflexivity.
  - reflexivity.
  - vm_compute. discriminate.
Defined.

(** X15. [ContextMixerCreate] for a slot that holds a termination hands to
    [MixerCreate] the stream of that slot as sink and an array of [RXCount]
    sources: the streams of the occupied slots that have an edge to the
    slot, in ascending slot order and at most [RXCount] of them, followed
    by nil entries when there are fewer. When [RXCount] is the number of
    those slots the array is exactly their streams in ascending order. *)
Theorem ContextMixerCreate_sources `{Collaborators Media}
    (terms : list Termination) (c : Context Media) (j : nat)
    (h1 : HeaderItem) (p1 : addr) (t1 : Termination) :
  well_formed c = true -> housed terms c = true ->
  header c !! j = Some h1 -> termination h1 = Some p1 -> terms !! p1 = Some t1 ->
  0 <= RXCount h1 ->
  let n := Z.to_nat (RXCount h1) in
  let found := take n (sources c j) in
  let inputs := map (stream_at terms c) found ++ replicate (n - length found) None in
  ContextMixerCreate terms c (Z.of_nat j) =
    Ok (MixerCreate inputs (Z.of_nat n) (audioStream t1)
          (codecManager t1) (Name c), None)
  /\ (length (sources c j) = n -> inputs = map (stream_at terms c) (sources c j)).
Proof.
  intros Hwf Hall Hh1 Hp1 Ht1 Hrx n found inputs.
  apply well_formed_shaped in Hwf.
  pose proof (lookup_lt_Some _ _ _ Hh1) as Hj. pose proof Hwf as (Hcap & Hlen & _).
  assert (Hfound : (length found <= n)%nat) by (subst found; rewrite length_take; lia).
  split.
  - unfold ContextMixerCreate.
    destruct (header_item_Ok c (Z.of_nat j) Hwf) as (h1' & Hh1' & ->); [lia|].
    rewrite Nat2Z.id, Hh1 in Hh1'. injection Hh1' as <-.
    cbn [mbind outcome_bind]. fold n.
    replace (RXCount h1) with (Z.of_nat n) at 1 by (subst n; lia).
    change 0 with (Z.of_nat 0).
    rewrite (gather_streams_spec terms c _ (fun i => edge c i j) n Hwf Hall);
      [|intros i Hi;
        destruct (matrix_item_Ok c (Z.of_nat i) (Z.of_nat j) Hwf)
          as (? & item & _ & _ & E & He); [lia|lia|];
        rewrite !Nat2Z.id in He; eauto
       |lia|lia|apply length_replicate].
    cbn [mbind outcome_bind]. rewrite Nat.sub_0_r.
    fold (sources c j). fold found.
    rewrite (gathered_from_empty terms c found n Hfound). fold inputs.
    rewrite Hp1. unfold stream_of, codec_manager_of, deref. rewrite Ht1.
    cbn [mbind outcome_bind].
    assert (Hinputs : length inputs = n).
    { subst inputs. rewrite length_app, length_map, length_replicate. lia. }
    rewrite Hinputs. reflexivity.
  - intros Hn. subst inputs found. rewrite take_ge by lia.
    rewrite Hn, Nat.sub_diag. apply app_nil_r.
Qed.

Lemma ContextMixerCreate_sources_witness :
  let c := context fan_in_state in
  let terms := terminations fan_in_state in
  let h1 := {| termination := Some 3%nat; TXCount := 0; RXCount := 3 |} in
  let n := Z.to_nat (RXCount h1) in
  let found := take n (sources c 3) in
  let inputs := map (stream_at terms c) found ++ replicate (n - length found) None in
  @ContextMixerCreate unit idle_collaborators terms c (Z.of_nat 3) =
    Ok (@MixerCreate unit idle_collaborators inputs (Z.of_nat n)
          (audioStream (in_slot 1 3)) (codecManager (in_slot 1 3)) (Name c), None)
  /\ (length (sources c 3) = n -> inputs = map (stream_at terms c) (sources c 3)).
Proof.
  apply (@ContextMixerCreate_sources unit idle_collaborators
           (terminations fan_in_state) (context fan_in_state) 3%nat
           {| termination := Some 3%nat; TXCount := 0; RXCount := 3 |} 3%nat
           (in_slot 1 3)).
  - vm_compute. reflexivity.
  - vm_compute. reflexivity.
  - reflexivity.
  - reflexivity.
  - reflexivity.
  - vm_compute. discriminate.
Defined.

(** X16. [DtmfDetectorCreate] panics on a nil stream, whose
    [TXEventDescriptor] it reads first. On a stream that is not nil it does
    not panic, and the band of the detector it returns follows from the two
    descriptors of the stream: both bands with a TX descriptor and a TX
    event descriptor, the in-band band with a TX descriptor alone, the
    out-of-band band with a TX event descriptor alone, and no detector
    with neither. *)
Theorem DtmfDetectorCreate_band `{GoMath} (stream : AudioStream) :
  DtmfDetectorCreate None = Panic nil_dereference
  /\ exists r,
    DtmfDetectorCreate (Some stream) = Ok r
    /\ match TXDescriptor stream, TXEventDescriptor stream with
       | None, None => r = None
       | None, Some _ =>
         exists detector, r = Some detector
                          /\ Band detector = MPF_DTMF_DETECTOR_OUTBAND
       | Some _, None =>
         exists detector, r = Some detector
                          /\ Band detector = MPF_DTMF_DETECTOR_INBAND
       | Some _, Some _ =>
         exists detector, r = Some detector
                          /\ Band detector = MPF_DTMF_DETECTOR_BOTH
       end.
Proof.
  split; [reflexivity|].
  unfold DtmfDetectorCreate, DtmfDetectorCreateEx.
  destruct (TXDescriptor stream) as [d|], (TXEventDescriptor stream) as [ev|];
    cbn [Z.leb Z.ltb Z.compare Z.land Z.lor Z.lnot Z.pred Z.add Z.opp Pos.land Pos.lor
         Pos.compare Pos.compare_cont MPF_DTMF_DETECTOR_BOTH MPF_DTMF_DETECTOR_INBAND
         MPF_DTMF_DETECTOR_OUTBAND Z.of_N Pos.pred_N Pos.ldiff Z.pos_sub Pos.pred_double
         N.succ_pos Pos.succ Z.succ_double Z.pred_double Z.double];
    eexists; (split; [reflexivity|]); try reflexivity; eexists; split; reflexivity.
Qed.

(** ** Subtracting a bound termination, and all of them *)

Section SubtractFacts.
Context {Media : Type}.
Implicit Types (c : Context Media) (st : State Media).

Lemma ContextTerminationSubtract_from_slots c (i : Z) : forall fuel j k c0,
  same_slots c c0 -> 0 <= i < Capacity c -> 0 <= j ->
  exists c', ContextTerminationSubtract_from fuel i j k c0 = Ok c' /\ same_slots c c'.
Proof.
  induction fuel as [|fuel IH]; intros j k c0 Hsame Hi Hj.
  - exists c0. split; [reflexivity|assumption].
  - cbn [ContextTerminationSubtract_from].
    pose proof Hsame as (Hs0 & Hc0 & _).
    destruct ((j <? Capacity c0) && (k <? Count c0)) eqn:Hcond;
      [|exists c0; split; [reflexivity|assumption]].
    apply andb_prop in Hcond as [Hlt _]. apply Z.ltb_lt in Hlt.
    destruct (header_item_Ok c0 j Hs0) as (h & _ & ->); [lia|].
    cbn [mbind outcome_bind].
    destruct (termination h); [apply IH; try assumption; lia|].
    destruct (clear_edge_slots c0 i j Hs0) as (c1 & -> & S1 & _); [lia|lia|].
    cbn [mbind outcome_bind]. pose proof S1 as (Hs1 & Hc1 & _).
    destruct (clear_edge_slots c1 j i Hs1) as (c2 & -> & S2 & _); [lia|lia|].
    cbn [mbind outcome_bind].
    apply IH; try assumption; try lia.
    eapply same_slots_trans; [|exact S2]. eapply same_slots_trans; eassumption.
Qed.

Lemma ContextTerminationSubtract_bound st (p : addr) (t : Termination) (i : nat)
    (h : HeaderItem) :
  shaped (context st) ->
  terminations st !! p = Some t -> slot t = Z.of_nat i ->
  header (context st) !! i = Some h -> termination h = Some p ->
  Element (context st) <> None ->
  exists st',
    ContextTerminationSubtract st p = Ok (true, st')
    /\ shaped (context st')
    /\ Capacity (context st') = Capacity (context st)
    /\ Element (context st') = Element (context st)
    /\ mpfObjects (context st') = mpfObjects (context st)
    /\ Count (context st') = wrap64 (Count (context st) - 1)
    /\ termination <$> header (context st')
       = <[i := None]> (termination <$> header (context st))
    /\ terminations st'
       = <[p := {| slot := -1; audioStream := audioStream t;
                   codecManager := codecManager t |}]> (terminations st).
Proof.
  intros Hs Hp Hslot Hh Hterm Helem.
  pose proof (lookup_lt_Some _ _ _ Hh) as Hi. pose proof Hs as (Hcap & Hlen & _).
  destruct (Element (context st)) as [e|] eqn:He; [clear Helem|congruence].
  unfold ContextTerminationSubtract, deref. rewrite Hp. cbn [mbind outcome_bind].
  rewrite Hslot. replace (Capacity (context st) <=? Z.of_nat i) with false by lia.
  unfold header_item.
  rewrite (proj2 (index_Ok (header (context st)) (Z.of_nat i) h))
    by (rewrite Nat2Z.id; split; [lia|assumption]).
  cbn [mbind outcome_bind]. rewrite Hterm. cbn [same_termination].
  rewrite Nat.eqb_refl. cbn [negb].
  destruct (ContextTerminationSubtract_from_slots (context st) (Z.of_nat i)
              (Z.to_nat (Capacity (context st))) 0 0 (context st))
    as (c1 & -> & (Hs1 & Hc1 & Hn1 & Ho1 & Hel & Ht1));
    [apply same_slots_refl, Hs|lia|lia|].
  cbn [mbind outcome_bind]. unfold set_termination.
  pose proof Hs1 as (_ & Hlen1 & _).
  destruct (lookup_lt_is_Some_2 (header c1) i) as [h1 Hh1]; [lia|].
  rewrite (proj2 (index_Ok (header c1) (Z.of_nat i) h1))
    by (rewrite Nat2Z.id; split; [lia|assumption]).
  cbn [mbind outcome_bind]. rewrite store_Ok by lia. cbn [mbind outcome_bind].
  cbn [Count with_Count with_header Element]. rewrite Hn1, Hel, He, Nat2Z.id.
  assert (Hbind : termination <$> <[i := {| termination := None; TXCount := TXCount h1;
                                            RXCount := RXCount h1 |}]> (header c1)
                  = <[i := None]> (termination <$> header (context st))).
  { rewrite list_fmap_insert. cbn [termination]. f_equal.
    apply list_eq. intros k. rewrite !list_lookup_fmap. apply Ht1. }
  assert (Hshape : shaped (with_Count
            (with_header c1 (<[i := {| termination := None; TXCount := TXCount h1;
                                       RXCount := RXCount h1 |}]> (header c1)))
            (wrap64 (Count (context st) - 1)))).
  { destruct Hs1 as (? & ? & ? & ?). repeat split; cbn; try assumption.
    rewrite length_insert. assumption. }
  destruct (wrap64 (Count (context st) - 1) <=? 0); cbn [Remove mbind outcome_bind];
    (eexists; split; [reflexivity|]; cbn [context terminations];
     split; [exact Hshape|]; cbn [Capacity Element mpfObjects Count header
                                   with_Count with_header];
     repeat split; try assumption; try congruence).
Qed.


Lemma freed_elsewhere c c' (i k : nat) :
  termination <$> header c' = <[i := None]> (termination <$> header c) ->
  k <> i ->
  termination <$> header c' !! k = termination <$> header c !! k.
Proof.
  intros Hb Hk. rewrite <- !list_lookup_fmap, Hb.
  apply list_lookup_insert_ne. congruence.
Qed.

Lemma freed_there c c' (i : nat) :
  termination <$> header c' = <[i := None]> (termination <$> header c) ->
  (i < length (header c))%nat ->
  termination <$> header c' !! i = Some None.
Proof.
  intros Hb Hi. rewrite <- !list_lookup_fmap, Hb.
  apply list_lookup_insert_eq. rewrite length_fmap. assumption.
Qed.

Lemma freed_length c c' (i : nat) :
  termination <$> header c' = <[i := None]> (termination <$> header c) ->
  length (header c') = length (header c).
Proof.
  intros Hb. apply (f_equal length) in Hb.
  rewrite length_insert, !length_fmap in Hb. assumption.
Qed.

Lemma seated_seated_from terms c :
  seated terms c = true -> seated_from terms c 0.
Proof.
  unfold seated. rewrite forallb_forall. intros Hall k h p _ Hh Hp.
  assert (Hin : In k (seq 0 (length (header c)))).
  { apply in_seq. pose proof (lookup_lt_Some _ _ _ Hh). lia. }
  apply Hall in Hin. rewrite Hh, Hp in Hin.
  destruct (terms !! p) as [t|]; [|discriminate].
  exists t. split; [reflexivity|]. apply Z.eqb_eq. assumption.
Qed.

Lemma ContextDestroy_from_unbinds `{Collaborators Media} :
  (forall t, TerminationSubtract t = None) ->
  forall fuel i st,
    (fuel + i = Z.to_nat (Capacity (context st)))%nat ->
    shaped (context st) -> Element (context st) <> None ->
    seated_from (terminations st) (context st) i ->
    exists st',
      ContextDestroy_from fuel (Z.of_nat i) st = Ok (None, st')
      /\ Capacity (context st') = Capacity (context st)
      /\ mpfObjects (context st') = mpfObjects (context st)
      /\ length (header (context st')) = length (header (context st))
      /\ (forall k, (k < i)%nat ->
            termination <$> header (context st') !! k
            = termination <$> header (context st) !! k)
      /\ (forall k h, (i <= k)%nat -> header (context st') !! k = Some h ->
            termination h = None)
      /\ (forall q, slot <$> terminations st' !! q = Some (-1)
                    \/ terminations st' !! q = terminations st !! q)
      /\ (forall k h p, (i <= k)%nat -> header (context st) !! k = Some h ->
            termination h = Some p ->
            slot <$> terminations st' !! p = Some (-1)).
Proof.
  intros Hquiet. induction fuel as [|fuel IH]; intros i st Hfuel Hs Helem Hseat.
  - pose proof Hs as (Hcap & Hlen & _). exists st. cbn [ContextDestroy_from].
    split; [reflexivity|]. repeat split; auto.
    + intros k h Hk Hh. apply lookup_lt_Some in Hh. lia.
    + intros k h p Hk Hh. apply lookup_lt_Some in Hh. lia.
  - pose proof Hs as (Hcap & Hlen & _). cbn [ContextDestroy_from].
    replace (Z.of_nat i <? Capacity (context st)) with true by lia.
    destruct (header_item_Ok (context st) (Z.of_nat i) Hs) as (h & Hh & ->); [lia|].
    rewrite Nat2Z.id in Hh. cbn [mbind outcome_bind].
    replace (Z.of_nat i + 1) with (Z.of_nat (S i)) by lia.
    destruct (termination h) as [p|] eqn:Hp.
    + destruct (Hseat i h p (le_n i) Hh Hp) as (t & Ht & Hslot).
      destruct (ContextTerminationSubtract_bound st p t i h Hs Ht Hslot Hh Hp Helem)
        as (st1 & -> & Hs1 & Hc1 & He1 & Ho1 & Hn1 & Hb1 & Ht1).
      cbn [mbind outcome_bind]. unfold deref.
      pose proof (lookup_lt_Some _ _ _ Ht) as Hplt.
      rewrite Ht1, list_lookup_insert_eq by assumption.
      cbn [mbind outcome_bind]. rewrite Hquiet. rewrite <- ?Ht1.
      destruct (IH (S i) st1) as (st' & -> & Hc' & Ho' & Hl' & Hlow & Hfree & Hmono & Hgone).
      { lia. }
      { assumption. }
      { congruence. }
      { intros k h' p' Hk Hh' Hp'.
        assert (Hk0 : termination <$> header (context st) !! k = Some (Some p')).
        { rewrite <- (freed_elsewhere _ _ i k Hb1) by lia. rewrite Hh'. cbn. congruence. }
        destruct (header (context st) !! k) as [h0|] eqn:Hh0; [|discriminate].
        cbn in Hk0. injection Hk0 as Hp0.
        destruct (Hseat k h0 p' ltac:(lia) Hh0 Hp0) as (t' & Ht' & Hslot').
        exists t'. split; [|assumption].
        rewrite Ht1, list_lookup_insert_ne; [assumption|].
        intros ->. rewrite Ht in Ht'. injection Ht' as <-. lia. }
      exists st'. split; [reflexivity|].
      pose proof (freed_length _ _ _ Hb1) as Hl1.
      split; [congruence|]. split; [congruence|]. split; [congruence|].
      assert (Hp1 : slot <$> terminations st1 !! p = Some (-1)).
      { rewrite Ht1, list_lookup_insert_eq by assumption. reflexivity. }
      split; [|split; [|split]].
      * intros k Hk. rewrite Hlow by lia. apply (freed_elsewhere _ _ i k Hb1). lia.
      * intros k h' Hk Hh'. destruct (Nat.eq_dec k i) as [->|Hne].
        -- pose proof (Hlow i ltac:(lia)) as Hat.
           rewrite (freed_there _ _ i Hb1) in Hat by lia.
           rewrite Hh' in Hat. cbn in Hat. congruence.
        -- apply (Hfree k h'); [lia|assumption].
      * intros q. destruct (Hmono q) as [Hq|Hq]; [left; assumption|].
        destruct (Nat.eq_dec q p) as [->|Hne].
        -- left. rewrite Hq. assumption.
        -- right. rewrite Hq, Ht1. apply list_lookup_insert_ne. congruence.
      * intros k h' p' Hk Hh' Hp'. destruct (Nat.eq_dec k i) as [->|Hne].
        -- rewrite Hh in Hh'. injection Hh' as <-. rewrite Hp in Hp'.
           injection Hp' as Hpp. subst p'.
           destruct (Hmono p) as [Hq|Hq]; [assumption|].
           exact (eq_trans (f_equal (fmap slot) Hq) Hp1).
        -- assert (Hk1 : termination <$> header (context st1) !! k = Some (Some p')).
           { rewrite (freed_elsewhere _ _ i k Hb1) by lia. rewrite Hh'. cbn. congruence. }
           destruct (header (context st1) !! k) as [h1|] eqn:Hh1; [|discriminate].
           cbn in Hk1. injection Hk1 as Hp1'.
           apply (Hgone k h1 p'); [lia|assumption|assumption].
    + destruct (IH (S i) st) as (st' & -> & Hc' & Ho' & Hl' & Hlow & Hfree & Hmono & Hgone);
        try assumption; try lia.
      { intros k h' p' Hk. apply Hseat. lia. }
      exists st'. split; [reflexivity|]. repeat split; try assumption.
      * intros k Hk. apply Hlow. lia.
      * intros k h' Hk Hh'. destruct (Nat.eq_dec k i) as [->|Hne].
        -- pose proof (Hlow i ltac:(lia)) as Hat. rewrite Hh, Hh' in Hat.
           cbn in Hat. congruence.
        -- apply (Hfree k h'); [lia|assumption].
      * intros k h' p' Hk Hh' Hp'. destruct (Nat.eq_dec k i) as [->|Hne].
        -- congruence.
        -- apply (Hgone k h' p'); [lia|assumption|assumption].
Qed.


(** X17. Subtracting a termination that occupies the slot it names, in a
    well-formed context with a factory element, succeeds: exactly that
    slot is freed, every other binding stays, the termination's slot index
    becomes -1 and nothing else of it changes, [Count] goes down by one
    (as an int64), and capacity and topology objects stay as they are. *)
Theorem ContextTerminationSubtract_frees_slot st p t i h :
  well_formed (context st) = true ->
  terminations st !! p = Some t ->
  slot t = Z.of_nat i ->
  header (context st) !! i = Some h ->
  termination h = Some p ->
  Element (context st) <> None ->
  exists st',
    ContextTerminationSubtract st p = Ok (true, st')
    /\ well_formed (context st') = true
    /\ Capacity (context st') = Capacity (context st)
    /\ mpfObjects (context st') = mpfObjects (context st)
    /\ Count (context st') = wrap64 (Count (context st) - 1)
    /\ termination <$> header (context st')
       = <[i := None]> (termination <$> header (context st))
    /\ terminations st'
       = <[p := {| slot := -1; audioStream := audioStream t;
                   codecManager := codecManager t |}]> (terminations st).
Proof.
  intros Hwf Ht Hslot Hh Hp He. apply well_formed_shaped in Hwf.
  destruct (ContextTerminationSubtract_bound st p t i h Hwf Ht Hslot Hh Hp He)
    as (st' & Hrun & Hs & Hc & _ & Ho & Hn & Hb & Hterms).
  exists st'. split; [assumption|]. split; [apply well_formed_shaped; assumption|].
  repeat split; assumption.
Qed.

End SubtractFacts.

Lemma ContextTerminationSubtract_frees_slot_witness :
  exists st',
    ContextTerminationSubtract pair_state 1%nat = Ok (true, st')
    /\ well_formed (context st') = true
    /\ Capacity (context st') = Capacity (context pair_state)
    /\ mpfObjects (context st') = mpfObjects (context pair_state)
    /\ Count (context st') = wrap64 (Count (context pair_state) - 1)
    /\ termination <$> header (context st')
       = <[1%nat := None]> (termination <$> header (context pair_state))
    /\ terminations st'
       = <[1%nat := {| slot := -1; audioStream := audioStream (in_slot 3 1);
                      codecManager := codecManager (in_slot 3 1) |}]>
           (terminations pair_state).
Proof.
  apply (ContextTerminationSubtract_frees_slot pair_state 1%nat (in_slot 3 1) 1%nat
           {| termination := Some 1%nat; TXCount := 0; RXCount := 0 |}).
  - reflexivity.
  - reflexivity.
  - reflexivity.
  - reflexivity.
  - reflexivity.
  - vm_compute. discriminate.
Defined.

(** X18. In a well-formed context with a factory element, where every bound
    termination names the slot that holds it and no termination fails to
    release its own resources, [ContextDestroy] returns no error and leaves
    every slot free: each termination that was bound ends with slot index
    -1, every other termination is as it was, and the capacity and the
    topology objects of the context are untouched. *)
Theorem ContextDestroy_unbinds_all {Media : Type} `{Collaborators Media}
    (st : State Media) :
  well_formed (context st) = true ->
  seated (terminations st) (context st) = true ->
  Element (context st) <> None ->
  (forall t, TerminationSubtract t = None) ->
  exists st',
    ContextDestroy st = Ok (None, st')
    /\ Capacity (context st') = Capacity (context st)
    /\ mpfObjects (context st') = mpfObjects (context st)
    /\ (forall k h, header (context st') !! k = Some h -> termination h = None)
    /\ (forall k h p, header (context st) !! k = Some h -> termination h = Some p ->
          slot <$> terminations st' !! p = Some (-1))
    /\ (forall q, slot <$> terminations st' !! q = Some (-1)
                  \/ terminations st' !! q = terminations st !! q).
Proof.
  intros Hwf Hseat He Hquiet. apply well_formed_shaped in Hwf.
  apply seated_seated_from in Hseat.
  destruct (ContextDestroy_from_unbinds Hquiet
              (Z.to_nat (Capacity (context st))) 0%nat st)
    as (st' & Hrun & Hc & Ho & _ & _ & Hfree & Hmono & Hgone);
    [lia|assumption|assumption|assumption|].
  exists st'. unfold ContextDestroy. split; [exact Hrun|].
  split; [assumption|]. split; [assumption|]. split; [|split].
  - intros k h. apply Hfree. lia.
  - intros k h p. apply Hgone. lia.
  - assumption.
Qed.

Lemma ContextDestroy_unbinds_all_witness :
  exists st',
    @ContextDestroy unit idle_collaborators meshed_state = Ok (None, st')
    /\ Capacity (context st') = Capacity (context meshed_state)
    /\ mpfObjects (context st') = mpfObjects (context meshed_state)
    /\ (forall k h, header (context st') !! k = Some h -> termination h = None)
    /\ (forall k h p, header (context meshed_state) !! k = Some h ->
          termination h = Some p ->
          slot <$> terminations st' !! p = Some (-1))
    /\ (forall q, slot <$> terminations st' !! q = Some (-1)
                  \/ terminations st' !! q = terminations meshed_state !! q).
Proof.
  apply (@ContextDestroy_unbinds_all unit idle_collaborators meshed_state).
  - reflexivity.
  - reflexivity.
  - vm_compute. discriminate.
  - intros t. reflexivity.
Defined.

(** ** The decoder never opens *)

(** X19. [DecoderOpen] never returns a result and never reaches
    [AudioStreamRXOpen]: on a stream whose [Obj] is a decoder the call has
    not returned at any depth of calls, whatever [AudioStreamRXOpen] would
    answer, and on any other stream it panics at the type assertion or at
    the first field access. *)
Theorem DecoderOpen_never_returns
    (AudioStreamRXOpen : option addr -> option addr -> outcome (option error))
    (fuel : nat) (stream : option interface_value) (codec : option addr) :
  DecoderOpen AudioStreamRXOpen (S fuel) stream codec
  = match asserted_decoder stream with
    | Ok _ => None
    | Panic why => Some (Panic why)
    end.
Proof.
  revert codec. induction fuel as [|fuel IH]; intros codec.
  - cbn [DecoderOpen]. destruct (asserted_decoder stream); reflexivity.
  - change (DecoderOpen AudioStreamRXOpen (S (S fuel)) stream codec)
      with (match asserted_decoder stream with
            | Panic why => Some (Panic why)
            | Ok decoder =>
              match DecoderOpen AudioStreamRXOpen (S fuel) stream (Codec decoder) with
              | None => None
              | Some (Panic why) => Some (Panic why)
              | Some (Ok (Some err)) => Some (Ok (Some err))
              | Some (Ok None) =>
                Some (AudioStreamRXOpen (Source decoder) (Codec decoder))
              end
            end).
    destruct (asserted_decoder stream) as [d|why] eqn:E; [|reflexivity].
    rewrite IH. reflexivity.
Qed.
Section DestroyFacts.
Context {Media : Type}.
Implicit Types (c : Context Media) (st : State Media).

Lemma ContextDestroy_from_stops `{Collaborators Media} :
  forall fuel i st,
    (fuel + i = Z.to_nat (Capacity (context st)))%nat ->
    shaped (context st) -> Element (context st) <> None ->
    seated_from (terminations st) (context st) i ->
    exists r st',
      ContextDestroy_from fuel (Z.of_nat i) st = Ok (r, st')
      /\ Capacity (context st') = Capacity (context st)
      /\ mpfObjects (context st') = mpfObjects (context st)
      /\ (forall k, (k < i)%nat ->
            termination <$> header (context st') !! k
            = termination <$> header (context st) !! k)
      /\ match r with
         | None =>
           forall k h, (i <= k)%nat -> header (context st') !! k = Some h ->
             termination h = None
         | Some err =>
           exists k h p t',
             (i <= k)%nat
             /\ header (context st) !! k = Some h /\ termination h = Some p
             /\ terminations st' !! p = Some t' /\ slot t' = -1
             /\ TerminationSubtract t' = Some err
             /\ (forall j h', (i <= j <= k)%nat ->
                   header (context st') !! j = Some h' -> termination h' = None)
             /\ (forall j, (k < j)%nat ->
                   termination <$> header (context st') !! j
                   = termination <$> header (context st) !! j)
         end.
Proof.
  induction fuel as [|fuel IH]; intros i st Hfuel Hs Helem Hseat.
  - pose proof Hs as (Hcap & Hlen & _). exists None, st. cbn [ContextDestroy_from].
    split; [reflexivity|]. repeat split; auto.
    intros k h Hk Hh. apply lookup_lt_Some in Hh. lia.
  - pose proof Hs as (Hcap & Hlen & _). cbn [ContextDestroy_from].
    replace (Z.of_nat i <? Capacity (context st)) with true by lia.
    destruct (header_item_Ok (context st) (Z.of_nat i) Hs) as (h & Hh & ->); [lia|].
    rewrite Nat2Z.id in Hh. cbn [mbind outcome_bind].
    replace (Z.of_nat i + 1) with (Z.of_nat (S i)) by lia.
    destruct (termination h) as [p|] eqn:Hp.
    + destruct (Hseat i h p (le_n i) Hh Hp) as (t & Ht & Hslot).
      destruct (ContextTerminationSubtract_bound st p t i h Hs Ht Hslot Hh Hp Helem)
        as (st1 & -> & Hs1 & Hc1 & He1 & Ho1 & Hn1 & Hb1 & Ht1).
      cbn [mbind outcome_bind]. unfold deref.
      pose proof (lookup_lt_Some _ _ _ Ht) as Hplt.
      assert (Hp1 : terminations st1 !! p
                    = Some {| slot := -1; audioStream := audioStream t;
                              codecManager := codecManager t |}).
      { rewrite Ht1. apply list_lookup_insert_eq. assumption. }
      rewrite Hp1. cbn [mbind outcome_bind].
      pose proof (freed_length _ _ _ Hb1) as Hl1.
      destruct (TerminationSubtract _) as [err|] eqn:Herr.
      * exists (Some err), st1. split; [reflexivity|].
        split; [assumption|]. split; [assumption|]. split.
        -- intros k Hk. apply (freed_elsewhere _ _ i k Hb1). lia.
        -- exists i, h, p. eexists. split; [lia|]. split; [assumption|].
           split; [assumption|]. split; [exact Hp1|]. split; [reflexivity|].
           split; [exact Herr|]. split.
           ++ intros j h' Hj Hh'. assert (j = i) as -> by lia.
              pose proof (freed_there _ _ i Hb1 ltac:(lia)) as Hat.
              rewrite Hh' in Hat. cbn in Hat. congruence.
           ++ intros j Hj. apply (freed_elsewhere _ _ i j Hb1). lia.
      * destruct (IH (S i) st1) as (r & st' & -> & Hc' & Ho' & Hlow & Hr).
        { lia. }
        { assumption. }
        { congruence. }
        { intros k h' p' Hk Hh' Hp'.
          assert (Hk0 : termination <$> header (context st) !! k = Some (Some p')).
          { rewrite <- (freed_elsewhere _ _ i k Hb1) by lia. rewrite Hh'. cbn. congruence. }
          destruct (header (context st) !! k) as [h0|] eqn:Hh0; [|discriminate].
          cbn in Hk0. injection Hk0 as Hp0.
          destruct (Hseat k h0 p' ltac:(lia) Hh0 Hp0) as (t' & Ht' & Hslot').
          exists t'. split; [|assumption].
          rewrite Ht1, list_lookup_insert_ne; [assumption|].
          intros ->. rewrite Ht in Ht'. injection Ht' as <-. lia. }
        exists r, st'. split; [reflexivity|].
        split; [congruence|]. split; [congruence|]. split.
        -- intros k Hk. rewrite Hlow by lia. apply (freed_elsewhere _ _ i k Hb1). lia.
        -- assert (Hi' : forall h', header (context st') !! i = Some h' ->
                                    termination h' = None).
           { intros h' Hh'. pose proof (Hlow i ltac:(lia)) as Hat.
             rewrite (freed_there _ _ i Hb1) in Hat by lia.
             rewrite Hh' in Hat. cbn in Hat. congruence. }
           destruct r as [err|].
           ++ destruct Hr as (k & h1 & p' & t' & Hk & Hh1 & Hp1' & Ht' & Hs' & He' & Hfree & Hrest).
              assert (Hk0 : termination <$> header (context st) !! k = Some (Some p')).
              { rewrite <- (freed_elsewhere _ _ i k Hb1) by lia. rewrite Hh1. cbn. congruence. }
              destruct (header (context st) !! k) as [h0|] eqn:Hh0; [|discriminate].
              cbn in Hk0. injection Hk0 as Hp0.
              exists k, h0, p', t'. split; [lia|]. split; [exact Hh0|].
              split; [assumption|]. split; [assumption|]. split; [assumption|].
              split; [assumption|]. split.
              ** intros j h' Hj Hh'. destruct (Nat.eq_dec j i) as [->|Hne].
                 --- apply Hi'. assumption.
                 --- apply (Hfree j h'); [lia|assumption].
              ** intros j Hj. rewrite Hrest by lia.
                 apply (freed_elsewhere _ _ i j Hb1). lia.
           ++ intros k h' Hk Hh'. destruct (Nat.eq_dec k i) as [->|Hne].
              ** apply Hi'. assumption.
              ** apply (Hr k h'); [lia|assumption].
    + destruct (IH (S i) st) as (r & st' & -> & Hc' & Ho' & Hlow & Hr);
        try assumption; try lia.
      { intros k h' p' Hk. apply Hseat. lia. }
      exists r, st'. split; [reflexivity|].
      split; [assumption|]. split; [assumption|]. split.
      * intros k Hk. apply Hlow. lia.
      * assert (Hi' : forall h', header (context st') !! i = Some h' ->
                                 termination h' = None).
        { intros h' Hh'. pose proof (Hlow i ltac:(lia)) as Hat.
          rewrite Hh, Hh' in Hat. cbn in Hat. congruence. }
        destruct r as [err|].
        -- destruct Hr as (k & h1 & p' & t' & Hk & Hh1 & Hp1' & Ht' & Hs' & He' & Hfree & Hrest).
           exists k, h1, p', t'. split; [lia|]. split; [assumption|].
           split; [assumption|]. split; [assumption|]. split; [assumption|].
           split; [assumption|]. split; [|assumption].
           intros j h' Hj Hh'. destruct (Nat.eq_dec j i) as [->|Hne].
           ++ apply Hi'. assumption.
           ++ apply (Hfree j h'); [lia|assumption].
        -- intros k h' Hk Hh'. destruct (Nat.eq_dec k i) as [->|Hne].
           ++ apply Hi'. assumption.
           ++ apply (Hr k h'); [lia|assumption].
Qed.

End DestroyFacts.

(** X20. In a well-formed context with a factory element, where every bound
    termination names the slot that holds it, [ContextDestroy] does not
    panic, whatever [TerminationSubtract] answers. When it returns an
    error, that error is the answer of [TerminationSubtract] for the
    termination of some slot [k], asked after the termination was taken
    out of the context (its slot index is -1): the slots up to [k] are
    free and the slots after [k] hold the terminations they held. When it
    returns no error every slot is free. Capacity and topology objects are
    untouched either way. *)
Theorem ContextDestroy_first_failure {Media : Type} `{Collaborators Media}
    (st : State Media) :
  well_formed (context st) = true ->
  seated (terminations st) (context st) = true ->
  Element (context st) <> None ->
  exists r st',
    ContextDestroy st = Ok (r, st')
    /\ Capacity (context st') = Capacity (context st)
    /\ mpfObjects (context st') = mpfObjects (context st)
    /\ match r with
       | None =>
         forall k h, header (context st') !! k = Some h -> termination h = None
       | Some err =>
         exists k h p t',
           header (context st) !! k = Some h /\ termination h = Some p
           /\ terminations st' !! p = Some t' /\ slot t' = -1
           /\ TerminationSubtract t' = Some err
           /\ (forall j h', (j <= k)%nat ->
                 header (context st') !! j = Some h' -> termination h' = None)
           /\ (forall j, (k < j)%nat ->
                 termination <$> header (context st') !! j
                 = termination <$> header (context st) !! j)
       end.
Proof.
  intros Hwf Hseat He. apply well_formed_shaped in Hwf.
  apply seated_seated_from in Hseat.
  destruct (ContextDestroy_from_stops (Z.to_nat (Capacity (context st))) 0%nat st)
    as (r & st' & Hrun & Hc & Ho & _ & Hr);
    [lia|assumption|assumption|assumption|].
  exists r, st'. unfold ContextDestroy. split; [exact Hrun|].
  split; [assumption|]. split; [assumption|].
  destruct r as [err|].
  - destruct Hr as (k & h & p & t' & _ & Hh & Hp & Ht & Hs & Herr & Hfree & Hrest).
    exists k, h, p, t'. repeat (split; [assumption|]). split; [|assumption].
    intros j h' Hj. apply Hfree. lia.
  - intros k h. apply Hr. lia.
Qed.

Lemma ContextDestroy_first_failure_witness :
  exists r st',
    @ContextDestroy unit stubborn_collaborators meshed_state = Ok (r, st')
    /\ Capacity (context st') = Capacity (context meshed_state)
    /\ mpfObjects (context st') = mpfObjects (context meshed_state)
    /\ match r with
       | None =>
         forall k h, header (context st') !! k = Some h -> termination h = None
       | Some err =>
         exists k h p t',
           header (context meshed_state) !! k = Some h /\ termination h = Some p
           /\ terminations st' !! p = Some t' /\ slot t' = -1
           /\ @TerminationSubtract unit stubborn_collaborators t' = Some err
           /\ (forall j h', (j <= k)%nat ->
                 header (context st') !! j = Some h' -> termination h' = None)
           /\ (forall j, (k < j)%nat ->
                 termination <$> header (context st') !! j
                 = termination <$> header (context meshed_state) !! j)
       end.
Proof.
  apply (@ContextDestroy_first_failure unit stubborn_collaborators meshed_state).
  - reflexivity.
  - reflexivity.
  - vm_compute. discriminate.
Defined.
